(** * The aquarium controller: request handlers over a relational store

    A shallow embedding of [controllers/aquariumController.js].  Every
    handler is a function from the store, the clock and the request to a
    response and the next store.  The SQL text of each [db.query] call is
    embedded as a function on the tables it names.

    The engine may reject a statement: a parameter it cannot read in the
    type of its column, or a row its schema does not admit.  [db.query] then
    throws and the handler ends in its [catch] branch, 500
    [internal_error].  What the engine reads and admits is decided by a
    schema that is not part of the sources; it is a parameter of the
    development, the class [Postgres].  [req.body] is the object the JSON
    body parser leaves there. *)

From Stdlib Require Import QArith Qcanon Ascii.
From stdpp Require Import base numbers strings list gmap sorting pretty.

Set Warnings "-register-all,-clear-no-such-hyp".

Local Open Scope string_scope.
Local Open Scope list_scope.
Local Open Scope Z_scope.

(** ** JavaScript values *)

(** A number is a finite value, an infinity or NaN.  Finite values are kept
    exact (canonical rationals); the rounding of doubles is not modelled,
    and the two zeros are one. *)
Inductive JsNum : Type :=
  | Fin (q : Qc)
  | Inf (negative : bool)
  | NaN.

(** The values a handler meets: what [JSON.parse] builds for a body, the
    strings of paths and query strings, [undefined] for a property that is
    not there, and the [Date] the driver builds for a timestamp cell. *)
Inductive JsVal : Type :=
  | JUndefined
  | JNull
  | JBool (b : bool)
  | JNum (n : JsNum)
  | JStr (s : string)
  | JDate (t : Z)
  | JArr (items : list JsVal)
  | JObj (fields : list (string * JsVal)).

Definition num (z : Z) : JsVal := JNum (Fin (Q2Qc (inject_Z z))).

(** ECMAScript ToBoolean. *)
Definition ToBoolean (v : JsVal) : bool :=
  match v with
  | JUndefined | JNull => false
  | JBool b => b
  | JNum (Fin q) => negb (bool_decide (q = 0%Qc))
  | JNum (Inf _) => true
  | JNum NaN => false
  | JStr s => negb (String.eqb s "")
  | JDate _ | JArr _ | JObj _ => true
  end.

(** [!v] *)
Definition js_not (v : JsVal) : bool := negb (ToBoolean v).

(** [a || b] *)
Definition js_or (a b : JsVal) : JsVal := if ToBoolean a then a else b.

(** [a === b] against a primitive literal [b]: same type and same value; an
    array, object or date is never identical to a literal. *)
Definition js_strict_eq (a b : JsVal) : bool :=
  match a, b with
  | JUndefined, JUndefined => true
  | JNull, JNull => true
  | JBool x, JBool y => Bool.eqb x y
  | JNum (Fin x), JNum (Fin y) => bool_decide (x = y)
  | JNum (Inf x), JNum (Inf y) => Bool.eqb x y
  | JStr x, JStr y => String.eqb x y
  | _, _ => false
  end.

(** The two library conversions behind [Number(v)] that are not part of the
    controller: StringToNumber, and the string an array or object converts
    to (ToPrimitive). *)
Class Ecma : Type := {
  StringToNumber : string -> JsNum;
  ObjectToString : JsVal -> string
}.

(** [Number(v)] *)
Definition Number `{Ecma} (v : JsVal) : JsNum :=
  match v with
  | JUndefined => NaN
  | JNull => Fin 0%Qc
  | JBool true => Fin 1%Qc
  | JBool false => Fin 0%Qc
  | JNum n => n
  | JStr s => StringToNumber s
  | JDate t => Fin (Q2Qc (inject_Z t))
  | JArr _ | JObj _ => StringToNumber (ObjectToString v)
  end.

(** [const toNumber = v => (v === null || v === undefined ? null : Number(v))] *)
Definition toNumber `{Ecma} (v : JsVal) : JsVal :=
  match v with
  | JNull | JUndefined => JNull
  | _ => JNum (Number v)
  end.

(** ** Requests and responses *)

(** [o.k]: the property, [undefined] when the object has none. *)
Definition prop (o : gmap string JsVal) (k : string) : JsVal :=
  default JUndefined (o !! k).

Record Request : Type := {
  params : gmap string JsVal;   (* req.params: path segments, strings *)
  query : gmap string JsVal;    (* req.query *)
  body : gmap string JsVal      (* req.body, parsed JSON *)
}.

(** What [res.json] is given. *)
Inductive Json : Type :=
  | Row (r : gmap string JsVal)                (* one object *)
  | Rows (rs : list (gmap string JsVal))       (* an array of objects *)
  | NoRow                                      (* undefined *)
  | Feeding (feeding : Json).                  (* { status: 'success', feeding } *)

Record Response : Type := {
  status : nat;
  json : Json
}.

(** [res.status(code).json({ error: e })] *)
Definition error (code : nat) (e : string) : Response :=
  {| status := code; json := Row {[ "error" := JStr e ]} |}.

(** The [catch] branch of every handler:
    [res.status(500).json({ error: 'internal_error' })] *)
Definition internal_error : Response := error 500 "internal_error".

(** [rows[0]] handed to [res.json] *)
Definition first_row (rows : list (gmap string JsVal)) : Json :=
  match rows with
  | r :: _ => Row r
  | [] => NoRow
  end.

(** ** The store *)

(** A cell holds a value as the driver hands it back; NULL is [JNull].  The
    driver sends [undefined] as NULL. *)
Definition pg_param (v : JsVal) : JsVal :=
  match v with
  | JUndefined => JNull
  | _ => v
  end.

(** [COALESCE(a, b)] *)
Definition COALESCE (a b : JsVal) : JsVal :=
  match a with
  | JNull => b
  | _ => a
  end.

Record Aquarium : Type := {
  aq_id : JsVal;
  aq_user_id : JsVal;
  aq_name : JsVal;
  aq_size_litres : JsVal;
  aq_created_at : Z;
  aq_feeding_volume_grams : JsVal;
  aq_feeding_period_hours : JsVal
}.

Record Schedule : Type := {
  sc_id : JsVal;
  sc_device_id : JsVal;
  sc_name : JsVal;
  sc_type : JsVal;
  sc_interval_hours : JsVal;
  sc_feed_volume_grams : JsVal;
  sc_enabled : JsVal;
  sc_start_date : JsVal;
  sc_end_date : JsVal
}.

Record FeedingLog : Type := {
  fl_id : JsVal;
  fl_device_id : JsVal;
  fl_ts : Z;
  fl_mode : string;
  fl_volume_grams : JsVal;
  fl_actor : JsVal
}.

(** Alerts and sensor readings are written elsewhere; the handlers name
    only the columns below and pass the others through [SELECT *]. *)
Record Alert : Type := {
  al_id : JsVal;
  al_device_id : JsVal;
  al_ts : Z;
  al_resolved : JsVal;
  al_resolved_at : option Z;
  al_others : gmap string JsVal
}.

Record SensorReading : Type := {
  sd_device_id : JsVal;
  sd_ts : Z;
  sd_others : gmap string JsVal
}.

Record Db : Type := {
  aquariums : list Aquarium;
  schedules : list Schedule;
  feeding_logs : list FeedingLog;
  alerts : list Alert;
  sensor_data : list SensorReading;
  aquariums_seq : Z;      (* next generated id of each table written here *)
  schedules_seq : Z;
  feeding_logs_seq : Z
}.

(** ** The engine *)

(** The columns the statements write from a parameter. *)
Inductive Column : Type :=
  | aquariums_user_id
  | aquariums_name
  | aquariums_size_litres
  | aquariums_feeding_volume_grams
  | aquariums_feeding_period_hours
  | schedules_device_id
  | schedules_name
  | schedules_type
  | schedules_interval_hours
  | schedules_feed_volume_grams
  | schedules_enabled
  | schedules_start_date
  | schedules_end_date
  | feeding_logs_device_id
  | feeding_logs_volume_grams
  | feeding_logs_actor.

(** What the engine does with the values it is sent, by a schema that is
    not in the sources.

    - [key_in p]: it can read the parameter [p] where a statement compares
      it with a key ([id], [device_id], [user_id]); [sql_eq cell p] is that
      comparison, and only a parameter it can read equals a cell.
    - [value_in c p]: the cell a parameter that is not NULL becomes when
      it is written to column [c], nothing when the column rejects it (its
      type cannot read the value, or a constraint of the column forbids
      it); the cell is never NULL.
    - [boolean_in p]: a parameter the statement itself types boolean
      ([COALESCE($6,true)], [CASE WHEN $1]); a JavaScript boolean is read
      as itself.
    - [timestamp_in p]: a parameter compared with [ts].
    - [date_trunc_day]: [date_trunc('day', _)].
    - [sum_out cells]: the value the driver hands back for [SUM] over
      cells that are not NULL, at least one.
    - [column_default c]: the cell of a column an INSERT leaves out.
    - [admits_aquarium], [admits_schedule], [admits_feeding_log]: the
      constraints of the schema on a new row.
    - [aquariums_order], [schedules_order]: the order in which a SELECT
      without ORDER BY hands back the rows it found. *)
Class Postgres `{Ecma} : Type := {
  key_in : JsVal -> bool;
  sql_eq : JsVal -> JsVal -> bool;
  sql_eq_key_in : forall cell p, sql_eq cell p = true -> key_in p = true;
  value_in : Column -> JsVal -> option JsVal;
  value_in_not_null : forall c p v, value_in c p = Some v -> v <> JNull;
  boolean_in : JsVal -> option bool;
  boolean_in_bool : forall b, boolean_in (JBool b) = Some b;
  timestamp_in : JsVal -> option Z;
  date_trunc_day : Z -> Z;
  sum_out : list JsVal -> JsVal;
  column_default : Column -> JsVal;
  admits_aquarium : Db -> Aquarium -> bool;
  admits_schedule : Db -> Schedule -> bool;
  admits_feeding_log : Db -> FeedingLog -> bool;
  aquariums_order : list Aquarium -> list Aquarium;
  aquariums_order_perm : forall l, aquariums_order l ≡ₚ l;
  schedules_order : list Schedule -> list Schedule;
  schedules_order_perm : forall l, schedules_order l ≡ₚ l
}.

(** Modelled from the spec: the table definitions are not in the sources.
    §4.1 has a created row carry its "generated id and timestamp" and §3
    has "ts defaults to creation time": a new row takes the next value of
    its table's sequence as id. *)
Definition generated_id (seq : Z) : JsVal := num seq.

(** Modelled from the spec: the column defaults are not in the sources; §3
    and §4.1 give the creation time to [created_at] and [ts]. *)
Definition default_timestamp (now : Z) : Z := now.

(** [rowCount] of a query result *)
Definition rowCount {A} (rows : list A) : nat := length rows.

(** *** Rows as the driver returns them *)

(** [SELECT *] / [RETURNING *] on aquariums *)
Definition aquarium_row (a : Aquarium) : gmap string JsVal :=
  list_to_map
    [("id", aq_id a); ("user_id", aq_user_id a); ("name", aq_name a);
     ("size_litres", aq_size_litres a); ("created_at", JDate (aq_created_at a));
     ("feeding_volume_grams", aq_feeding_volume_grams a);
     ("feeding_period_hours", aq_feeding_period_hours a)].

(** [RETURNING id, user_id, name, size_litres, created_at] *)
Definition aquarium_created_row (a : Aquarium) : gmap string JsVal :=
  list_to_map
    [("id", aq_id a); ("user_id", aq_user_id a); ("name", aq_name a);
     ("size_litres", aq_size_litres a); ("created_at", JDate (aq_created_at a))].

(** [RETURNING id, device_id, name, type, interval_hours, feed_volume_grams,
    enabled, start_date, end_date], which is every column the handlers name *)
Definition schedule_row (s : Schedule) : gmap string JsVal :=
  list_to_map
    [("id", sc_id s); ("device_id", sc_device_id s); ("name", sc_name s);
     ("type", sc_type s); ("interval_hours", sc_interval_hours s);
     ("feed_volume_grams", sc_feed_volume_grams s); ("enabled", sc_enabled s);
     ("start_date", sc_start_date s); ("end_date", sc_end_date s)].

(** [RETURNING id, device_id, ts, mode, volume_grams, actor] *)
Definition feeding_log_row (l : FeedingLog) : gmap string JsVal :=
  list_to_map
    [("id", fl_id l); ("device_id", fl_device_id l); ("ts", JDate (fl_ts l));
     ("mode", JStr (fl_mode l)); ("volume_grams", fl_volume_grams l);
     ("actor", fl_actor l)].

Definition timestamp_cell (t : option Z) : JsVal :=
  match t with
  | Some t => JDate t
  | None => JNull
  end.

(** [RETURNING *] on alerts *)
Definition alert_row (a : Alert) : gmap string JsVal :=
  <["id" := al_id a]> (<["device_id" := al_device_id a]> (<["ts" := JDate (al_ts a)]>
    (<["resolved" := al_resolved a]>
      (<["resolved_at" := timestamp_cell (al_resolved_at a)]> (al_others a))))).

(** [SELECT *] on sensor_data *)
Definition sensor_row (s : SensorReading) : gmap string JsVal :=
  <["device_id" := sd_device_id s]> (<["ts" := JDate (sd_ts s)]> (sd_others s)).

(** *** Writing one table, the others kept *)

Definition with_aquariums (db : Db) (t : list Aquarium) (seq : Z) : Db :=
  {| aquariums := t; schedules := schedules db; feeding_logs := feeding_logs db;
     alerts := alerts db; sensor_data := sensor_data db;
     aquariums_seq := seq; schedules_seq := schedules_seq db;
     feeding_logs_seq := feeding_logs_seq db |}.

Definition with_schedules (db : Db) (t : list Schedule) (seq : Z) : Db :=
  {| aquariums := aquariums db; schedules := t; feeding_logs := feeding_logs db;
     alerts := alerts db; sensor_data := sensor_data db;
     aquariums_seq := aquariums_seq db; schedules_seq := seq;
     feeding_logs_seq := feeding_logs_seq db |}.

Definition with_feeding_logs (db : Db) (t : list FeedingLog) (seq : Z) : Db :=
  {| aquariums := aquariums db; schedules := schedules db; feeding_logs := t;
     alerts := alerts db; sensor_data := sensor_data db;
     aquariums_seq := aquariums_seq db; schedules_seq := schedules_seq db;
     feeding_logs_seq := seq |}.

Definition with_alerts (db : Db) (t : list Alert) : Db :=
  {| aquariums := aquariums db; schedules := schedules db;
     feeding_logs := feeding_logs db; alerts := t; sensor_data := sensor_data db;
     aquariums_seq := aquariums_seq db; schedules_seq := schedules_seq db;
     feeding_logs_seq := feeding_logs_seq db |}.

(** ** The handlers *)

Section Controller.
Context `{Postgres}.

(** A parameter written to column [c]: NULL is written as NULL, any other
    value as the column reads it; nothing when the column rejects it. *)
Definition write (c : Column) (p : JsVal) : option JsVal :=
  match pg_param p with
  | JNull => Some JNull
  | v => value_in c v
  end.

(** [$n] in a statement run with the parameter array [ps] *)
Definition placeholder (ps : list JsVal) (n : nat) : JsVal :=
  match n with
  | O => JNull
  | S k => pg_param (default JUndefined (ps !! k))
  end.

(** *** 1. POST /aquariums *)

(** The row of
    [INSERT INTO aquariums (user_id, name, size_litres) VALUES ($1,$2,$3)],
    its parameters read. *)
Definition new_aquarium (now : Z) (db : Db) (user_id name size_litres : JsVal)
    : Aquarium :=
  {| aq_id := generated_id (aquariums_seq db);
     aq_user_id := user_id;
     aq_name := name;
     aq_size_litres := size_litres;
     aq_created_at := default_timestamp now;
     aq_feeding_volume_grams := column_default aquariums_feeding_volume_grams;
     aq_feeding_period_hours := column_default aquariums_feeding_period_hours |}.

(** [INSERT INTO aquariums (user_id, name, size_litres) VALUES ($1,$2,$3)
     RETURNING id, user_id, name, size_litres, created_at].
    No rows: the engine rejected the statement.  A row the schema does not
    admit is rejected after its id was drawn from the sequence. *)
Definition insert_aquarium (now : Z) (db : Db) (p1 p2 p3 : JsVal)
    : option (list (gmap string JsVal)) * Db :=
  match u ← write aquariums_user_id p1;
        n ← write aquariums_name p2;
        s ← write aquariums_size_litres p3;
        Some (new_aquarium now db u n s) with
  | None => (None, db)
  | Some a =>
      if admits_aquarium db a
      then (Some [aquarium_created_row a],
            with_aquariums db (aquariums db ++ [a]) (aquariums_seq db + 1))
      else (None, with_aquariums db (aquariums db) (aquariums_seq db + 1))
  end.

Definition createAquarium (now : Z) (db : Db) (req : Request) : Response * Db :=
  let user_id := prop (body req) "user_id" in
  let name := prop (body req) "name" in
  let size_litres := prop (body req) "size_litres" in
  if js_not user_id || js_not name then (error 400 "user_id and name required", db)
  else
    match insert_aquarium now db user_id name size_litres with
    | (Some rows, db') => ({| status := 201; json := first_row rows |}, db')
    | (None, db') => (internal_error, db')
    end.

(** *** 2. POST /aquariums/:id/feeding_settings *)

(** [COALESCE($6,true)]: the literal types the parameter boolean. *)
Definition enabled_or_true (p : JsVal) : option JsVal :=
  match pg_param p with
  | JNull => Some (JBool true)
  | v => JBool <$> boolean_in v
  end.

(** The row of [INSERT INTO schedules (device_id, name, type,
    interval_hours, feed_volume_grams, enabled, start_date, end_date)
    VALUES ($1,$2,$3,$4,$5,COALESCE($6,true),$7,$8)], its parameters read. *)
Definition new_schedule (db : Db)
    (device_id name type interval_hours feed_volume_grams enabled
     start_date end_date : JsVal) : Schedule :=
  {| sc_id := generated_id (schedules_seq db);
     sc_device_id := device_id;
     sc_name := name;
     sc_type := type;
     sc_interval_hours := interval_hours;
     sc_feed_volume_grams := feed_volume_grams;
     sc_enabled := enabled;
     sc_start_date := start_date;
     sc_end_date := end_date |}.

(** [INSERT INTO schedules (...) VALUES ($1,$2,$3,$4,$5,COALESCE($6,true),$7,$8)
     RETURNING id, device_id, name, type, interval_hours, feed_volume_grams,
       enabled, start_date, end_date] *)
Definition insert_schedule (db : Db) (p1 p2 p3 p4 p5 p6 p7 p8 : JsVal)
    : option (list (gmap string JsVal)) * Db :=
  match d ← write schedules_device_id p1;
        n ← write schedules_name p2;
        t ← write schedules_type p3;
        i ← write schedules_interval_hours p4;
        v ← write schedules_feed_volume_grams p5;
        e ← enabled_or_true p6;
        sd ← write schedules_start_date p7;
        ed ← write schedules_end_date p8;
        Some (new_schedule db d n t i v e sd ed) with
  | None => (None, db)
  | Some s =>
      if admits_schedule db s
      then (Some [schedule_row s],
            with_schedules db (schedules db ++ [s]) (schedules_seq db + 1))
      else (None, with_schedules db (schedules db) (schedules_seq db + 1))
  end.

Definition createFeedingSetting (db : Db) (req : Request) : Response * Db :=
  let aquariumId := prop (params req) "id" in
  let name := prop (body req) "name" in
  let type := prop (body req) "type" in
  let interval_hours := prop (body req) "interval_hours" in
  let feed_volume_grams := prop (body req) "feed_volume_grams" in
  let start_date := prop (body req) "start_date" in
  let end_date := prop (body req) "end_date" in
  let enabled := prop (body req) "enabled" in
  if js_not type then (error 400 "type required (interval|daily_times)", db)
  else
    match insert_schedule db aquariumId (js_or name JNull) type
            (js_or interval_hours JNull) (js_or feed_volume_grams JNull) enabled
            (js_or start_date JNull) (js_or end_date JNull) with
    | (Some rows, db') => ({| status := 201; json := first_row rows |}, db')
    | (None, db') => (internal_error, db')
    end.

(** *** 3. POST /aquariums/:id/feed *)

(** The row of [INSERT INTO feeding_logs (device_id, mode, volume_grams,
    actor) VALUES ($1,'MANUAL',$2,$3)], its parameters read. *)
Definition new_feeding_log (now : Z) (db : Db) (device_id volume_grams actor : JsVal)
    : FeedingLog :=
  {| fl_id := generated_id (feeding_logs_seq db);
     fl_device_id := device_id;
     fl_ts := default_timestamp now;
     fl_mode := "MANUAL";
     fl_volume_grams := volume_grams;
     fl_actor := actor |}.

(** [INSERT INTO feeding_logs (device_id, mode, volume_grams, actor)
     VALUES ($1,'MANUAL',$2,$3)
     RETURNING id, device_id, ts, mode, volume_grams, actor] *)
Definition insert_feeding_log (now : Z) (db : Db) (p1 p2 p3 : JsVal)
    : option (list (gmap string JsVal)) * Db :=
  match d ← write feeding_logs_device_id p1;
        v ← write feeding_logs_volume_grams p2;
        a ← write feeding_logs_actor p3;
        Some (new_feeding_log now db d v a) with
  | None => (None, db)
  | Some l =>
      if admits_feeding_log db l
      then (Some [feeding_log_row l],
            with_feeding_logs db (feeding_logs db ++ [l]) (feeding_logs_seq db + 1))
      else (None, with_feeding_logs db (feeding_logs db) (feeding_logs_seq db + 1))
  end.

Definition triggerFeed (now : Z) (db : Db) (req : Request) : Response * Db :=
  let aquariumId := prop (params req) "id" in
  let volume_grams := prop (body req) "volume_grams" in
  let actor := prop (body req) "actor" in
  let vol := js_or (toNumber volume_grams) JNull in
  match insert_feeding_log now db aquariumId vol (js_or actor (JStr "user")) with
  | (Some logRes, db') =>
      ({| status := 201; json := Feeding (first_row logRes) |}, db')
  | (None, db') => (internal_error, db')
  end.

(** *** 4. GET /aquariums *)

(** [SELECT id, user_id, name, size_litres, created_at FROM aquariums], with
    [WHERE user_id = $1] when the handler appended it.  No order is asked
    for: the rows come as the engine hands them back. *)
Definition select_aquariums (db : Db) (where_user_id : bool) (ps : list JsVal)
    : option (list (gmap string JsVal)) :=
  if negb where_user_id || key_in (placeholder ps 1)
  then Some (aquarium_created_row <$>
               aquariums_order
                 (List.filter
                    (fun a => if where_user_id
                              then sql_eq (aq_user_id a) (placeholder ps 1) else true)
                    (aquariums db)))
  else None.

Definition listAquariums (db : Db) (req : Request) : Response * Db :=
  let userId := prop (query req) "user_id" in
  let '(q, ps) := if ToBoolean userId then (true, [userId]) else (false, []) in
  match select_aquariums db q ps with
  | Some rows => ({| status := 200; json := Rows rows |}, db)
  | None => (internal_error, db)
  end.

(** *** 5. GET /aquariums/:id *)

(** [SELECT * FROM aquariums WHERE id = $1] *)
Definition select_aquarium (db : Db) (p1 : JsVal) : option (list (gmap string JsVal)) :=
  if key_in (pg_param p1)
  then Some (aquarium_row <$>
               List.filter (fun a => sql_eq (aq_id a) (pg_param p1)) (aquariums db))
  else None.

Definition getAquarium (db : Db) (req : Request) : Response * Db :=
  let id := prop (params req) "id" in
  match select_aquarium db id with
  | Some aqu =>
      if bool_decide (rowCount aqu = 0%nat) then (error 404 "not_found", db)
      else ({| status := 200; json := first_row aqu |}, db)
  | None => (internal_error, db)
  end.

(** *** 6. GET /aquariums/:id/alerts *)

(** [ts DESC] on alerts: the later alert first *)
Definition alert_desc (a b : Alert) : Prop := al_ts b <= al_ts a.

#[global] Instance alert_desc_dec : RelDecision alert_desc.
Proof. intros a b. unfold alert_desc. apply _. Defined.

(** [SELECT * FROM alerts WHERE device_id = $1 ORDER BY ts DESC LIMIT 100].
    Alerts of one [ts] may come either way; the sort here is one such
    order. *)
Definition select_alerts (db : Db) (p1 : JsVal) : option (list (gmap string JsVal)) :=
  if key_in (pg_param p1)
  then Some (alert_row <$>
               take 100 (merge_sort alert_desc
                 (List.filter (fun a => sql_eq (al_device_id a) (pg_param p1))
                    (alerts db))))
  else None.

Definition getAquariumAlerts (db : Db) (req : Request) : Response * Db :=
  let id := prop (params req) "id" in
  match select_alerts db id with
  | Some rows => ({| status := 200; json := Rows rows |}, db)
  | None => (internal_error, db)
  end.

(** *** 7. GET /aquariums/:id/condition-history *)

(** The conditions the handler appends to its query text; each names its
    parameter by position, [$n]. *)
Inductive Cond : Type :=
  | DeviceIdEq (n : nat)   (* device_id = $n *)
  | TsGe (n : nat)         (* ts >= $n *)
  | TsLe (n : nat).        (* ts <= $n *)

(** The engine can read the parameter of the condition. *)
Definition cond_read (ps : list JsVal) (c : Cond) : bool :=
  match c with
  | DeviceIdEq n => key_in (placeholder ps n)
  | TsGe n | TsLe n => bool_decide (is_Some (timestamp_in (placeholder ps n)))
  end.

Definition sensor_holds (ps : list JsVal) (s : SensorReading) (c : Cond) : bool :=
  match c with
  | DeviceIdEq n => sql_eq (sd_device_id s) (placeholder ps n)
  | TsGe n =>
      match timestamp_in (placeholder ps n) with
      | Some t => bool_decide (t <= sd_ts s)
      | None => false
      end
  | TsLe n =>
      match timestamp_in (placeholder ps n) with
      | Some t => bool_decide (sd_ts s <= t)
      | None => false
      end
  end.

(** [ts DESC]: the later reading first *)
Definition ts_desc (a b : SensorReading) : Prop := sd_ts b <= sd_ts a.

#[global] Instance ts_desc_dec : RelDecision ts_desc.
Proof. intros a b. unfold ts_desc. apply _. Defined.

(** [SELECT * FROM sensor_data WHERE c1 AND c2 ... ORDER BY ts DESC LIMIT 500].
    The engine may order readings of one [ts] either way; the sort here
    is one such order. *)
Definition select_sensor_data (db : Db) (q : list Cond) (ps : list JsVal)
    : option (list (gmap string JsVal)) :=
  if forallb (cond_read ps) q
  then Some (sensor_row <$>
               take 500 (merge_sort ts_desc
                 (List.filter (fun s => forallb (sensor_holds ps s) q)
                    (sensor_data db))))
  else None.

Definition getConditionHistory (db : Db) (req : Request) : Response * Db :=
  let id := prop (params req) "id" in
  let start := prop (query req) "start" in
  let end_ := prop (query req) "end" in
  let q := [DeviceIdEq 1] in
  let ps := [id] in
  let '(q, ps) :=
    if ToBoolean start
    then let ps := ps ++ [start] in (q ++ [TsGe (length ps)], ps)
    else (q, ps) in
  let '(q, ps) :=
    if ToBoolean end_
    then let ps := ps ++ [end_] in (q ++ [TsLe (length ps)], ps)
    else (q, ps) in
  match select_sensor_data db q ps with
  | Some rows => ({| status := 200; json := Rows rows |}, db)
  | None => (internal_error, db)
  end.

(** *** 8. GET /aquariums/:id/daily-consumption *)

Definition is_null (v : JsVal) : bool :=
  match v with
  | JNull => true
  | _ => false
  end.

(** [SUM(col)] as the driver returns it: NULL cells are skipped; NULL when
    no cell is left. *)
Definition SUM (cells : list JsVal) : JsVal :=
  match List.filter (fun v => negb (is_null v)) cells with
  | [] => JNull
  | vs => sum_out vs
  end.

Definition day_of (l : FeedingLog) : Z := date_trunc_day (fl_ts l).

(** [ORDER BY 1 DESC]: the later day first *)
Definition day_desc (g h : Z * JsVal) : Prop := h.1 <= g.1.

#[global] Instance day_desc_dec : RelDecision day_desc.
Proof. intros g h. unfold day_desc. apply _. Defined.

(** [SELECT date_trunc('day', ts) AS day, SUM(volume_grams) AS consumed
     FROM feeding_logs WHERE device_id = $1
     GROUP BY 1 ORDER BY 1 DESC LIMIT 30] *)
Definition select_daily_consumption (db : Db) (p1 : JsVal)
    : option (list (Z * JsVal)) :=
  if key_in (pg_param p1)
  then
    let logs := List.filter (fun l => sql_eq (fl_device_id l) (pg_param p1))
                  (feeding_logs db) in
    let days := remove_dups (day_of <$> logs) in
    let groups :=
      (fun d => (d, SUM (fl_volume_grams <$>
                           List.filter (fun l => bool_decide (day_of l = d)) logs)))
        <$> days in
    Some (take 30 (merge_sort day_desc groups))
  else None.

(** [r => ({ date: r.day, consumed: Number(r.consumed) })] *)
Definition consumption_entry (r : Z * JsVal) : gmap string JsVal :=
  list_to_map [("date", JDate r.1); ("consumed", JNum (Number r.2))].

Definition getDailyConsumption (db : Db) (req : Request) : Response * Db :=
  let id := prop (params req) "id" in
  match select_daily_consumption db id with
  | Some result =>
      ({| status := 200; json := Rows (consumption_entry <$> result) |}, db)
  | None => (internal_error, db)
  end.

(** *** 9. GET /aquariums/:id/feeding_settings *)

(** [SELECT * FROM schedules WHERE device_id = $1]: no order is asked for,
    the rows come as the engine hands them back. *)
Definition select_schedules (db : Db) (p1 : JsVal) : option (list (gmap string JsVal)) :=
  if key_in (pg_param p1)
  then Some (schedule_row <$>
               schedules_order
                 (List.filter (fun s => sql_eq (sc_device_id s) (pg_param p1))
                    (schedules db)))
  else None.

Definition getFeedingSettings (db : Db) (req : Request) : Response * Db :=
  let id := prop (params req) "id" in
  match select_schedules db id with
  | Some rows => ({| status := 200; json := Rows rows |}, db)
  | None => (internal_error, db)
  end.

(** *** 10. PUT /aquarium/:id and /aquariums/:id *)

(** The [SET] list: [name = COALESCE($1, name),
    size_litres = COALESCE($2, size_litres),
    feeding_volume_grams = COALESCE($3, feeding_volume_grams),
    feeding_period_hours = COALESCE($4, feeding_period_hours)], its
    parameters read. *)
Definition set_aquarium (p1 p2 p3 p4 : JsVal) (a : Aquarium) : Aquarium :=
  {| aq_id := aq_id a;
     aq_user_id := aq_user_id a;
     aq_name := COALESCE p1 (aq_name a);
     aq_size_litres := COALESCE p2 (aq_size_litres a);
     aq_created_at := aq_created_at a;
     aq_feeding_volume_grams := COALESCE p3 (aq_feeding_volume_grams a);
     aq_feeding_period_hours := COALESCE p4 (aq_feeding_period_hours a) |}.

(** [UPDATE aquariums SET ... WHERE id = $5 RETURNING *] *)
Definition update_aquariums (db : Db) (p1 p2 p3 p4 p5 : JsVal)
    : option (list (gmap string JsVal) * Db) :=
  if key_in (pg_param p5)
  then
    n ← write aquariums_name p1;
    s ← write aquariums_size_litres p2;
    v ← write aquariums_feeding_volume_grams p3;
    h ← write aquariums_feeding_period_hours p4;
    let hit a := sql_eq (aq_id a) (pg_param p5) in
    Some (aquarium_row <$> (set_aquarium n s v h <$> List.filter hit (aquariums db)),
          with_aquariums db
            ((fun a => if hit a then set_aquarium n s v h a else a) <$> aquariums db)
            (aquariums_seq db))
  else None.

Definition updateAquarium (db : Db) (req : Request) : Response * Db :=
  let id := prop (params req) "id" in
  let name := prop (body req) "name" in
  let size_litres := prop (body req) "size_litres" in
  let feeding_volume_grams := prop (body req) "feeding_volume_grams" in
  let feeding_period_hours := prop (body req) "feeding_period_hours" in
  match update_aquariums db name size_litres feeding_volume_grams
          feeding_period_hours id with
  | Some (rows, db') =>
      if bool_decide (rowCount rows = 0%nat) then (error 404 "not_found", db')
      else ({| status := 200; json := first_row rows |}, db')
  | None => (internal_error, db)
  end.

(** *** 11. PUT /aquariums/:id/feeding_settings *)

(** [SELECT * FROM schedules WHERE id = $1 AND device_id = $2] *)
Definition select_schedule (db : Db) (p1 p2 : JsVal)
    : option (list (gmap string JsVal)) :=
  if key_in (pg_param p1) && key_in (pg_param p2)
  then Some (schedule_row <$>
               List.filter
                 (fun s => sql_eq (sc_id s) (pg_param p1)
                           && sql_eq (sc_device_id s) (pg_param p2))
                 (schedules db))
  else None.

(** The [SET] list: [name = COALESCE($1,name), type = COALESCE($2,type),
    interval_hours = COALESCE($3,interval_hours),
    feed_volume_grams = COALESCE($4,feed_volume_grams),
    enabled = COALESCE($5,enabled), start_date = COALESCE($6,start_date),
    end_date = COALESCE($7,end_date)], its parameters read. *)
Definition set_schedule (p1 p2 p3 p4 p5 p6 p7 : JsVal) (s : Schedule) : Schedule :=
  {| sc_id := sc_id s;
     sc_device_id := sc_device_id s;
     sc_name := COALESCE p1 (sc_name s);
     sc_type := COALESCE p2 (sc_type s);
     sc_interval_hours := COALESCE p3 (sc_interval_hours s);
     sc_feed_volume_grams := COALESCE p4 (sc_feed_volume_grams s);
     sc_enabled := COALESCE p5 (sc_enabled s);
     sc_start_date := COALESCE p6 (sc_start_date s);
     sc_end_date := COALESCE p7 (sc_end_date s) |}.

(** [UPDATE schedules SET ... WHERE id = $8 RETURNING *] *)
Definition update_schedules (db : Db) (p1 p2 p3 p4 p5 p6 p7 p8 : JsVal)
    : option (list (gmap string JsVal) * Db) :=
  if key_in (pg_param p8)
  then
    n ← write schedules_name p1;
    t ← write schedules_type p2;
    i ← write schedules_interval_hours p3;
    v ← write schedules_feed_volume_grams p4;
    e ← write schedules_enabled p5;
    sd ← write schedules_start_date p6;
    ed ← write schedules_end_date p7;
    let hit s := sql_eq (sc_id s) (pg_param p8) in
    let set := set_schedule n t i v e sd ed in
    Some (schedule_row <$> (set <$> List.filter hit (schedules db)),
          with_schedules db ((fun s => if hit s then set s else s) <$> schedules db)
            (schedules_seq db))
  else None.

Definition updateFeedingSetting (db : Db) (req : Request) : Response * Db :=
  let aquariumId := prop (params req) "id" in
  let settingId := prop (body req) "settingId" in
  let name := prop (body req) "name" in
  let type := prop (body req) "type" in
  let interval_hours := prop (body req) "interval_hours" in
  let feed_volume_grams := prop (body req) "feed_volume_grams" in
  let enabled := prop (body req) "enabled" in
  let start_date := prop (body req) "start_date" in
  let end_date := prop (body req) "end_date" in
  if js_not settingId then (error 400 "settingId required in body", db)
  else
    match select_schedule db settingId aquariumId with
    | None => (internal_error, db)
    | Some check =>
        if bool_decide (rowCount check = 0%nat)
        then (error 404 "schedule_not_found", db)
        else
          match update_schedules db name type interval_hours feed_volume_grams
                  enabled start_date end_date settingId with
          | Some (upd, db') => ({| status := 200; json := first_row upd |}, db')
          | None => (internal_error, db)
          end
    end.

(** *** 12. PUT /aquariums/:id/alerts *)

(** [SELECT * FROM alerts WHERE id = $1 AND device_id = $2] *)
Definition select_alert (db : Db) (p1 p2 : JsVal) : option (list (gmap string JsVal)) :=
  if key_in (pg_param p1) && key_in (pg_param p2)
  then Some (alert_row <$>
               List.filter
                 (fun a => sql_eq (al_id a) (pg_param p1)
                           && sql_eq (al_device_id a) (pg_param p2))
                 (alerts db))
  else None.

(** [$1] of [resolved = $1, resolved_at = CASE WHEN $1 ...]: NULL, or a
    boolean as the engine reads it. *)
Definition condition_in (p : JsVal) : option (option bool) :=
  match pg_param p with
  | JNull => Some None
  | v => Some <$> boolean_in v
  end.

(** The [SET] list: [resolved = $1,
    resolved_at = CASE WHEN $1 THEN now() ELSE NULL END], [$1] read: the
    branch is taken when it is true, not when it is false or NULL. *)
Definition set_alert (now : Z) (c : option bool) (a : Alert) : Alert :=
  {| al_id := al_id a;
     al_device_id := al_device_id a;
     al_ts := al_ts a;
     al_resolved := match c with Some b => JBool b | None => JNull end;
     al_resolved_at := match c with Some true => Some now | _ => None end;
     al_others := al_others a |}.

(** [UPDATE alerts SET ... WHERE id = $2 RETURNING *] *)
Definition update_alerts (now : Z) (db : Db) (p1 p2 : JsVal)
    : option (list (gmap string JsVal) * Db) :=
  if key_in (pg_param p2)
  then
    c ← condition_in p1;
    let hit a := sql_eq (al_id a) (pg_param p2) in
    Some (alert_row <$> (set_alert now c <$> List.filter hit (alerts db)),
          with_alerts db
            ((fun a => if hit a then set_alert now c a else a) <$> alerts db))
  else None.

Definition updateAlertStatus (now : Z) (db : Db) (req : Request) : Response * Db :=
  let aquariumId := prop (params req) "id" in
  let alertId := prop (body req) "alertId" in
  let resolved := prop (body req) "resolved" in
  if js_not alertId then (error 400 "alertId required", db)
  else
    match select_alert db alertId aquariumId with
    | None => (internal_error, db)
    | Some check =>
        if bool_decide (rowCount check = 0%nat) then (error 404 "alert_not_found", db)
        else
          match update_alerts now db
                  (JBool (js_strict_eq resolved (JBool true)
                          || js_strict_eq resolved (JStr "true")))
                  alertId with
          | Some (upd, db') => ({| status := 200; json := first_row upd |}, db')
          | None => (internal_error, db)
          end
    end.

(** *** 13. DELETE /aquariums/:id *)

(** [DELETE FROM aquariums WHERE id = $1 RETURNING id].  What the schema
    has the engine do to the rows of other tables (a cascade) is not in
    the sources; the statement removes rows of [aquariums]. *)
Definition delete_aquarium (db : Db) (p1 : JsVal)
    : option (list (gmap string JsVal) * Db) :=
  if key_in (pg_param p1)
  then
    let hit a := sql_eq (aq_id a) (pg_param p1) in
    Some ((fun a => {[ "id" := aq_id a ]}) <$> List.filter hit (aquariums db),
          with_aquariums db (List.filter (fun a => negb (hit a)) (aquariums db))
            (aquariums_seq db))
  else None.

Definition deleteAquarium (db : Db) (req : Request) : Response * Db :=
  let id := prop (params req) "id" in
  match delete_aquarium db id with
  | Some (rows, db') =>
      if bool_decide (rowCount rows = 0%nat) then (error 404 "not_found", db')
      else
        ({| status := 200;
            json := Row (list_to_map
                      [("status", JStr "deleted");
                       ("id", match rows with
                              | r :: _ => prop r "id"
                              | [] => JUndefined
                              end)]) |}, db')
  | None => (internal_error, db)
  end.

(** *** 14. DELETE /aquariums/:id/feeding_settings/:settingId *)

(** [DELETE FROM schedules WHERE id = $1] *)
Definition delete_schedule (db : Db) (p1 : JsVal) : option Db :=
  if key_in (pg_param p1)
  then Some (with_schedules db
               (List.filter (fun s => negb (sql_eq (sc_id s) (pg_param p1)))
                  (schedules db))
               (schedules_seq db))
  else None.

Definition deleteFeedingSetting (db : Db) (req : Request) : Response * Db :=
  let aquariumId := prop (params req) "id" in
  let settingId := prop (params req) "settingId" in
  match select_schedule db settingId aquariumId with
  | None => (internal_error, db)
  | Some check =>
      if bool_decide (rowCount check = 0%nat)
      then (error 404 "schedule_not_found", db)
      else
        match delete_schedule db settingId with
        | Some db' =>
            ({| status := 200; json := Row {[ "status" := JStr "deleted" ]} |}, db')
        | None => (internal_error, db)
        end
  end.

End Controller.

(** ** One engine, for the worked examples *)

(** StringToNumber on the decimal integer literals; every other string is
    NaN here, the empty string is 0. *)
Fixpoint decimal_digits (s : string) (acc : Z) : option Z :=
  match s with
  | EmptyString => Some acc
  | String c s' =>
      let n := Z.of_nat (Ascii.nat_of_ascii c) in
      if bool_decide (48 <= n <= 57) then decimal_digits s' (10 * acc + (n - 48))
      else None
  end.

Definition integer_literal (s : string) : JsNum :=
  match s with
  | EmptyString => Fin 0%Qc
  | String "-"%char (String c s') =>
      match decimal_digits (String c s') 0 with
      | Some z => Fin (Q2Qc (inject_Z (- z)))
      | None => NaN
      end
  | _ =>
      match decimal_digits s 0 with
      | Some z => Fin (Q2Qc (inject_Z z))
      | None => NaN
      end
  end.

Definition integer_literals : Ecma := {|
  StringToNumber := integer_literal;
  ObjectToString := fun _ => "[object Object]"
|}.

(** A schema that types every key and every measure [integer], names,
    [type] and [actor] [text], [enabled] [boolean] and the dates
    [timestamptz], with NOT NULL on the keys and on [type]; the session
    time zone is UTC.  On integers the engine's comparisons and sums are
    exact, as the numbers of this development are.  The driver sends a
    number or a boolean as its text.  The instance reads the plain
    spellings below; the examples use no other. *)

(** The range of [integer] *)
Definition int4 (z : Z) : option Z :=
  if bool_decide (-2147483648 <= z <= 2147483647) then Some z else None.

(** A sign and decimal digits *)
Definition integer_text (s : string) : option Z :=
  match s with
  | EmptyString => None
  | String "-"%char (String c s') => Z.opp <$> decimal_digits (String c s') 0
  | String "+"%char (String c s') => decimal_digits (String c s') 0
  | _ => decimal_digits s 0
  end.

(** A parameter read as [integer]: a number that is one, or its text. *)
Definition integer_of (p : JsVal) : option Z :=
  match p with
  | JNum (Fin q) =>
      if bool_decide (Qden q = 1%positive) then int4 (Qnum q) else None
  | JStr s => integer_text s ≫= int4
  | _ => None
  end.

(** [cell = $n] on an integer column; NULL equals nothing. *)
Definition integer_eq (cell p : JsVal) : bool :=
  match cell, integer_of p with
  | JNum (Fin q), Some z => bool_decide (q = Q2Qc (inject_Z z))
  | _, _ => false
  end.

(** A parameter compared with an integer column: NULL, or an integer. *)
Definition integer_key (p : JsVal) : bool :=
  is_null p || bool_decide (is_Some (integer_of p)).

(** A parameter read as [boolean] *)
Definition boolean_of (p : JsVal) : option bool :=
  match p with
  | JBool b => Some b
  | JNum (Fin q) =>
      if bool_decide (q = 1%Qc) then Some true
      else if bool_decide (q = 0%Qc) then Some false
      else None
  | JStr s =>
      if bool_decide (s ∈ ["true"; "t"; "yes"; "y"; "on"; "1"]) then Some true
      else if bool_decide (s ∈ ["false"; "f"; "no"; "n"; "off"; "0"]) then Some false
      else None
  | _ => None
  end.

(** A parameter read as [text] *)
Definition text_of (p : JsVal) : option JsVal :=
  match p with
  | JStr s => Some (JStr s)
  | JBool true => Some (JStr "true")
  | JBool false => Some (JStr "false")
  | JNum (Fin q) =>
      if bool_decide (Qden q = 1%positive) then Some (JStr (pretty (Qnum q)))
      else None
  | _ => None
  end.

Definition digit (c : ascii) : option Z :=
  let n := Z.of_nat (Ascii.nat_of_ascii c) in
  if bool_decide (48 <= n <= 57) then Some (n - 48) else None.

Definition two_digits (a b : ascii) : option Z :=
  x ← digit a; y ← digit b; Some (10 * x + y).

Definition leap_year (y : Z) : bool :=
  bool_decide (y mod 4 = 0) && (negb (bool_decide (y mod 100 = 0))
                                || bool_decide (y mod 400 = 0)).

Definition days_in_month (y m : Z) : Z :=
  if bool_decide (m = 2) then (if leap_year y then 29 else 28)
  else if bool_decide (m ∈ [4; 6; 9; 11]) then 30 else 31.

(** The days from 1970-01-01 to the day [y]-[m]-[d] *)
Definition days_from_civil (y m d : Z) : Z :=
  let y' := if bool_decide (m <= 2) then y - 1 else y in
  let era := y' / 400 in
  let yoe := y' - era * 400 in
  let mp := (m + 9) mod 12 in
  let doy := (153 * mp + 2) / 5 + d - 1 in
  let doe := yoe * 365 + yoe / 4 - yoe / 100 + doy in
  era * 146097 + doe - 719468.

Definition date_text (y1 y2 y3 y4 m1 m2 d1 d2 : ascii) : option Z :=
  yh ← two_digits y1 y2; yl ← two_digits y3 y4;
  m ← two_digits m1 m2; d ← two_digits d1 d2;
  let y := 100 * yh + yl in
  if bool_decide (1 <= m <= 12) && bool_decide (1 <= d <= days_in_month y m)
  then Some (days_from_civil y m d * 86400) else None.

Definition time_text (h1 h2 m1 m2 s1 s2 : ascii) : option Z :=
  h ← two_digits h1 h2; m ← two_digits m1 m2; s ← two_digits s1 s2;
  if bool_decide (h <= 23) && bool_decide (m <= 59) && bool_decide (s <= 59)
  then Some (3600 * h + 60 * m + s) else None.

(** [YYYY-MM-DD], or [YYYY-MM-DD] and [HH:MM:SS] with [T] or a space
    between, with or without a final [Z]: the seconds from the epoch. *)
Definition timestamp_text (s : string) : option Z :=
  match String.list_ascii_of_string s with
  | y1 :: y2 :: y3 :: y4 :: "-"%char :: m1 :: m2 :: "-"%char :: d1 :: d2 :: rest =>
      day ← date_text y1 y2 y3 y4 m1 m2 d1 d2;
      match rest with
      | [] => Some day
      | sep :: h1 :: h2 :: ":"%char :: mi1 :: mi2 :: ":"%char :: s1 :: s2 :: z =>
          if bool_decide (sep ∈ ["T"; " "]%char) && bool_decide (z ∈ [[]; ["Z"%char]])
          then t ← time_text h1 h2 mi1 mi2 s1 s2; Some (day + t)
          else None
      | _ => None
      end
  | _ => None
  end.

(** A parameter read as [timestamptz]; the driver sends a [Date] as its
    ISO text. *)
Definition timestamp_of (p : JsVal) : option Z :=
  match p with
  | JStr s => timestamp_text s
  | JDate t => Some t
  | _ => None
  end.

Definition column_in (c : Column) (p : JsVal) : option JsVal :=
  match c with
  | aquariums_name | schedules_name | schedules_type | feeding_logs_actor => text_of p
  | schedules_enabled => JBool <$> boolean_of p
  | schedules_start_date | schedules_end_date => JDate <$> timestamp_of p
  | _ => num <$> integer_of p
  end.

Definition column_in_not_null c p v : column_in c p = Some v -> v <> JNull.
Proof.
  assert (Ht : forall w, text_of p = Some w -> w <> JNull).
  { intros w. unfold text_of.
    destruct p as [| |[]|[]| | | |]; try case_bool_decide; congruence. }
  assert (Hi : forall w, num <$> integer_of p = Some w -> w <> JNull).
  { intros w E. destruct (integer_of p); simplify_eq/=. discriminate. }
  destruct c; simpl; try apply Ht; try apply Hi;
    intros E; [destruct (boolean_of p) | destruct (timestamp_of p)..];
    simplify_eq/=; discriminate.
Qed.

Definition integer_eq_key cell p : integer_eq cell p = true -> integer_key p = true.
Proof.
  unfold integer_eq, integer_key. intros E.
  destruct (integer_of p) eqn:Ep.
  - rewrite bool_decide_eq_true_2 by eauto. apply orb_true_r.
  - destruct cell as [| | |[]| | | |]; discriminate.
Qed.

(** [SUM] over an integer column is a [bigint], which the driver hands back
    as its decimal text. *)
Definition bigint_out (cells : list JsVal) : JsVal :=
  JStr (pretty (foldr Z.add 0 ((fun v => default 0 (integer_of v)) <$> cells))).

Definition integer_keys : @Postgres integer_literals := {|
  key_in := integer_key;
  sql_eq := integer_eq;
  sql_eq_key_in := integer_eq_key;
  value_in := column_in;
  value_in_not_null := column_in_not_null;
  boolean_in := boolean_of;
  boolean_in_bool := fun _ => eq_refl;
  timestamp_in := timestamp_of;
  date_trunc_day := fun t => t / 86400 * 86400;
  sum_out := bigint_out;
  column_default := fun _ => JNull;
  admits_aquarium := fun _ a => negb (is_null (aq_user_id a)) && negb (is_null (aq_name a));
  admits_schedule := fun _ s => negb (is_null (sc_device_id s)) && negb (is_null (sc_type s));
  admits_feeding_log := fun _ l => negb (is_null (fl_device_id l));
  aquariums_order := fun l => l;
  aquariums_order_perm := fun _ => reflexivity _;
  schedules_order := fun l => l;
  schedules_order_perm := fun _ => reflexivity _
|}.

Definition empty_db : Db :=
  {| aquariums := []; schedules := []; feeding_logs := []; alerts := [];
     sensor_data := []; aquariums_seq := 1; schedules_seq := 1;
     feeding_logs_seq := 1 |}.

Definition request (id : string) (b : list (string * JsVal)) : Request :=
  {| params := {[ "id" := JStr id ]}; query := ∅; body := list_to_map b |}.

(** [{ user_id: 1, name: "Tank A", size_litres: 50 }] *)
Definition tank_a : Request :=
  request "" [("user_id", num 1); ("name", JStr "Tank A"); ("size_litres", num 50)].

(** [{ user_id: 0, name: "Tank A" }] *)
Definition tank_of_user_0 : Request :=
  request "" [("user_id", num 0); ("name", JStr "Tank A")].

(** [{ user_id: "abc", name: "Tank A" }] *)
Definition tank_of_user_abc : Request :=
  request "" [("user_id", JStr "abc"); ("name", JStr "Tank A")].

(** The request without the body field [k] *)
Definition without (k : string) (req : Request) : Request :=
  {| params := params req; query := query req; body := delete k (body req) |}.

(** [{ type: "interval", interval_hours: 0, enabled: false }] for aquarium 3 *)
Definition every_zero_hours : Request :=
  request "3" [("type", JStr "interval"); ("interval_hours", num 0);
               ("enabled", JBool false)].

(** [{ type: "interval", enabled: "maybe" }] for aquarium 3 *)
Definition maybe_enabled : Request :=
  request "3" [("type", JStr "interval"); ("enabled", JStr "maybe")].

(** [{ volume_grams: 0 }] for aquarium 3 *)
Definition feed_of_0_grams : Request := request "3" [("volume_grams", num 0)].

(** [{ volume_grams: -5, actor: "" }] for aquarium 3 *)
Definition feed_of_minus_5_grams : Request :=
  request "3" [("volume_grams", num (-5)); ("actor", JStr "")].

(** A request on [/aquariums/:id/feeding_settings/:settingId] *)
Definition setting_request (id settingId : string) : Request :=
  {| params := {[ "id" := JStr id; "settingId" := JStr settingId ]};
     query := ∅; body := ∅ |}.

(** Aquarium 3 with one schedule, 1, one open alert, 1, and one resolved
    alert, 2. *)
Definition tank_3 : Aquarium :=
  {| aq_id := num 3; aq_user_id := num 1; aq_name := JStr "Tank A";
     aq_size_litres := num 50; aq_created_at := 1000;
     aq_feeding_volume_grams := num 2; aq_feeding_period_hours := num 12 |}.

Definition schedule_1 : Schedule :=
  {| sc_id := num 1; sc_device_id := num 3; sc_name := JStr "morning";
     sc_type := JStr "interval"; sc_interval_hours := num 12;
     sc_feed_volume_grams := num 2; sc_enabled := JBool true;
     sc_start_date := JNull; sc_end_date := JNull |}.

Definition alert_1 : Alert :=
  {| al_id := num 1; al_device_id := num 3; al_ts := 2000;
     al_resolved := JBool false; al_resolved_at := None;
     al_others := {[ "message" := JStr "temperature high" ]} |}.

Definition alert_2 : Alert :=
  {| al_id := num 2; al_device_id := num 3; al_ts := 2500;
     al_resolved := JBool true; al_resolved_at := Some 2600;
     al_others := {[ "message" := JStr "ph low" ]} |}.

Definition one_tank : Db :=
  {| aquariums := [tank_3]; schedules := [schedule_1]; feeding_logs := [];
     alerts := [alert_1; alert_2]; sensor_data := []; aquariums_seq := 4;
     schedules_seq := 2; feeding_logs_seq := 1 |}.

(** [PUT /aquariums/3 { name: "Tank B", size_litres: "60" }] *)
Definition rename_tank_3 : Request :=
  request "3" [("name", JStr "Tank B"); ("size_litres", JStr "60")].

(** [PUT /aquariums/abc { name: "Tank B" }] *)
Definition rename_tank_abc : Request := request "abc" [("name", JStr "Tank B")].

(** [PUT /aquariums/4/feeding_settings { settingId: 1, enabled: false }]:
    schedule 1 is of aquarium 3 *)
Definition disable_1_in_tank_4 : Request :=
  request "4" [("settingId", num 1); ("enabled", JBool false)].

(** [PUT /aquariums/3/feeding_settings { settingId: 0, enabled: false }] *)
Definition disable_0_in_tank_3 : Request :=
  request "3" [("settingId", num 0); ("enabled", JBool false)].

(** [PUT /aquariums/3/alerts { alertId: 2, resolved: false }] *)
Definition reopen_alert_2 : Request :=
  request "3" [("alertId", num 2); ("resolved", JBool false)].

(** [PUT /aquariums/3/alerts { alertId: 1, resolved: "True" }] *)
Definition resolve_alert_1_capitalised : Request :=
  request "3" [("alertId", num 1); ("resolved", JStr "True")].

(** A request on [/aquariums/:id/condition-history?start=..&end=..] *)
Definition history_request (id start end_ : string) : Request :=
  {| params := {[ "id" := JStr id ]};
     query := {[ "start" := JStr start; "end" := JStr end_ ]};
     body := ∅ |}.

Definition reading (device ts : Z) : SensorReading :=
  {| sd_device_id := num device; sd_ts := ts;
     sd_others := {[ "temperature" := num 25 ]} |}.

Definition feed (id ts grams : Z) : FeedingLog :=
  {| fl_id := num id; fl_device_id := num 3; fl_ts := ts; fl_mode := "MANUAL";
     fl_volume_grams := num grams; fl_actor := JStr "user" |}.

(** Aquarium 3 with readings on 1970-01-01, on 1970-01-02 at 01:00 and at
    03:46:40 and on 1970-01-03 at 07:33:20, aquarium 4 with one on
    1970-01-02; feeds of 5 g and 3 g on 1970-01-01 and of 10 g on the next
    day. *)
Definition one_tank_log : Db :=
  {| aquariums := [tank_3]; schedules := [];
     feeding_logs := [feed 1 100 5; feed 2 200 3; feed 3 86500 10];
     alerts := [];
     sensor_data := [reading 3 100; reading 4 95000; reading 3 100000;
                     reading 3 200000; reading 3 90000];
     aquariums_seq := 4; schedules_seq := 1; feeding_logs_seq := 4 |}.

(** [PUT /aquariums/3/feeding_settings { settingId: 1, enabled: false }] *)
Definition disable_1_in_tank_3 : Request :=
  request "3" [("settingId", num 1); ("enabled", JBool false)].

(** [PUT /aquariums/3/alerts { alertId: 1, resolved: true }] *)
Definition resolve_alert_1 : Request :=
  request "3" [("alertId", num 1); ("resolved", JBool true)].

(** [PUT /aquariums/4/alerts { alertId: 1, resolved: true }]: alert 1 is
    of aquarium 3 *)
Definition resolve_alert_1_in_tank_4 : Request :=
  request "4" [("alertId", num 1); ("resolved", JBool true)].


(** A request on [/aquariums?user_id=..] *)
Definition list_request (user_id : string) : Request :=
  {| params := ∅; query := {[ "user_id" := JStr user_id ]}; body := ∅ |}.

(** ** What the properties speak of *)

(** No table of [db'] differs from that of [db]; a sequence may have
    advanced. *)
Definition same_tables (db db' : Db) : Prop :=
  aquariums db' = aquariums db /\ schedules db' = schedules db /\
  feeding_logs db' = feeding_logs db /\ alerts db' = alerts db /\
  sensor_data db' = sensor_data db.

(** [v === null || v === undefined] *)
Definition nullish (v : JsVal) : bool :=
  match v with
  | JNull | JUndefined => true
  | _ => false
  end.

Section Naming.
Context `{Postgres}.

(** The row [createAquarium] has the engine store: the values as their
    columns read them, the row admitted by the schema; none when the
    engine rejects the statement. *)
Definition created_aquarium (now : Z) (db : Db) (req : Request) : option Aquarium :=
  u ← write aquariums_user_id (prop (body req) "user_id");
  n ← write aquariums_name (prop (body req) "name");
  s ← write aquariums_size_litres (prop (body req) "size_litres");
  let a := new_aquarium now db u n s in
  if admits_aquarium db a then Some a else None.

(** The row [createFeedingSetting] has the engine store, none when the
    engine rejects the statement. *)
Definition created_schedule (db : Db) (req : Request) : option Schedule :=
  d ← write schedules_device_id (prop (params req) "id");
  n ← write schedules_name (js_or (prop (body req) "name") JNull);
  t ← write schedules_type (prop (body req) "type");
  i ← write schedules_interval_hours (js_or (prop (body req) "interval_hours") JNull);
  v ← write schedules_feed_volume_grams
        (js_or (prop (body req) "feed_volume_grams") JNull);
  e ← enabled_or_true (prop (body req) "enabled");
  sd ← write schedules_start_date (js_or (prop (body req) "start_date") JNull);
  ed ← write schedules_end_date (js_or (prop (body req) "end_date") JNull);
  let s := new_schedule db d n t i v e sd ed in
  if admits_schedule db s then Some s else None.

(** The row [triggerFeed] has the engine store, none when the engine
    rejects the statement. *)
Definition fed (now : Z) (db : Db) (req : Request) : option FeedingLog :=
  d ← write feeding_logs_device_id (prop (params req) "id");
  v ← write feeding_logs_volume_grams
        (js_or (toNumber (prop (body req) "volume_grams")) JNull);
  a ← write feeding_logs_actor (js_or (prop (body req) "actor") (JStr "user"));
  let l := new_feeding_log now db d v a in
  if admits_feeding_log db l then Some l else None.

(** The engine can read the body field [k] for column [c]: the field is
    absent or null, or the column reads its value. *)
Definition readable (c : Column) (o : gmap string JsVal) (k : string) : bool :=
  nullish (prop o k) || bool_decide (is_Some (value_in c (prop o k))).

(** The cell a partial update leaves in column [c]: the old one when the
    body has no field [k] or has it null, the value as the column reads it
    otherwise. *)
Definition merged (c : Column) (o : gmap string JsVal) (k : string)
    (old new : JsVal) : Prop :=
  if nullish (prop o k) then new = old else value_in c (prop o k) = Some new.

(** The cell of a field sent through [|| null]: the value as the column
    reads it when it is truthy, NULL otherwise. *)
Definition collapsed (c : Column) (v cell : JsVal) : Prop :=
  if ToBoolean v then value_in c v = Some cell else cell = JNull.

(** The engine can read an aquarium update: the path id as a key, and
    each of the four fields in its column. *)
Definition aquarium_update_read (req : Request) : bool :=
  key_in (pg_param (prop (params req) "id"))
  && readable aquariums_name (body req) "name"
  && readable aquariums_size_litres (body req) "size_litres"
  && readable aquariums_feeding_volume_grams (body req) "feeding_volume_grams"
  && readable aquariums_feeding_period_hours (body req) "feeding_period_hours".

(** [a'] is the aquarium [a] after a partial update: the four fields
    merged, the other columns kept. *)
Definition merged_aquarium (req : Request) (a a' : Aquarium) : Prop :=
  merged aquariums_name (body req) "name" (aq_name a) (aq_name a') /\
  merged aquariums_size_litres (body req) "size_litres"
    (aq_size_litres a) (aq_size_litres a') /\
  merged aquariums_feeding_volume_grams (body req) "feeding_volume_grams"
    (aq_feeding_volume_grams a) (aq_feeding_volume_grams a') /\
  merged aquariums_feeding_period_hours (body req) "feeding_period_hours"
    (aq_feeding_period_hours a) (aq_feeding_period_hours a') /\
  aq_id a' = aq_id a /\ aq_user_id a' = aq_user_id a /\
  aq_created_at a' = aq_created_at a.

(** The engine can read each of the seven fields of a schedule update in
    its column. *)
Definition schedule_update_read (req : Request) : bool :=
  readable schedules_name (body req) "name"
  && readable schedules_type (body req) "type"
  && readable schedules_interval_hours (body req) "interval_hours"
  && readable schedules_feed_volume_grams (body req) "feed_volume_grams"
  && readable schedules_enabled (body req) "enabled"
  && readable schedules_start_date (body req) "start_date"
  && readable schedules_end_date (body req) "end_date".

(** [s'] is the schedule [s] after a partial update: the seven fields
    merged, id and aquarium kept. *)
Definition merged_schedule (req : Request) (s s' : Schedule) : Prop :=
  merged schedules_name (body req) "name" (sc_name s) (sc_name s') /\
  merged schedules_type (body req) "type" (sc_type s) (sc_type s') /\
  merged schedules_interval_hours (body req) "interval_hours"
    (sc_interval_hours s) (sc_interval_hours s') /\
  merged schedules_feed_volume_grams (body req) "feed_volume_grams"
    (sc_feed_volume_grams s) (sc_feed_volume_grams s') /\
  merged schedules_enabled (body req) "enabled" (sc_enabled s) (sc_enabled s') /\
  merged schedules_start_date (body req) "start_date"
    (sc_start_date s) (sc_start_date s') /\
  merged schedules_end_date (body req) "end_date" (sc_end_date s) (sc_end_date s') /\
  sc_id s' = sc_id s /\ sc_device_id s' = sc_device_id s.

(** The path id names the aquarium. *)
Definition names_aquarium (id : JsVal) (a : Aquarium) : bool :=
  sql_eq (aq_id a) (pg_param id).

(** A reading is of the path's aquarium and within the bounds the query
    string gives, as the engine reads them. *)
Definition in_range (req : Request) (s : SensorReading) : bool :=
  let start := prop (query req) "start" in
  let end_ := prop (query req) "end" in
  sql_eq (sd_device_id s) (pg_param (prop (params req) "id"))
  && (if ToBoolean start
      then match timestamp_in start with
           | Some t => bool_decide (t <= sd_ts s)
           | None => false
           end
      else true)
  && (if ToBoolean end_
      then match timestamp_in end_ with
           | Some t => bool_decide (sd_ts s <= t)
           | None => false
           end
      else true).

(** The engine can read the parameters of the condition-history query:
    the path id as a key, and each bound given as a timestamp. *)
Definition history_read (req : Request) : bool :=
  let start := prop (query req) "start" in
  let end_ := prop (query req) "end" in
  key_in (pg_param (prop (params req) "id"))
  && (negb (ToBoolean start) || bool_decide (is_Some (timestamp_in start)))
  && (negb (ToBoolean end_) || bool_decide (is_Some (timestamp_in end_))).





(** [settingId] names no schedule. *)
Definition names_no_schedule (db : Db) (settingId : JsVal) : Prop :=
  forall s, s ∈ schedules db -> sql_eq (sc_id s) (pg_param settingId) = false.

(** [settingId] names a schedule, and one of another aquarium than
    [aquariumId]. *)
Definition names_schedule_of_another (db : Db) (settingId aquariumId : JsVal) : Prop :=
  (exists s, s ∈ schedules db /\ sql_eq (sc_id s) (pg_param settingId) = true) /\
  forall s, s ∈ schedules db -> sql_eq (sc_id s) (pg_param settingId) = true ->
            sql_eq (sc_device_id s) (pg_param aquariumId) = false.

(** The engine can read both ids of an ownership check. *)
Definition keys_read (id1 id2 : JsVal) : bool :=
  key_in (pg_param id1) && key_in (pg_param id2).

(** The alert [alertId] names is one of aquarium [aquariumId]: the
    ownership check finds a row. *)
Definition owns_alert (db : Db) (alertId aquariumId : JsVal) : Prop :=
  exists a, a ∈ alerts db /\ sql_eq (al_id a) (pg_param alertId) = true /\
            sql_eq (al_device_id a) (pg_param aquariumId) = true.

(** [resolved === true || resolved === 'true'] *)
Definition resolved_flag (resolved : JsVal) : bool :=
  js_strict_eq resolved (JBool true) || js_strict_eq resolved (JStr "true").

(** The schedule [settingId] names is one of aquarium [aquariumId]: the
    ownership check finds a row. *)
Definition owns_schedule (db : Db) (settingId aquariumId : JsVal) : Prop :=
  exists s, s ∈ schedules db /\ sql_eq (sc_id s) (pg_param settingId) = true /\
            sql_eq (sc_device_id s) (pg_param aquariumId) = true.

End Naming.

(** * Properties *)

(** ** Values *)

Lemma prop_lookup (o : gmap string JsVal) k v : o !! k = Some v -> prop o k = v.
Proof. unfold prop. by intros ->. Qed.

Lemma prop_missing (o : gmap string JsVal) k : o !! k = None -> prop o k = JUndefined.
Proof. unfold prop. by intros ->. Qed.

Lemma prop_delete_eq (o : gmap string JsVal) k : prop (delete k o) k = JUndefined.
Proof. unfold prop. by rewrite lookup_delete_eq. Qed.

Lemma pg_param_truthy v : ToBoolean v = true -> pg_param v = v.
Proof. by destruct v. Qed.

(** ** Parameters written to a column *)

Section Writing.
Context `{Postgres}.

Lemma write_nullish c p : nullish p = true -> write c p = Some JNull.
Proof. unfold write. by destruct p. Qed.

Lemma write_value c p : nullish p = false -> write c p = value_in c p.
Proof. unfold write. by destruct p. Qed.

Lemma write_truthy c p : ToBoolean p = true -> write c p = value_in c p.
Proof. intros Hp. apply write_value. by destruct p. Qed.

Lemma write_readable c (o : gmap string JsVal) k :
  is_Some (write c (prop o k)) <-> readable c o k = true.
Proof.
  unfold readable. destruct (nullish (prop o k)) eqn:E; simpl.
  - rewrite write_nullish by done. split; eauto.
  - rewrite write_value by done. by rewrite bool_decide_eq_true.
Qed.

Lemma write_merged c (o : gmap string JsVal) k v old :
  write c (prop o k) = Some v -> merged c o k old (COALESCE v old).
Proof.
  unfold merged. destruct (nullish (prop o k)) eqn:E.
  - rewrite write_nullish by done. by intros [= <-].
  - rewrite write_value by done. intros Hv. rewrite Hv.
    apply value_in_not_null in Hv. by destruct v.
Qed.

End Writing.

(** ** The rows answered *)

Lemma aquarium_row_columns a :
  let r := aquarium_row a in
  r !! "id" = Some (aq_id a) /\ r !! "user_id" = Some (aq_user_id a) /\
  r !! "name" = Some (aq_name a) /\ r !! "size_litres" = Some (aq_size_litres a) /\
  r !! "created_at" = Some (JDate (aq_created_at a)) /\
  r !! "feeding_volume_grams" = Some (aq_feeding_volume_grams a) /\
  r !! "feeding_period_hours" = Some (aq_feeding_period_hours a).
Proof. by repeat split. Qed.

Lemma alert_row_columns a :
  let r := alert_row a in
  r !! "id" = Some (al_id a) /\ r !! "device_id" = Some (al_device_id a) /\
  r !! "ts" = Some (JDate (al_ts a)) /\ r !! "resolved" = Some (al_resolved a) /\
  r !! "resolved_at" = Some (timestamp_cell (al_resolved_at a)) /\
  (forall k, k ∉ ["id"; "device_id"; "ts"; "resolved"; "resolved_at"] ->
             r !! k = al_others a !! k).
Proof.
  intros r. subst r. unfold alert_row. split_and!; [by simplify_map_eq..|].
  intros k Hk. rewrite !lookup_insert_ne; [done|..];
    intros <-; apply Hk; set_solver.
Qed.

Lemma sensor_row_columns s :
  let r := sensor_row s in
  r !! "device_id" = Some (sd_device_id s) /\ r !! "ts" = Some (JDate (sd_ts s)) /\
  (forall k, k ∉ ["device_id"; "ts"] -> r !! k = sd_others s !! k).
Proof.
  intros r. subst r. unfold sensor_row. split_and!; [by simplify_map_eq..|].
  intros k Hk. rewrite !lookup_insert_ne; [done|..];
    intros <-; apply Hk; set_solver.
Qed.

(** ** createAquarium *)

Section Creation.
Context `{Postgres}.

Lemma createAquarium_rejects now db req :
  ToBoolean (prop (body req) "user_id") = false \/
  ToBoolean (prop (body req) "name") = false ->
  createAquarium now db req = (error 400 "user_id and name required", db).
Proof.
  intros Hf. unfold createAquarium, js_not.
  destruct Hf as [-> | ->]; simpl; [done|].
  by rewrite orb_true_r.
Qed.

(** What [createAquarium] does with a request that passes its guard: the
    row the engine stores is added and answered, or the engine rejects the
    statement, the answer is 500 and no table changes. *)
Lemma createAquarium_passes now db req :
  ToBoolean (prop (body req) "user_id") = true ->
  ToBoolean (prop (body req) "name") = true ->
  match created_aquarium now db req with
  | Some a =>
      createAquarium now db req
      = ({| status := 201; json := Row (aquarium_created_row a) |},
         with_aquariums db (aquariums db ++ [a]) (aquariums_seq db + 1))
  | None =>
      (createAquarium now db req).1 = internal_error /\
      aquariums (createAquarium now db req).2 = aquariums db /\
      schedules (createAquarium now db req).2 = schedules db /\
      feeding_logs (createAquarium now db req).2 = feeding_logs db /\
      alerts (createAquarium now db req).2 = alerts db /\
      sensor_data (createAquarium now db req).2 = sensor_data db
  end.
Proof.
  intros Hu Hn. unfold createAquarium, js_not, created_aquarium, insert_aquarium.
  rewrite Hu, Hn. simpl.
  destruct (write aquariums_user_id _) as [u|]; simpl; [|done].
  destruct (write aquariums_name _) as [n|]; simpl; [|done].
  destruct (write aquariums_size_litres _) as [s|]; simpl; [|done].
  by destruct (admits_aquarium db _).
Qed.

(** C7, as the code has it: a request whose [user_id] or [name] is missing
    or falsy gets 400 and the store is left as it was.  A request in which
    both are truthy and which the engine accepts (it reads the three
    values in their columns and the schema admits the row) gets 201 with
    the created row, which carries the generated id, the creation time and
    the values as the columns read them; that row is the one row added to
    [aquariums].  A request in which both are truthy and which the engine
    rejects gets 500 [internal_error], and no row is added.  No other table
    changes. *)
Theorem createAquarium_validation now db req :
  let user_id := prop (body req) "user_id" in
  let name := prop (body req) "name" in
  let size_litres := prop (body req) "size_litres" in
  let res := (createAquarium now db req).1 in
  let db' := (createAquarium now db req).2 in
  (body req !! "user_id" = None \/ body req !! "name" = None \/
   ToBoolean user_id = false \/ ToBoolean name = false ->
   createAquarium now db req = (error 400 "user_id and name required", db)) /\
  (ToBoolean user_id = true -> ToBoolean name = true ->
   match created_aquarium now db req with
   | Some a =>
       exists row,
         res = {| status := 201; json := Row row |} /\
         row !! "id" = Some (generated_id (aquariums_seq db)) /\
         row !! "created_at" = Some (JDate (default_timestamp now)) /\
         row !! "user_id" = Some (aq_user_id a) /\
         value_in aquariums_user_id user_id = Some (aq_user_id a) /\
         row !! "name" = Some (aq_name a) /\
         value_in aquariums_name name = Some (aq_name a) /\
         row !! "size_litres" = Some (aq_size_litres a) /\
         (if nullish size_litres then aq_size_litres a = JNull
          else value_in aquariums_size_litres size_litres = Some (aq_size_litres a)) /\
         admits_aquarium db a = true /\
         aquariums db' = aquariums db ++ [a]
   | None =>
       res = internal_error /\ aquariums db' = aquariums db /\
       (value_in aquariums_user_id user_id = None \/
        value_in aquariums_name name = None \/
        (nullish size_litres = false /\
         value_in aquariums_size_litres size_litres = None) \/
        exists a, admits_aquarium db a = false /\
                  aq_id a = generated_id (aquariums_seq db))
   end /\
   schedules db' = schedules db /\ feeding_logs db' = feeding_logs db /\
   alerts db' = alerts db /\ sensor_data db' = sensor_data db).
Proof.
  cbv zeta. split.
  - intros Hm. apply createAquarium_rejects.
    destruct Hm as [Hm | [Hm | [Hm | Hm]]]; auto.
    + left. by rewrite (prop_missing _ _ Hm).
    + right. by rewrite (prop_missing _ _ Hm).
  - intros Hu Hn. pose proof (createAquarium_passes now db req Hu Hn) as Hc.
    unfold created_aquarium in *.
    rewrite (write_truthy _ _ Hu), (write_truthy _ _ Hn) in *.
    destruct (value_in aquariums_user_id _) as [u|] eqn:Eu; simpl in *;
      [|destruct Hc as (-> & -> & -> & -> & -> & ->); split_and!; auto].
    destruct (value_in aquariums_name _) as [n|] eqn:En; simpl in *;
      [|destruct Hc as (-> & -> & -> & -> & -> & ->); split_and!; auto].
    destruct (write aquariums_size_litres _) as [s|] eqn:Es; simpl in *.
    2: { destruct Hc as (-> & -> & -> & -> & -> & ->); split_and!; auto.
         right; right; left. destruct (nullish (prop (body req) "size_litres")) eqn:E.
         - by rewrite write_nullish in Es.
         - by rewrite write_value in Es. }
    destruct (admits_aquarium db (new_aquarium now db u n s)) eqn:Ea.
    + rewrite Hc. simpl. split_and!; try done.
      eexists. split_and!; try done. simpl.
      destruct (nullish (prop (body req) "size_litres")) eqn:E.
      * rewrite write_nullish in Es by done. by injection Es as <-.
      * by rewrite write_value in Es.
    + destruct Hc as (-> & -> & -> & -> & -> & ->); split_and!; auto.
      right; right; right. by eexists.
Qed.

(** C8: a [user_id] of 0 or of the empty string, and a [name] of the empty
    string, are present and yet answered 400 with the store unchanged, the
    very answer the request gets with that field taken out of the body. *)
Theorem createAquarium_falsy_as_absent now db req :
  (body req !! "user_id" = Some (num 0) \/ body req !! "user_id" = Some (JStr "") \/
   body req !! "name" = Some (JStr "") ->
   createAquarium now db req = (error 400 "user_id and name required", db)) /\
  (body req !! "user_id" = Some (num 0) \/ body req !! "user_id" = Some (JStr "") ->
   createAquarium now db req = createAquarium now db (without "user_id" req)) /\
  (body req !! "name" = Some (JStr "") ->
   createAquarium now db req = createAquarium now db (without "name" req)).
Proof.
  assert (Hu : body req !! "user_id" = Some (num 0) \/
               body req !! "user_id" = Some (JStr "") ->
               ToBoolean (prop (body req) "user_id") = false).
  { intros [Hp | Hp]; by rewrite (prop_lookup _ _ _ Hp). }
  assert (Hn : body req !! "name" = Some (JStr "") ->
               ToBoolean (prop (body req) "name") = false).
  { intros Hp. by rewrite (prop_lookup _ _ _ Hp). }
  split; [|split].
  - intros [Hp | [Hp | Hp]]; apply createAquarium_rejects; auto.
  - intros Hp. rewrite !createAquarium_rejects; auto.
    left. simpl. by rewrite prop_delete_eq.
  - intros Hp. rewrite !createAquarium_rejects; auto.
    right. simpl. by rewrite prop_delete_eq.
Qed.

End Creation.

(** ** createFeedingSetting *)

Lemma same_tables_refl db : same_tables db db.
Proof. by repeat split. Qed.

Section Settings.
Context `{Postgres}.

Lemma write_collapsed c v cell :
  write c (js_or v JNull) = Some cell -> collapsed c v cell.
Proof.
  unfold collapsed, js_or. destruct (ToBoolean v) eqn:E.
  - by rewrite write_truthy.
  - rewrite write_nullish by done. by intros [= <-].
Qed.

Lemma created_schedule_Some db req s :
  created_schedule db req = Some s ->
  exists d n t i v e sd ed,
    write schedules_device_id (prop (params req) "id") = Some d /\
    write schedules_name (js_or (prop (body req) "name") JNull) = Some n /\
    write schedules_type (prop (body req) "type") = Some t /\
    write schedules_interval_hours (js_or (prop (body req) "interval_hours") JNull)
      = Some i /\
    write schedules_feed_volume_grams
      (js_or (prop (body req) "feed_volume_grams") JNull) = Some v /\
    enabled_or_true (prop (body req) "enabled") = Some e /\
    write schedules_start_date (js_or (prop (body req) "start_date") JNull) = Some sd /\
    write schedules_end_date (js_or (prop (body req) "end_date") JNull) = Some ed /\
    admits_schedule db s = true /\
    s = new_schedule db d n t i v e sd ed.
Proof.
  unfold created_schedule. intros Hs.
  destruct (write schedules_device_id _) as [d|]; simpl in Hs; [|done].
  destruct (write schedules_name _) as [n|]; simpl in Hs; [|done].
  destruct (write schedules_type _) as [t|]; simpl in Hs; [|done].
  destruct (write schedules_interval_hours _) as [i|]; simpl in Hs; [|done].
  destruct (write schedules_feed_volume_grams _) as [v|]; simpl in Hs; [|done].
  destruct (enabled_or_true _) as [e|]; simpl in Hs; [|done].
  destruct (write schedules_start_date _) as [sd|]; simpl in Hs; [|done].
  destruct (write schedules_end_date _) as [ed|]; simpl in Hs; [|done].
  destruct (admits_schedule db _) eqn:Ea; [|done].
  injection Hs as <-. by eexists d, n, t, i, v, e, sd, ed.
Qed.

(** What [createFeedingSetting] does with a request that passes its
    guard. *)
Lemma createFeedingSetting_passes db req :
  ToBoolean (prop (body req) "type") = true ->
  match created_schedule db req with
  | Some s =>
      createFeedingSetting db req
      = ({| status := 201; json := Row (schedule_row s) |},
         with_schedules db (schedules db ++ [s]) (schedules_seq db + 1))
  | None =>
      (createFeedingSetting db req).1 = internal_error /\
      same_tables db (createFeedingSetting db req).2
  end.
Proof.
  intros Ht. unfold createFeedingSetting, js_not, created_schedule, insert_schedule.
  rewrite Ht. simpl.
  destruct (write schedules_device_id _) as [d|]; simpl;
    [|split; [done | apply same_tables_refl]].
  destruct (write schedules_name _) as [n|]; simpl;
    [|split; [done | apply same_tables_refl]].
  destruct (write schedules_type _) as [t|]; simpl;
    [|split; [done | apply same_tables_refl]].
  destruct (write schedules_interval_hours _) as [i|]; simpl;
    [|split; [done | apply same_tables_refl]].
  destruct (write schedules_feed_volume_grams _) as [v|]; simpl;
    [|split; [done | apply same_tables_refl]].
  destruct (enabled_or_true _) as [e|]; simpl;
    [|split; [done | apply same_tables_refl]].
  destruct (write schedules_start_date _) as [sd|]; simpl;
    [|split; [done | apply same_tables_refl]].
  destruct (write schedules_end_date _) as [ed|]; simpl;
    [|split; [done | apply same_tables_refl]].
  destruct (admits_schedule db _); [done|].
  split; [done | by repeat split].
Qed.

Lemma createFeedingSetting_rejects db req :
  ToBoolean (prop (body req) "type") = false ->
  createFeedingSetting db req
  = (error 400 "type required (interval|daily_times)", db).
Proof. intros Ht. unfold createFeedingSetting, js_not. by rewrite Ht. Qed.

(** C10: for a request whose [type] is truthy and which the engine
    accepts, one schedule is stored and answered with 201; its [name],
    [interval_hours], [feed_volume_grams], [start_date] and [end_date] are
    the values as their columns read them when truthy and NULL otherwise,
    so that a 0 sent is stored as NULL; [enabled] is [true] when null or
    absent and the boolean the engine reads otherwise, so that its [false]
    is kept.  A request the engine rejects is answered 500 and no table
    changes. *)
Theorem createFeedingSetting_falsy_to_null db req :
  let sent k := prop (body req) k in
  let res := (createFeedingSetting db req).1 in
  let db' := (createFeedingSetting db req).2 in
  ToBoolean (sent "type") = true ->
  match created_schedule db req with
  | Some s =>
      exists row,
        res = {| status := 201; json := Row row |} /\
        schedules db' = schedules db ++ [s] /\
        row !! "name" = Some (sc_name s) /\
        row !! "interval_hours" = Some (sc_interval_hours s) /\
        row !! "feed_volume_grams" = Some (sc_feed_volume_grams s) /\
        row !! "enabled" = Some (sc_enabled s) /\
        row !! "start_date" = Some (sc_start_date s) /\
        row !! "end_date" = Some (sc_end_date s) /\
        collapsed schedules_name (sent "name") (sc_name s) /\
        collapsed schedules_interval_hours (sent "interval_hours")
          (sc_interval_hours s) /\
        collapsed schedules_feed_volume_grams (sent "feed_volume_grams")
          (sc_feed_volume_grams s) /\
        collapsed schedules_start_date (sent "start_date") (sc_start_date s) /\
        collapsed schedules_end_date (sent "end_date") (sc_end_date s) /\
        (sent "interval_hours" = num 0 -> sc_interval_hours s = JNull) /\
        (sent "feed_volume_grams" = num 0 -> sc_feed_volume_grams s = JNull) /\
        (sent "enabled" = JBool false -> sc_enabled s = JBool false) /\
        (sent "enabled" = JNull \/ body req !! "enabled" = None ->
         sc_enabled s = JBool true) /\
        (sent "enabled" <> JNull -> sent "enabled" <> JUndefined ->
         exists b, boolean_in (sent "enabled") = Some b /\ sc_enabled s = JBool b)
  | None => res = internal_error /\ same_tables db db'
  end /\
  (forall c v cell, v = JBool false \/ v = num 0 \/ v = JStr "" ->
                    collapsed c v cell -> cell = JNull) /\
  (sent "enabled" <> JNull -> sent "enabled" <> JUndefined ->
   boolean_in (sent "enabled") = None -> created_schedule db req = None).
Proof.
  cbv zeta. intros Ht.
  pose proof (createFeedingSetting_passes db req Ht) as Hc.
  split_and!.
  - destruct (created_schedule db req) as [s|] eqn:Es; [|done].
    rewrite Hc. simpl.
    apply created_schedule_Some in Es
      as (d & n & t & i & v & e & sd & ed & Hd & Hn & Hty & Hi & Hv & He & Hsd
          & Hed & Ha & ->).
    apply write_collapsed in Hn, Hi, Hv, Hsd, Hed.
    eexists. split_and!; try done; simpl.
    + intros E. rewrite E in Hi. done.
    + intros E. rewrite E in Hv. done.
    + intros E. rewrite E in He. unfold enabled_or_true in He. simpl in He.
      rewrite boolean_in_bool in He. by injection He as <-.
    + intros [E | E]; [|apply prop_missing in E]; rewrite E in He;
        by injection He as <-.
    + intros Hn1 Hn2. unfold enabled_or_true in He.
      destruct (prop (body req) "enabled") eqn:E; try done; simpl in He;
        (destruct (boolean_in _) as [x|]; [|done]); injection He as <-; eauto.
  - intros c v cell [-> | [-> | ->]]; by unfold collapsed.
  - intros Hn1 Hn2 Hb. unfold created_schedule.
    destruct (write schedules_device_id _) as [d|]; simpl; [|done].
    destruct (write schedules_name _) as [n|]; simpl; [|done].
    destruct (write schedules_type _) as [t|]; simpl; [|done].
    destruct (write schedules_interval_hours _) as [i|]; simpl; [|done].
    destruct (write schedules_feed_volume_grams _) as [v|]; simpl; [|done].
    unfold enabled_or_true.
    destruct (prop (body req) "enabled") eqn:E; try done; simpl;
      simpl in Hb; by rewrite Hb.
Qed.

(** X21: whether a request is stored turns on its [type] being truthy and
    on the engine alone: a falsy [type] is answered 400 and nothing is
    stored; a truthy one is answered 201 when the engine accepts the row
    and 500 when it rejects it.  The handler makes no test on the value of
    [type]: the row stored has it as its column reads it, and has the path
    id as the [device_id] column reads it. *)
Theorem createFeedingSetting_type db req :
  let type := prop (body req) "type" in
  let res := (createFeedingSetting db req).1 in
  let db' := (createFeedingSetting db req).2 in
  (ToBoolean type = false ->
   createFeedingSetting db req
   = (error 400 "type required (interval|daily_times)", db)) /\
  (ToBoolean type = true ->
   (status res = 201%nat <-> is_Some (created_schedule db req)) /\
   (status res = 500%nat <-> created_schedule db req = None) /\
   (created_schedule db req = None -> res = internal_error /\ same_tables db db') /\
   (forall s, created_schedule db req = Some s ->
      res = {| status := 201; json := Row (schedule_row s) |} /\
      schedule_row s !! "type" = Some (sc_type s) /\
      schedule_row s !! "device_id" = Some (sc_device_id s) /\
      schedule_row s !! "id" = Some (generated_id (schedules_seq db)) /\
      value_in schedules_type type = Some (sc_type s) /\
      write schedules_device_id (prop (params req) "id") = Some (sc_device_id s) /\
      admits_schedule db s = true /\
      schedules db' = schedules db ++ [s])).
Proof.
  cbv zeta. split; [apply createFeedingSetting_rejects|].
  intros Ht. pose proof (createFeedingSetting_passes db req Ht) as Hc.
  destruct (created_schedule db req) as [s|] eqn:Es.
  - rewrite Hc. simpl. split; [split; eauto|]. do 2 (split; [done|]).
    intros s' [= <-].
    apply created_schedule_Some in Es
      as (d & n & t & i & v & e & sd & ed & Hd & Hn & Hty & Hi & Hv & He & Hsd
          & Hed & Ha & ->).
    rewrite write_truthy in Hty by done. by split_and!.
  - destruct Hc as [-> Hs]. simpl. split_and!; try done.
Qed.

End Settings.

(** ** triggerFeed *)

Section TriggerFeed.
Context `{Postgres}.

Lemma toNumber_number v :
  v <> JNull -> v <> JUndefined -> toNumber v = JNum (Number v).
Proof. by destruct v. Qed.

Lemma stored_volume v :
  js_or (toNumber v) JNull =
    if nullish v then JNull
    else match Number v with
         | Fin q => if bool_decide (q = 0%Qc) then JNull else JNum (Fin q)
         | Inf s => JNum (Inf s)
         | NaN => JNull
         end.
Proof.
  destruct (nullish v) eqn:N; [by destruct v|].
  rewrite toNumber_number by (by intros ->).
  unfold js_or. destruct (Number v) as [q | |]; simpl; try done.
  by case_bool_decide.
Qed.

Lemma fed_Some now db req l :
  fed now db req = Some l ->
  exists d v a,
    write feeding_logs_device_id (prop (params req) "id") = Some d /\
    write feeding_logs_volume_grams
      (js_or (toNumber (prop (body req) "volume_grams")) JNull) = Some v /\
    write feeding_logs_actor (js_or (prop (body req) "actor") (JStr "user")) = Some a /\
    admits_feeding_log db l = true /\
    l = new_feeding_log now db d v a.
Proof.
  unfold fed. intros Hl.
  destruct (write feeding_logs_device_id _) as [d|]; simpl in Hl; [|done].
  destruct (write feeding_logs_volume_grams _) as [v|]; simpl in Hl; [|done].
  destruct (write feeding_logs_actor _) as [a|]; simpl in Hl; [|done].
  destruct (admits_feeding_log db _) eqn:Ea; [|done].
  injection Hl as <-. by eexists d, v, a.
Qed.

(** What [triggerFeed] does: the row the engine stores is added and
    answered, or the engine rejects the statement, the answer is 500 and no
    table changes. *)
Lemma triggerFeed_inserts now db req :
  match fed now db req with
  | Some l =>
      triggerFeed now db req
      = ({| status := 201; json := Feeding (Row (feeding_log_row l)) |},
         with_feeding_logs db (feeding_logs db ++ [l]) (feeding_logs_seq db + 1))
  | None =>
      (triggerFeed now db req).1 = internal_error /\
      same_tables db (triggerFeed now db req).2
  end.
Proof.
  unfold triggerFeed, fed, insert_feeding_log.
  destruct (write feeding_logs_device_id _) as [d|]; simpl;
    [|split; [done | apply same_tables_refl]].
  destruct (write feeding_logs_volume_grams _) as [v|]; simpl;
    [|split; [done | apply same_tables_refl]].
  destruct (write feeding_logs_actor _) as [a|]; simpl;
    [|split; [done | apply same_tables_refl]].
  destruct (admits_feeding_log db _); [done|].
  split; [done | by repeat split].
Qed.

(** C4, as the code has it: when the engine accepts the statement one log
    row is added, with mode MANUAL, the generated id and the creation
    time, and returned with 201; its [device_id] is the path id as the
    column reads it; its actor is the body's [actor] when that is truthy
    and ['user'] otherwise, as the column reads it; its [volume_grams] is
    NULL when the value sent is null or absent or converts to 0 or NaN,
    and is the number it converts to, as the column reads it, otherwise, a
    negative number included.  When the engine rejects the statement the
    answer is 500 and no row is added. *)
Theorem triggerFeed_log now db req :
  let sent := prop (body req) "volume_grams" in
  let actor := prop (body req) "actor" in
  let res := (triggerFeed now db req).1 in
  let db' := (triggerFeed now db req).2 in
  match fed now db req with
  | Some l =>
      exists row,
        res = {| status := 201; json := Feeding (Row row) |} /\
        feeding_logs db' = feeding_logs db ++ [l] /\
        row !! "id" = Some (generated_id (feeding_logs_seq db)) /\
        row !! "ts" = Some (JDate (default_timestamp now)) /\
        row !! "mode" = Some (JStr "MANUAL") /\
        row !! "device_id" = Some (fl_device_id l) /\
        row !! "volume_grams" = Some (fl_volume_grams l) /\
        row !! "actor" = Some (fl_actor l) /\
        fl_mode l = "MANUAL" /\
        write feeding_logs_device_id (prop (params req) "id") = Some (fl_device_id l) /\
        value_in feeding_logs_actor (if ToBoolean actor then actor else JStr "user")
          = Some (fl_actor l) /\
        (sent = JNull \/ sent = JUndefined \/ Number sent = Fin 0%Qc \/
         Number sent = NaN -> fl_volume_grams l = JNull) /\
        (sent <> JNull -> sent <> JUndefined ->
         Number sent <> Fin 0%Qc -> Number sent <> NaN ->
         value_in feeding_logs_volume_grams (JNum (Number sent))
           = Some (fl_volume_grams l) /\
         fl_volume_grams l <> JNull) /\
        (forall q, sent = JNum (Fin q) -> (q < 0)%Qc ->
         value_in feeding_logs_volume_grams (JNum (Fin q))
           = Some (fl_volume_grams l) /\
         fl_volume_grams l <> JNull) /\
        admits_feeding_log db l = true
  | None => res = internal_error /\ feeding_logs db' = feeding_logs db
  end /\
  aquariums db' = aquariums db /\ schedules db' = schedules db /\
  alerts db' = alerts db /\ sensor_data db' = sensor_data db.
Proof.
  cbv zeta. pose proof (triggerFeed_inserts now db req) as Hc.
  destruct (fed now db req) as [l|] eqn:El.
  2: { destruct Hc as (-> & ? & ? & ? & ? & ?). by split_and!. }
  rewrite Hc. simpl. split_and!; try done.
  apply fed_Some in El as (d & v & a & Hd & Hv & Ha & Hadm & ->).
  rewrite stored_volume in Hv.
  eexists. split_and!; try done; simpl.
  - unfold js_or in Ha. destruct (ToBoolean (prop (body req) "actor")) eqn:E.
    + by rewrite write_truthy in Ha.
    + by rewrite write_truthy in Ha.
  - intros Hs. rewrite write_nullish in Hv; [by injection Hv as <-|].
    destruct Hs as [-> | [-> | [Hz | Hz]]]; try done;
      destruct (nullish _); try done; by rewrite Hz.
  - intros Hn Hu Hz Hnan.
    assert (nullish (prop (body req) "volume_grams") = false) as N
      by (by destruct (prop (body req) "volume_grams")).
    rewrite N in Hv.
    assert (write feeding_logs_volume_grams
              (JNum (Number (prop (body req) "volume_grams"))) = Some v) as Hw.
    { rewrite <- Hv. f_equal.
      destruct (Number _) as [q | |]; try done.
      case_bool_decide; [|done]. by subst q. }
    rewrite write_value in Hw by done. split; [done|].
    by apply value_in_not_null in Hw.
  - intros q Hq Hneg. rewrite Hq in Hv. simpl in Hv.
    rewrite bool_decide_eq_false_2 in Hv
      by (intros ->; by apply Qclt_not_eq in Hneg).
    rewrite write_value in Hv by done. split; [done|].
    by apply value_in_not_null in Hv.
Qed.

End TriggerFeed.

(** ** Statements with a [WHERE] clause *)

Lemma filter_no_hit {A} (hit : A -> bool) (l : list A) :
  (forall x, x ∈ l -> hit x = false) -> List.filter hit l = [].
Proof.
  induction l as [| x l IH]; intros Hl; [done|]. simpl.
  rewrite (Hl x) by apply list_elem_of_here.
  apply IH. intros y Hy. apply Hl. by apply list_elem_of_further.
Qed.

Lemma filter_nil_no_hit {A} (hit : A -> bool) (l : list A) :
  List.filter hit l = [] -> forall x, x ∈ l -> hit x = false.
Proof.
  induction l as [| x l IH]; intros Hf y Hy; [by apply elem_of_nil in Hy|].
  simpl in Hf. destruct (hit x) eqn:E; [done|].
  apply elem_of_cons in Hy as [-> | Hy]; auto.
Qed.

Lemma update_no_hit {A} (hit : A -> bool) (f : A -> A) (l : list A) :
  (forall x, x ∈ l -> hit x = false) ->
  (fun x => if hit x then f x else x) <$> l = l.
Proof.
  induction l as [| x l IH]; intros Hl; [done|]. simpl.
  rewrite (Hl x) by apply list_elem_of_here. f_equal.
  apply IH. intros y Hy. apply Hl. by apply list_elem_of_further.
Qed.

Lemma update_rows {A} (hit : A -> bool) (f : A -> A) (l : list A) :
  Forall2 (fun x x' => if hit x then x' = f x else x' = x) l
    ((fun x => if hit x then f x else x) <$> l).
Proof.
  induction l as [| x l IH]; simpl; constructor; [|done].
  by destruct (hit x).
Qed.

Lemma update_then_update {A} (hit : A -> bool) (f g : A -> A) (l : list A) :
  (forall x, hit (f x) = hit x) ->
  (fun x => if hit x then g x else x) <$> ((fun x => if hit x then f x else x) <$> l)
  = (fun x => if hit x then g (f x) else x) <$> l.
Proof.
  intros Hf. rewrite <- list_fmap_compose. apply list_fmap_ext.
  intros _ x _. simpl. destruct (hit x) eqn:E; [by rewrite Hf, E | by rewrite E].
Qed.

Lemma filter_updated {A} (hit : A -> bool) (f : A -> A) (l : list A) :
  (forall x, hit (f x) = hit x) ->
  List.filter hit ((fun x => if hit x then f x else x) <$> l)
  = f <$> List.filter hit l.
Proof.
  intros Hf. induction l as [| x l IH]; [done|].
  rewrite fmap_cons. simpl List.filter. destruct (hit x) eqn:E.
  - rewrite Hf, E, fmap_cons. by f_equal.
  - by rewrite E.
Qed.

Lemma rowCount_fmap_0 {A B} (f : A -> B) (l : list A) :
  rowCount (f <$> l) = 0%nat <-> l = [].
Proof. unfold rowCount. rewrite length_fmap. by destruct l. Qed.

Lemma with_aquariums_same db : with_aquariums db (aquariums db) (aquariums_seq db) = db.
Proof. by destruct db. Qed.

Lemma elem_of_List_filter {A} (f : A -> bool) (l : list A) x :
  x ∈ List.filter f l <-> x ∈ l /\ f x = true.
Proof. rewrite !list_elem_of_In. apply List.filter_In. Qed.

Lemma filter_all {A} (l : list A) : List.filter (fun _ => true) l = l.
Proof. induction l as [| x l IH]; simpl; by f_equal. Qed.

Lemma sublist_List_filter {A} (f : A -> bool) (l : list A) :
  List.filter f l `sublist_of` l.
Proof. induction l as [| x l IH]; simpl; [done|]. destruct (f x); by constructor. Qed.

Lemma no_hit_iff_filter_nil {A} (hit : A -> bool) (l : list A) :
  List.filter hit l = [] <-> forall x, x ∈ l -> hit x = false.
Proof. split; [apply filter_nil_no_hit | apply filter_no_hit]. Qed.

Lemma filter_negb_no_hit {A} (hit : A -> bool) (l : list A) :
  (forall x, x ∈ l -> hit x = false) -> List.filter (fun x => negb (hit x)) l = l.
Proof.
  induction l as [| x l IH]; intros Hl; [done|]. simpl.
  rewrite (Hl x) by apply list_elem_of_here. simpl. f_equal.
  apply IH. intros y Hy. apply Hl. by apply list_elem_of_further.
Qed.

Lemma COALESCE_again v old : COALESCE v (COALESCE v old) = COALESCE v old.
Proof. by destruct v. Qed.

Section Updates.
Context `{Postgres}.

(** ** updateAquarium *)

Lemma set_aquarium_again n s v h a :
  set_aquarium n s v h (set_aquarium n s v h a) = set_aquarium n s v h a.
Proof. unfold set_aquarium. simpl. by rewrite !COALESCE_again. Qed.

Lemma set_aquarium_nothing a : set_aquarium JNull JNull JNull JNull a = a.
Proof. by destruct a. Qed.

(** An update the engine reads: the rows named are set and answered. *)
Lemma updateAquarium_read db req n s v h :
  let named := names_aquarium (prop (params req) "id") in
  let set := set_aquarium n s v h in
  let rows := aquarium_row <$> (set <$> List.filter named (aquariums db)) in
  key_in (pg_param (prop (params req) "id")) = true ->
  write aquariums_name (prop (body req) "name") = Some n ->
  write aquariums_size_litres (prop (body req) "size_litres") = Some s ->
  write aquariums_feeding_volume_grams (prop (body req) "feeding_volume_grams")
    = Some v ->
  write aquariums_feeding_period_hours (prop (body req) "feeding_period_hours")
    = Some h ->
  updateAquarium db req =
    (if bool_decide (rowCount rows = 0%nat) then error 404 "not_found"
     else {| status := 200; json := first_row rows |},
     with_aquariums db ((fun a => if named a then set a else a) <$> aquariums db)
       (aquariums_seq db)).
Proof.
  intros named set rows Hk Hn Hs Hv Hh. subst rows.
  unfold updateAquarium, update_aquariums. rewrite Hk, Hn, Hs, Hv, Hh. simpl.
  fold (names_aquarium (prop (params req) "id")). fold named set.
  by destruct (bool_decide _).
Qed.

(** An update the engine does not read is answered 500. *)
Lemma updateAquarium_unread db req :
  key_in (pg_param (prop (params req) "id")) = false \/
  write aquariums_name (prop (body req) "name") = None \/
  write aquariums_size_litres (prop (body req) "size_litres") = None \/
  write aquariums_feeding_volume_grams (prop (body req) "feeding_volume_grams")
    = None \/
  write aquariums_feeding_period_hours (prop (body req) "feeding_period_hours")
    = None ->
  updateAquarium db req = (internal_error, db).
Proof.
  intros Hu. unfold updateAquarium, update_aquariums.
  destruct (key_in _); [|done].
  destruct (write aquariums_name _); simpl; [|done].
  destruct (write aquariums_size_litres _); simpl; [|done].
  destruct (write aquariums_feeding_volume_grams _); simpl; [|done].
  destruct (write aquariums_feeding_period_hours _); simpl; [|done].
  by destruct Hu as [? | [? | [? | [? | ?]]]].
Qed.

Lemma aquarium_update_read_true req :
  aquarium_update_read req = true <->
  key_in (pg_param (prop (params req) "id")) = true /\
  is_Some (write aquariums_name (prop (body req) "name")) /\
  is_Some (write aquariums_size_litres (prop (body req) "size_litres")) /\
  is_Some (write aquariums_feeding_volume_grams
             (prop (body req) "feeding_volume_grams")) /\
  is_Some (write aquariums_feeding_period_hours
             (prop (body req) "feeding_period_hours")).
Proof.
  unfold aquarium_update_read. rewrite !andb_true_iff, !write_readable. tauto.
Qed.

Lemma updateAquarium_not_read db req :
  aquarium_update_read req = false -> updateAquarium db req = (internal_error, db).
Proof.
  intros Er. apply updateAquarium_unread.
  destruct (key_in (pg_param (prop (params req) "id"))) eqn:Hk; [|by left].
  right.
  destruct (write aquariums_name _) as [n|] eqn:Hn; [|by left].
  right.
  destruct (write aquariums_size_litres _) as [s|] eqn:Hs; [|by left].
  right.
  destruct (write aquariums_feeding_volume_grams _) as [v|] eqn:Hv; [|by left].
  right.
  destruct (write aquariums_feeding_period_hours _) as [h|] eqn:Hh; [|done].
  assert (aquarium_update_read req = true); [|congruence].
  apply aquarium_update_read_true. rewrite Hn, Hs, Hv, Hh. eauto 10.
Qed.

Lemma set_aquarium_merged req n s v h a :
  write aquariums_name (prop (body req) "name") = Some n ->
  write aquariums_size_litres (prop (body req) "size_litres") = Some s ->
  write aquariums_feeding_volume_grams (prop (body req) "feeding_volume_grams")
    = Some v ->
  write aquariums_feeding_period_hours (prop (body req) "feeding_period_hours")
    = Some h ->
  merged_aquarium req a (set_aquarium n s v h a).
Proof.
  intros Hn Hs Hv Hh. unfold merged_aquarium. simpl.
  split_and!; try done; by apply write_merged.
Qed.

Lemma merged_kept c (o : gmap string JsVal) k old new :
  o !! k = None \/ o !! k = Some JNull -> merged c o k old new -> new = old.
Proof. unfold merged, prop. by intros [-> | ->]. Qed.

Lemma merged_taken c (o : gmap string JsVal) k old new v :
  o !! k = Some v -> v <> JNull -> v <> JUndefined ->
  merged c o k old new -> value_in c v = Some new /\ new <> JNull.
Proof.
  unfold merged, prop. intros -> Hn Hu. simpl.
  destruct v; try done; intros Hv; (split; [done|]);
    by apply value_in_not_null in Hv.
Qed.

(** C2, as the code has it.  An update the engine cannot read, that is
    one whose path id is no key or that sends a value its column rejects,
    is answered 500 and the store is left as it was.  Of an update the
    engine reads: every aquarium the path id names comes out with each of
    the four fields merged (the old value when the body lacks the field or
    has it null, the value as the column reads it otherwise) and its other
    columns as they were; the other aquariums and the other tables are as
    they were; the answer is the first such row with 200, and when the id
    names no aquarium the answer is 404 and the store is unchanged. *)
Theorem updateAquarium_partial db req :
  let named a := sql_eq (aq_id a) (pg_param (prop (params req) "id")) in
  let res := (updateAquarium db req).1 in
  let db' := (updateAquarium db req).2 in
  (aquarium_update_read req = false ->
   updateAquarium db req = (internal_error, db)) /\
  (aquarium_update_read req = true ->
   Forall2 (fun a a' => if named a then merged_aquarium req a a' else a' = a)
     (aquariums db) (aquariums db') /\
   ((forall a, a ∈ aquariums db -> named a = false) ->
    updateAquarium db req = (error 404 "not_found", db)) /\
   (forall a, head (List.filter named (aquariums db)) = Some a ->
    exists a' row,
      res = {| status := 200; json := Row row |} /\
      merged_aquarium req a a' /\
      row !! "id" = Some (aq_id a) /\
      row !! "user_id" = Some (aq_user_id a) /\
      row !! "created_at" = Some (JDate (aq_created_at a)) /\
      row !! "name" = Some (aq_name a') /\
      row !! "size_litres" = Some (aq_size_litres a') /\
      row !! "feeding_volume_grams" = Some (aq_feeding_volume_grams a') /\
      row !! "feeding_period_hours" = Some (aq_feeding_period_hours a'))) /\
  (forall c k old new,
     body req !! k = None \/ body req !! k = Some JNull ->
     merged c (body req) k old new -> new = old) /\
  (forall c k old new v,
     body req !! k = Some v -> v <> JNull -> v <> JUndefined ->
     merged c (body req) k old new -> value_in c v = Some new /\ new <> JNull) /\
  schedules db' = schedules db /\ feeding_logs db' = feeding_logs db /\
  alerts db' = alerts db /\ sensor_data db' = sensor_data db.
Proof.
  cbv zeta.
  destruct (aquarium_update_read req) eqn:Er.
  - apply aquarium_update_read_true in Er
      as (Hk & [n Hn] & [s Hs] & [v Hv] & [h Hh]).
    rewrite (updateAquarium_read db req n s v h Hk Hn Hs Hv Hh).
    unfold names_aquarium. simpl.
    split; [done|]. split; [intros _; split_and!|split_and!]; try done.
    + eapply Forall2_impl; [apply update_rows|].
      intros a a'. simpl. destruct (sql_eq _ _); [|done].
      intros ->. by apply set_aquarium_merged.
    + intros Hno. rewrite (filter_no_hit _ _ Hno). simpl.
      rewrite update_no_hit by done. by rewrite with_aquariums_same.
    + intros a Ha.
      destruct (List.filter _ (aquariums db)) as [| a0 l] eqn:E; [done|].
      simpl in Ha. injection Ha as ->. simpl.
      exists (set_aquarium n s v h a). eexists. split; [done|].
      split; [by apply set_aquarium_merged|]. by split_and!.
    + intros c k old new. apply merged_kept.
    + intros c k old new w. apply merged_taken.
  - pose proof (updateAquarium_not_read db req Er) as Hu.
    rewrite Hu. simpl. split; [done|]. split; [done|]. split_and!; try done.
    + intros c k old new. apply merged_kept.
    + intros c k old new w. apply merged_taken.
Qed.

(** X16: [updateAquarium] is idempotent: the same request sent again gets
    the same answer and leaves the store as the first one left it. *)
Theorem updateAquarium_again db req :
  updateAquarium (updateAquarium db req).2 req
  = ((updateAquarium db req).1, (updateAquarium db req).2).
Proof.
  destruct (aquarium_update_read req) eqn:Er.
  - apply aquarium_update_read_true in Er
      as (Hk & [n Hn] & [s Hs] & [v Hv] & [h Hh]).
    rewrite (updateAquarium_read db req n s v h Hk Hn Hs Hv Hh). simpl.
    rewrite (updateAquarium_read _ req n s v h Hk Hn Hs Hv Hh). simpl.
    rewrite update_then_update by done.
    rewrite filter_updated by done.
    rewrite <- (list_fmap_compose (set_aquarium n s v h) (set_aquarium n s v h)).
    rewrite (list_fmap_ext (set_aquarium n s v h ∘ set_aquarium n s v h)
               (set_aquarium n s v h) (List.filter _ _))
      by (intros _ a _; apply set_aquarium_again).
    f_equal. f_equal. apply list_fmap_ext.
    intros _ a _. destruct (names_aquarium _ a); [apply set_aquarium_again | done].
  - pose proof (updateAquarium_not_read db req Er) as Hu.
    rewrite Hu. simpl. by rewrite Hu.
Qed.

Lemma getAquarium_rows db req :
  getAquarium db req =
    if key_in (pg_param (prop (params req) "id"))
    then
      let rows := aquarium_row <$>
                    List.filter (names_aquarium (prop (params req) "id")) (aquariums db) in
      (if bool_decide (rowCount rows = 0%nat) then error 404 "not_found"
       else {| status := 200; json := first_row rows |}, db)
    else (internal_error, db).
Proof.
  unfold getAquarium, select_aquarium.
  destruct (key_in _); [|done]. fold (names_aquarium (prop (params req) "id")).
  by destruct (bool_decide _).
Qed.

(** X17: an update whose body has none of the four fields, or has them
    null, writes nothing: the store is left as it was and the answer is
    that of [getAquarium] for the same path, the stored row with 200 or
    404 [not_found]. *)
Theorem updateAquarium_nothing_sent db req :
  (forall k, k ∈ ["name"; "size_litres"; "feeding_volume_grams"; "feeding_period_hours"] ->
             body req !! k = None \/ body req !! k = Some JNull) ->
  updateAquarium db req = getAquarium db req /\
  (updateAquarium db req).2 = db.
Proof.
  intros Hnone.
  assert (Hnull : forall c k,
            k ∈ ["name"; "size_litres"; "feeding_volume_grams"; "feeding_period_hours"] ->
            write c (prop (body req) k) = Some JNull).
  { intros c k Hk. apply write_nullish. unfold prop.
    by destruct (Hnone k Hk) as [-> | ->]. }
  assert (E : updateAquarium db req = getAquarium db req).
  { rewrite getAquarium_rows.
    destruct (key_in (pg_param (prop (params req) "id"))) eqn:Hk;
      [|apply updateAquarium_unread; by left].
    rewrite (updateAquarium_read db req JNull JNull JNull JNull Hk);
      [|apply Hnull; set_solver..].
    simpl.
    rewrite (list_fmap_ext (set_aquarium JNull JNull JNull JNull) id (List.filter _ _))
      by (intros _ a _; apply set_aquarium_nothing).
    rewrite list_fmap_id.
    rewrite (list_fmap_ext _ id (aquariums db)).
    - by rewrite list_fmap_id, with_aquariums_same.
    - intros _ a _. simpl. destruct (names_aquarium _ a);
        [apply set_aquarium_nothing | done]. }
  split; [done|]. rewrite E, getAquarium_rows.
  by destruct (key_in _).
Qed.

End Updates.

Section Schedules.
Context `{Postgres}.

(** ** The ownership check of a schedule *)

Lemma select_schedule_rows db settingId aquariumId :
  select_schedule db settingId aquariumId =
    if keys_read settingId aquariumId
    then Some (schedule_row <$>
                 List.filter
                   (fun s => sql_eq (sc_id s) (pg_param settingId)
                             && sql_eq (sc_device_id s) (pg_param aquariumId))
                   (schedules db))
    else None.
Proof. done. Qed.

Lemma owns_schedule_keys_read db settingId aquariumId :
  owns_schedule db settingId aquariumId -> keys_read settingId aquariumId = true.
Proof.
  intros (s & _ & Hid & Hdev). unfold keys_read.
  by rewrite (sql_eq_key_in _ _ Hid), (sql_eq_key_in _ _ Hdev).
Qed.

Lemma select_schedule_owned db settingId aquariumId :
  owns_schedule db settingId aquariumId ->
  exists rows, select_schedule db settingId aquariumId = Some rows /\
               rowCount rows <> 0%nat.
Proof.
  intros Ho. rewrite select_schedule_rows, (owns_schedule_keys_read _ _ _ Ho).
  eexists. split; [done|]. intros Hz. apply rowCount_fmap_0 in Hz.
  destruct Ho as (s & Hs & Hid & Hdev).
  pose proof (filter_nil_no_hit _ _ Hz s Hs) as Hno. simpl in Hno.
  by rewrite Hid, Hdev in Hno.
Qed.

Lemma select_schedule_not_owned db settingId aquariumId :
  ~ owns_schedule db settingId aquariumId ->
  select_schedule db settingId aquariumId =
    if keys_read settingId aquariumId then Some [] else None.
Proof.
  intros Hno. rewrite select_schedule_rows.
  destruct (keys_read settingId aquariumId); [|done].
  rewrite filter_no_hit; [done|].
  intros s Hs. apply not_true_is_false. intros [Hid Hdev]%andb_prop.
  apply Hno. by exists s.
Qed.

Lemma owns_schedule_dec db settingId aquariumId :
  owns_schedule db settingId aquariumId \/ ~ owns_schedule db settingId aquariumId.
Proof.
  destruct (List.filter
              (fun s => sql_eq (sc_id s) (pg_param settingId)
                        && sql_eq (sc_device_id s) (pg_param aquariumId))
              (schedules db)) as [| s l] eqn:E.
  - right. intros (s & Hs & Hid & Hdev).
    pose proof (filter_nil_no_hit _ _ E s Hs) as Hno. simpl in Hno.
    by rewrite Hid, Hdev in Hno.
  - left. assert (Hs : s ∈ List.filter
              (fun s => sql_eq (sc_id s) (pg_param settingId)
                        && sql_eq (sc_device_id s) (pg_param aquariumId))
              (schedules db)) by (rewrite E; apply list_elem_of_here).
    apply elem_of_List_filter in Hs as [Hs [Hid Hdev]%andb_prop]. by exists s.
Qed.

Lemma not_of_aquarium_not_owned db settingId aquariumId :
  names_no_schedule db settingId \/
  names_schedule_of_another db settingId aquariumId ->
  ~ owns_schedule db settingId aquariumId.
Proof.
  intros Hn (s & Hs & Hid & Hdev). destruct Hn as [Hn | [_ Hn]].
  - by rewrite (Hn s Hs) in Hid.
  - by rewrite (Hn s Hs Hid) in Hdev.
Qed.

(** ** updateFeedingSetting *)

Lemma updateFeedingSetting_not_owned db req :
  ToBoolean (prop (body req) "settingId") = true ->
  ~ owns_schedule db (prop (body req) "settingId") (prop (params req) "id") ->
  updateFeedingSetting db req =
    (if keys_read (prop (body req) "settingId") (prop (params req) "id")
     then error 404 "schedule_not_found" else internal_error, db).
Proof.
  intros Ht Hno. unfold updateFeedingSetting, js_not. rewrite Ht. simpl.
  rewrite (select_schedule_not_owned _ _ _ Hno). by destruct (keys_read _ _).
Qed.

Lemma updateFeedingSetting_rejects db req :
  ToBoolean (prop (body req) "settingId") = false ->
  updateFeedingSetting db req = (error 400 "settingId required in body", db).
Proof. intros Hf. unfold updateFeedingSetting, js_not. by rewrite Hf. Qed.

Lemma deleteFeedingSetting_not_owned db req :
  ~ owns_schedule db (prop (params req) "settingId") (prop (params req) "id") ->
  deleteFeedingSetting db req =
    (if keys_read (prop (params req) "settingId") (prop (params req) "id")
     then error 404 "schedule_not_found" else internal_error, db).
Proof.
  intros Hno. unfold deleteFeedingSetting.
  rewrite (select_schedule_not_owned _ _ _ Hno). by destruct (keys_read _ _).
Qed.

(** C1, as the code has it: an update whose [settingId] is truthy, and a
    delete, are answered 404 [schedule_not_found] when the id names no
    schedule or one of another aquarium than the path's and the engine can
    read both ids as keys, and 500 [internal_error] when the engine
    rejects one of the ids; an update whose [settingId] is falsy is
    answered 400; in each case the store is left as it was. *)
Theorem schedule_not_of_aquarium db upd del :
  (ToBoolean (prop (body upd) "settingId") = true ->
   names_no_schedule db (prop (body upd) "settingId") \/
   names_schedule_of_another db (prop (body upd) "settingId") (prop (params upd) "id") ->
   updateFeedingSetting db upd =
     (if keys_read (prop (body upd) "settingId") (prop (params upd) "id")
      then error 404 "schedule_not_found" else internal_error, db)) /\
  (ToBoolean (prop (body upd) "settingId") = false ->
   updateFeedingSetting db upd = (error 400 "settingId required in body", db)) /\
  (names_no_schedule db (prop (params del) "settingId") \/
   names_schedule_of_another db (prop (params del) "settingId") (prop (params del) "id") ->
   deleteFeedingSetting db del =
     (if keys_read (prop (params del) "settingId") (prop (params del) "id")
      then error 404 "schedule_not_found" else internal_error, db)).
Proof.
  split_and!.
  - intros Ht Hn. apply updateFeedingSetting_not_owned; [done|].
    by apply not_of_aquarium_not_owned.
  - apply updateFeedingSetting_rejects.
  - intros Hn. apply deleteFeedingSetting_not_owned.
    by apply not_of_aquarium_not_owned.
Qed.

Lemma schedule_update_read_true req :
  schedule_update_read req = true <->
  is_Some (write schedules_name (prop (body req) "name")) /\
  is_Some (write schedules_type (prop (body req) "type")) /\
  is_Some (write schedules_interval_hours (prop (body req) "interval_hours")) /\
  is_Some (write schedules_feed_volume_grams (prop (body req) "feed_volume_grams")) /\
  is_Some (write schedules_enabled (prop (body req) "enabled")) /\
  is_Some (write schedules_start_date (prop (body req) "start_date")) /\
  is_Some (write schedules_end_date (prop (body req) "end_date")).
Proof.
  unfold schedule_update_read. rewrite !andb_true_iff, !write_readable. tauto.
Qed.

(** The set list of a schedule update as the engine reads it, none when it
    rejects a value. *)
Lemma update_schedules_rows db req :
  key_in (pg_param (prop (body req) "settingId")) = true ->
  (schedule_update_read req = false /\
   update_schedules db (prop (body req) "name") (prop (body req) "type")
     (prop (body req) "interval_hours") (prop (body req) "feed_volume_grams")
     (prop (body req) "enabled") (prop (body req) "start_date")
     (prop (body req) "end_date") (prop (body req) "settingId") = None) \/
  (exists set : Schedule -> Schedule,
     schedule_update_read req = true /\
     (forall s, merged_schedule req s (set s)) /\
     let named s := sql_eq (sc_id s) (pg_param (prop (body req) "settingId")) in
     update_schedules db (prop (body req) "name") (prop (body req) "type")
       (prop (body req) "interval_hours") (prop (body req) "feed_volume_grams")
       (prop (body req) "enabled") (prop (body req) "start_date")
       (prop (body req) "end_date") (prop (body req) "settingId")
     = Some (schedule_row <$> (set <$> List.filter named (schedules db)),
             with_schedules db ((fun s => if named s then set s else s) <$> schedules db)
               (schedules_seq db))).
Proof.
  intros Hk. unfold update_schedules. rewrite Hk.
  destruct (schedule_update_read req) eqn:Er.
  - right. apply schedule_update_read_true in Er
      as ([n Hn] & [t Ht] & [i Hi] & [v Hv] & [e He] & [sd Hsd] & [ed Hed]).
    rewrite Hn, Ht, Hi, Hv, He, Hsd, Hed. simpl.
    exists (set_schedule n t i v e sd ed). split; [done|]. split; [|done].
    intros s. unfold merged_schedule. simpl.
    split_and!; try done; by apply write_merged.
  - left. split; [done|].
    destruct (write schedules_name _) as [n|] eqn:Hn; simpl; [|done].
    destruct (write schedules_type _) as [t|] eqn:Ht; simpl; [|done].
    destruct (write schedules_interval_hours _) as [i|] eqn:Hi; simpl; [|done].
    destruct (write schedules_feed_volume_grams _) as [v|] eqn:Hv; simpl; [|done].
    destruct (write schedules_enabled _) as [e|] eqn:He; simpl; [|done].
    destruct (write schedules_start_date _) as [sd|] eqn:Hsd; simpl; [|done].
    destruct (write schedules_end_date _) as [ed|] eqn:Hed; simpl; [|done].
    assert (schedule_update_read req = true); [|congruence].
    apply schedule_update_read_true. rewrite Hn, Ht, Hi, Hv, He, Hsd, Hed. eauto 10.
Qed.

(** What [updateFeedingSetting] does once the ownership check has passed. *)
Lemma updateFeedingSetting_passes db req :
  let settingId := prop (body req) "settingId" in
  let named s := sql_eq (sc_id s) (pg_param settingId) in
  ToBoolean settingId = true ->
  owns_schedule db settingId (prop (params req) "id") ->
  (schedule_update_read req = false /\
   updateFeedingSetting db req = (internal_error, db)) \/
  (exists set : Schedule -> Schedule,
     schedule_update_read req = true /\
     (forall s, merged_schedule req s (set s)) /\
     updateFeedingSetting db req =
       ({| status := 200;
           json := first_row (schedule_row <$>
                                (set <$> List.filter named (schedules db))) |},
        with_schedules db ((fun s => if named s then set s else s) <$> schedules db)
          (schedules_seq db))).
Proof.
  intros settingId named Ht Ho. subst settingId named.
  unfold updateFeedingSetting, js_not. rewrite Ht. simpl.
  destruct (select_schedule_owned _ _ _ Ho) as (rows & -> & Hne).
  rewrite bool_decide_eq_false_2 by done.
  assert (Hk : key_in (pg_param (prop (body req) "settingId")) = true).
  { destruct Ho as (s & _ & Hid & _). by apply sql_eq_key_in in Hid. }
  destruct (update_schedules_rows db req Hk) as [[Er E] | (set & Er & Hm & E)];
    cbv zeta in E; rewrite E.
  - by left.
  - right. by exists set.
Qed.

(** X7: an update of a schedule of the path's aquarium (truthy [settingId],
    ownership check passed) that sends a value its column rejects is
    answered 500 and changes nothing.  Otherwise it is answered 200 with
    the updated row; every schedule the id names has each of the seven
    fields merged (the old value when the body lacks the field or has it
    null, the value as the column reads it otherwise) and keeps its id and
    aquarium; the schedules not named and the other tables are as they
    were. *)
Theorem updateFeedingSetting_merges db req :
  let settingId := prop (body req) "settingId" in
  let named s := sql_eq (sc_id s) (pg_param settingId) in
  let res := (updateFeedingSetting db req).1 in
  let db' := (updateFeedingSetting db req).2 in
  ToBoolean settingId = true ->
  owns_schedule db settingId (prop (params req) "id") ->
  (schedule_update_read req = false ->
   updateFeedingSetting db req = (internal_error, db)) /\
  (schedule_update_read req = true ->
   Forall2 (fun s s' => if named s then merged_schedule req s s' else s' = s)
     (schedules db) (schedules db') /\
   exists s s' row,
     head (List.filter named (schedules db)) = Some s /\
     res = {| status := 200; json := Row row |} /\
     merged_schedule req s s' /\
     row !! "id" = Some (sc_id s) /\
     row !! "device_id" = Some (sc_device_id s) /\
     row !! "name" = Some (sc_name s') /\
     row !! "type" = Some (sc_type s') /\
     row !! "interval_hours" = Some (sc_interval_hours s') /\
     row !! "feed_volume_grams" = Some (sc_feed_volume_grams s') /\
     row !! "enabled" = Some (sc_enabled s') /\
     row !! "start_date" = Some (sc_start_date s') /\
     row !! "end_date" = Some (sc_end_date s')) /\
  (forall c k old new,
     body req !! k = None \/ body req !! k = Some JNull ->
     merged c (body req) k old new -> new = old) /\
  (forall c k old new v,
     body req !! k = Some v -> v <> JNull -> v <> JUndefined ->
     merged c (body req) k old new -> value_in c v = Some new /\ new <> JNull) /\
  aquariums db' = aquariums db /\ feeding_logs db' = feeding_logs db /\
  alerts db' = alerts db /\ sensor_data db' = sensor_data db.
Proof.
  cbv zeta. intros Ht Ho.
  destruct (updateFeedingSetting_passes db req Ht Ho)
    as [[Er ->] | (set & Er & Hm & ->)]; rewrite Er; simpl.
  - split_and!; try done.
    + intros c k old new. apply merged_kept.
    + intros c k old new w. apply merged_taken.
  - split; [done|]. split; [intros _; split|split_and!]; try done.
    + eapply Forall2_impl; [apply update_rows|].
      intros s s'. simpl. destruct (sql_eq _ _); [|done]. by intros ->.
    + destruct Ho as (s0 & Hs0 & Hid & _).
      destruct (List.filter _ (schedules db)) as [| s l] eqn:E.
      * pose proof (filter_nil_no_hit _ _ E s0 Hs0) as Hno. simpl in Hno. congruence.
      * exists s, (set s). eexists. simpl. split_and!; try done.
        -- by destruct (Hm s) as (_ & _ & _ & _ & _ & _ & _ & <- & _).
        -- by destruct (Hm s) as (_ & _ & _ & _ & _ & _ & _ & _ & <-).
    + intros c k old new. apply merged_kept.
    + intros c k old new w. apply merged_taken.
Qed.

(** The store after [updateFeedingSetting], whatever the answer: every
    schedule comes out with its id and aquarium. *)
Lemma updateFeedingSetting_store db req :
  Forall2 (fun s s' => sc_id s' = sc_id s /\ sc_device_id s' = sc_device_id s)
    (schedules db) (schedules (updateFeedingSetting db req).2).
Proof.
  assert (Hsame : Forall2
            (fun s s' => sc_id s' = sc_id s /\ sc_device_id s' = sc_device_id s)
            (schedules db) (schedules db))
    by by apply Forall_Forall2_diag, Forall_true.
  destruct (ToBoolean (prop (body req) "settingId")) eqn:Et;
    [|by rewrite updateFeedingSetting_rejects].
  destruct (owns_schedule_dec db (prop (body req) "settingId") (prop (params req) "id"))
    as [Ho | Hno].
  - destruct (updateFeedingSetting_passes db req Et Ho)
      as [[Er ->] | (set & Er & Hm & ->)]; [done|]. simpl.
    eapply Forall2_impl; [apply update_rows|].
    intros s s'. simpl. destruct (sql_eq _ _); [|by intros ->].
    intros ->. by destruct (Hm s) as (_ & _ & _ & _ & _ & _ & _ & -> & ->).
  - by rewrite updateFeedingSetting_not_owned.
Qed.

(** X8: whatever the request and whatever the answer, [updateFeedingSetting]
    keeps the id and the aquarium of every schedule: an update cannot move
    a schedule to another aquarium nor rename it, so every ownership
    check, and every listing by aquarium, finds the same schedules before
    and after. *)
Theorem updateFeedingSetting_keeps_owner db req :
  let db' := (updateFeedingSetting db req).2 in
  Forall2 (fun s s' => sc_id s' = sc_id s /\ sc_device_id s' = sc_device_id s)
    (schedules db) (schedules db') /\
  (forall settingId aquariumId,
     owns_schedule db' settingId aquariumId <-> owns_schedule db settingId aquariumId) /\
  (forall aquariumId,
     sc_id <$> List.filter (fun s => sql_eq (sc_device_id s) (pg_param aquariumId))
                 (schedules db')
     = sc_id <$> List.filter (fun s => sql_eq (sc_device_id s) (pg_param aquariumId))
                   (schedules db)).
Proof.
  intros db'.
  assert (Hkeep : Forall2
            (fun s s' => sc_id s' = sc_id s /\ sc_device_id s' = sc_device_id s)
            (schedules db) (schedules db')) by apply updateFeedingSetting_store.
  split; [done|]. split.
  - intros settingId aquariumId. unfold owns_schedule.
    induction Hkeep as [| s s' l l' [Hid Hdev] _ IH].
    + split; intros (s & Hs & _); by apply elem_of_nil in Hs.
    + split; intros (x & Hx & Hxid & Hxdev); apply elem_of_cons in Hx as [-> | Hx].
      * exists s. rewrite <- Hid, <- Hdev. split; [apply list_elem_of_here | done].
      * destruct (proj1 IH) as (y & Hy & ?); [by exists x|].
        exists y. split; [by apply list_elem_of_further | done].
      * exists s'. rewrite Hid, Hdev. split; [apply list_elem_of_here | done].
      * destruct (proj2 IH) as (y & Hy & ?); [by exists x|].
        exists y. split; [by apply list_elem_of_further | done].
  - intros aquariumId.
    induction Hkeep as [| s s' l l' [Hid Hdev] _ IH]; [done|].
    simpl List.filter. rewrite Hdev.
    destruct (sql_eq _ _); rewrite ?fmap_cons, ?Hid, IH; done.
Qed.

(** ** deleteFeedingSetting *)

Lemma deleteFeedingSetting_passes db req :
  let settingId := prop (params req) "settingId" in
  owns_schedule db settingId (prop (params req) "id") ->
  deleteFeedingSetting db req =
    ({| status := 200; json := Row {[ "status" := JStr "deleted" ]} |},
     with_schedules db
       (List.filter (fun s => negb (sql_eq (sc_id s) (pg_param settingId)))
          (schedules db))
       (schedules_seq db)).
Proof.
  intros settingId Ho. subst settingId. unfold deleteFeedingSetting, delete_schedule.
  destruct (select_schedule_owned _ _ _ Ho) as (rows & -> & Hne).
  rewrite bool_decide_eq_false_2 by done.
  destruct Ho as (s & _ & Hid & _). by rewrite (sql_eq_key_in _ _ Hid).
Qed.

(** X9: a delete of a schedule of the path's aquarium is answered 200 with
    status [deleted]; the schedules left are those the id does not name,
    in their order, and the other tables are as they were. *)
Theorem deleteFeedingSetting_removes db req :
  let settingId := prop (params req) "settingId" in
  let db' := (deleteFeedingSetting db req).2 in
  owns_schedule db settingId (prop (params req) "id") ->
  (deleteFeedingSetting db req).1
    = {| status := 200; json := Row {[ "status" := JStr "deleted" ]} |} /\
  (forall s, s ∈ schedules db' <->
             s ∈ schedules db /\ sql_eq (sc_id s) (pg_param settingId) = false) /\
  schedules db' `sublist_of` schedules db /\
  (length (schedules db') < length (schedules db))%nat /\
  aquariums db' = aquariums db /\ feeding_logs db' = feeding_logs db /\
  alerts db' = alerts db /\ sensor_data db' = sensor_data db.
Proof.
  intros settingId db' Ho. subst db'.
  rewrite (deleteFeedingSetting_passes db req Ho). fold settingId. simpl.
  split_and!; try done.
  - intros s. rewrite elem_of_List_filter. by rewrite negb_true_iff.
  - apply sublist_List_filter.
  - destruct Ho as (s & Hs & Hid & _). fold settingId in Hid.
    clear -Hs Hid. induction (schedules db) as [| x l IH]; [by apply elem_of_nil in Hs|].
    simpl. apply elem_of_cons in Hs as [<- | Hs].
    + rewrite Hid. simpl.
      pose proof (sublist_length _ _
        (sublist_List_filter (fun s => negb (sql_eq (sc_id s) (pg_param settingId))) l)).
      lia.
    + specialize (IH Hs). destruct (negb _); simpl; lia.
Qed.

(** X10: once [deleteFeedingSetting] has run, whatever it answered, the
    path names no schedule of the aquarium: a second delete with the same
    path, and an update with that [settingId] on the same aquarium, change
    nothing and are answered 404 [schedule_not_found] when the engine can
    read both ids as keys, 500 when it rejects one. *)
Theorem deleteFeedingSetting_then_404 db req upd :
  let settingId := prop (params req) "settingId" in
  let aquariumId := prop (params req) "id" in
  let db' := (deleteFeedingSetting db req).2 in
  prop (body upd) "settingId" = settingId ->
  prop (params upd) "id" = aquariumId ->
  ToBoolean (prop (body upd) "settingId") = true ->
  ~ owns_schedule db' settingId aquariumId /\
  deleteFeedingSetting db' req =
    (if keys_read settingId aquariumId
     then error 404 "schedule_not_found" else internal_error, db') /\
  updateFeedingSetting db' upd =
    (if keys_read settingId aquariumId
     then error 404 "schedule_not_found" else internal_error, db').
Proof.
  intros settingId aquariumId db' Hsid Hid Ht.
  assert (Hnot : ~ owns_schedule db' settingId aquariumId).
  { subst db'.
    destruct (owns_schedule_dec db settingId aquariumId) as [Ho | Hno].
    - rewrite (deleteFeedingSetting_passes db req Ho). simpl.
      intros (s & Hs & Hsid' & _). simpl in Hs.
      apply elem_of_List_filter in Hs as [_ Hs]. apply negb_true_iff in Hs.
      fold settingId in Hs. congruence.
    - by rewrite (deleteFeedingSetting_not_owned db req Hno). }
  split; [done|]. split.
  - by apply deleteFeedingSetting_not_owned.
  - rewrite <- Hsid, <- Hid. apply updateFeedingSetting_not_owned; [done|].
    by rewrite Hsid, Hid.
Qed.

End Schedules.

Section Alerts.
Context `{Postgres}.

(** ** updateAlertStatus *)

Lemma owns_alert_keys_read db alertId aquariumId :
  owns_alert db alertId aquariumId -> keys_read alertId aquariumId = true.
Proof.
  intros (a & _ & Hid & Hdev). unfold keys_read.
  by rewrite (sql_eq_key_in _ _ Hid), (sql_eq_key_in _ _ Hdev).
Qed.

Lemma select_alert_owned db alertId aquariumId :
  owns_alert db alertId aquariumId ->
  exists rows, select_alert db alertId aquariumId = Some rows /\
               rowCount rows <> 0%nat.
Proof.
  intros Ho. unfold select_alert.
  pose proof (owns_alert_keys_read _ _ _ Ho) as Hk. unfold keys_read in Hk.
  rewrite Hk. eexists. split; [done|]. intros Hz. apply rowCount_fmap_0 in Hz.
  destruct Ho as (a & Ha & Hid & Hdev).
  pose proof (filter_nil_no_hit _ _ Hz a Ha) as Hno. simpl in Hno.
  by rewrite Hid, Hdev in Hno.
Qed.

Lemma select_alert_not_owned db alertId aquariumId :
  ~ owns_alert db alertId aquariumId ->
  select_alert db alertId aquariumId =
    if keys_read alertId aquariumId then Some [] else None.
Proof.
  intros Hno. unfold select_alert, keys_read.
  destruct (key_in (pg_param alertId) && key_in (pg_param aquariumId)); [|done].
  rewrite filter_no_hit; [done|].
  intros a Ha. apply not_true_is_false. intros [Hid Hdev]%andb_prop.
  apply Hno. by exists a.
Qed.

Lemma updateAlertStatus_passes now db req :
  let alertId := prop (body req) "alertId" in
  let named a := sql_eq (al_id a) (pg_param alertId) in
  let set := set_alert now (Some (resolved_flag (prop (body req) "resolved"))) in
  ToBoolean alertId = true ->
  owns_alert db alertId (prop (params req) "id") ->
  updateAlertStatus now db req =
    ({| status := 200;
        json := first_row (alert_row <$> (set <$> List.filter named (alerts db))) |},
     with_alerts db ((fun a => if named a then set a else a) <$> alerts db)).
Proof.
  intros alertId named set Ht Ho. unfold updateAlertStatus, js_not.
  fold alertId. rewrite Ht. simpl.
  destruct (select_alert_owned _ _ _ Ho) as (rows & -> & Hne).
  rewrite bool_decide_eq_false_2 by done.
  unfold update_alerts, condition_in. simpl. rewrite boolean_in_bool. simpl.
  destruct Ho as (a & _ & Hid & _). by rewrite (sql_eq_key_in _ _ Hid).
Qed.

Lemma owned_alert_named db alertId aquariumId :
  owns_alert db alertId aquariumId ->
  exists a, head (List.filter (fun a => sql_eq (al_id a) (pg_param alertId)) (alerts db))
            = Some a.
Proof.
  intros (a & Ha & Hid & _).
  destruct (List.filter _ (alerts db)) as [| a0 l] eqn:E; [|by exists a0].
  pose proof (filter_nil_no_hit _ _ E a Ha) as Hno. simpl in Hno. congruence.
Qed.

(** C3: an update that passes the ownership check is answered 200 with the
    updated alert; every alert the id names then has [resolved] set to the
    flag, true exactly for [true] and ['true'], and [resolved_at] set to
    the current time when the flag is true and to NULL when it is false,
    whatever the alert was before; its other columns, the other alerts and
    the other tables are as they were. *)
Theorem updateAlertStatus_resolved_at now db req :
  let alertId := prop (body req) "alertId" in
  let resolved := prop (body req) "resolved" in
  let named a := sql_eq (al_id a) (pg_param alertId) in
  let db' := (updateAlertStatus now db req).2 in
  ToBoolean alertId = true ->
  owns_alert db alertId (prop (params req) "id") ->
  Forall2 (fun a a' =>
      if named a then
        al_resolved a' = JBool (resolved_flag resolved) /\
        (al_resolved_at a' <> None <-> resolved_flag resolved = true) /\
        (resolved_flag resolved = true -> al_resolved_at a' = Some now) /\
        (resolved_flag resolved = false -> al_resolved_at a' = None) /\
        al_id a' = al_id a /\ al_device_id a' = al_device_id a /\
        al_ts a' = al_ts a /\ al_others a' = al_others a
      else a' = a)
    (alerts db) (alerts db') /\
  (resolved = JBool true \/ resolved = JStr "true" -> resolved_flag resolved = true) /\
  (resolved = JBool false -> resolved_flag resolved = false) /\
  (exists a a',
     head (List.filter named (alerts db)) = Some a /\
     (updateAlertStatus now db req).1 = {| status := 200; json := Row (alert_row a') |} /\
     al_id a' = al_id a /\
     al_resolved a' = JBool (resolved_flag resolved) /\
     al_resolved_at a' = (if resolved_flag resolved then Some now else None)) /\
  aquariums db' = aquariums db /\ schedules db' = schedules db /\
  feeding_logs db' = feeding_logs db /\ sensor_data db' = sensor_data db.
Proof.
  intros alertId resolved named db' Ht Ho. subst db'.
  rewrite (updateAlertStatus_passes now db req Ht Ho). fold alertId resolved named.
  simpl. split_and!; try done.
  - eapply Forall2_impl; [apply update_rows|].
    intros a a'. unfold named. destruct (sql_eq _ _); [|done].
    intros ->. simpl. destruct (resolved_flag resolved); naive_solver.
  - by intros [-> | ->].
  - by intros ->.
  - destruct (owned_alert_named _ _ _ Ho) as [a Ha]. fold alertId named in Ha.
    exists a. destruct (List.filter named (alerts db)) as [| a0 l]; [done|].
    injection Ha as ->.
    exists (set_alert now (Some (resolved_flag resolved)) a).
    split_and!; try done.
Qed.

(** C9: with an owned alert, a [resolved] that is neither [true] nor the
    string ['true'] (so [false], ['false'], ['True'], 1, null, or no such
    field) makes the flag false: every alert the id names is then stored
    unresolved, with [resolved_at] NULL. *)
Theorem updateAlertStatus_not_true now db req :
  let alertId := prop (body req) "alertId" in
  let resolved := prop (body req) "resolved" in
  let named a := sql_eq (al_id a) (pg_param alertId) in
  let db' := (updateAlertStatus now db req).2 in
  ToBoolean alertId = true ->
  owns_alert db alertId (prop (params req) "id") ->
  (resolved <> JBool true -> resolved <> JStr "true" ->
   resolved_flag resolved = false /\
   status (updateAlertStatus now db req).1 = 200%nat /\
   Forall2 (fun a a' =>
       if named a then
         al_resolved a' = JBool false /\ al_resolved_at a' = None /\
         al_id a' = al_id a /\ al_device_id a' = al_device_id a /\
         al_ts a' = al_ts a /\ al_others a' = al_others a
       else a' = a)
     (alerts db) (alerts db')) /\
  Forall (fun v => v <> JBool true /\ v <> JStr "true")
    [JBool false; JStr "false"; JStr "True"; num 1; JNull; JUndefined] /\
  (body req !! "resolved" = None -> resolved = JUndefined).
Proof.
  intros alertId resolved named db' Ht Ho. subst db'.
  rewrite (updateAlertStatus_passes now db req Ht Ho). fold alertId resolved named.
  simpl. split_and!.
  - intros Hb Hs.
    assert (Hflag : resolved_flag resolved = false).
    { unfold resolved_flag.
      destruct resolved as [| | [] | [q | |] | s | | |]; try done.
      simpl. apply String.eqb_neq. congruence. }
    rewrite Hflag. split_and!; try done.
    eapply Forall2_impl; [apply update_rows|].
    intros a a'. unfold named. destruct (sql_eq _ _); [|done]. by intros ->.
  - by repeat constructor.
  - apply prop_missing.
Qed.

(** X14: [updateAlertStatus] answers 400 [alertId required] when the body
    has no truthy [alertId]; with a truthy [alertId] that names no alert of
    the path's aquarium it answers 404 [alert_not_found] when the engine
    can read both ids as keys and 500 when it rejects one; in each case
    the store is left as it was. *)
Theorem updateAlertStatus_rejects now db req :
  let alertId := prop (body req) "alertId" in
  let aquariumId := prop (params req) "id" in
  (ToBoolean alertId = false ->
   updateAlertStatus now db req = (error 400 "alertId required", db)) /\
  (ToBoolean alertId = true -> ~ owns_alert db alertId aquariumId ->
   updateAlertStatus now db req =
     (if keys_read alertId aquariumId
      then error 404 "alert_not_found" else internal_error, db)) /\
  (body req !! "alertId" = None ->
   updateAlertStatus now db req = (error 400 "alertId required", db)).
Proof.
  cbv zeta. split_and!.
  - intros Hf. unfold updateAlertStatus, js_not. by rewrite Hf.
  - intros Ht Hno. unfold updateAlertStatus, js_not. rewrite Ht. simpl.
    rewrite (select_alert_not_owned _ _ _ Hno).
    by destruct (keys_read _ _).
  - intros Hm. unfold updateAlertStatus, js_not.
    by rewrite (prop_missing _ _ Hm).
Qed.

Lemma owns_alert_updated now flag db alertId aquariumId p :
  owns_alert db alertId aquariumId ->
  owns_alert
    (with_alerts db
       ((fun a => if sql_eq (al_id a) (pg_param p) then set_alert now flag a else a)
          <$> alerts db))
    alertId aquariumId.
Proof.
  intros (a & Ha & Hid & Hdev).
  exists (if sql_eq (al_id a) (pg_param p) then set_alert now flag a else a).
  split; [|by destruct (sql_eq (al_id a) (pg_param p))].
  simpl. apply list_elem_of_fmap. by exists a.
Qed.

(** X15: of two updates of the same alert through the same aquarium the
    last one decides: the answer and the store after both are those the
    second update alone gives on the store from before the first. *)
Theorem updateAlertStatus_last_wins now1 now2 db req1 req2 :
  prop (body req2) "alertId" = prop (body req1) "alertId" ->
  prop (params req2) "id" = prop (params req1) "id" ->
  ToBoolean (prop (body req1) "alertId") = true ->
  owns_alert db (prop (body req1) "alertId") (prop (params req1) "id") ->
  updateAlertStatus now2 (updateAlertStatus now1 db req1).2 req2
  = updateAlertStatus now2 db req2.
Proof.
  intros Hid Hdev Ht Ho.
  rewrite (updateAlertStatus_passes now1 db req1 Ht Ho). simpl.
  rewrite !updateAlertStatus_passes; rewrite ?Hid, ?Hdev; try done;
    [|by apply owns_alert_updated].
  simpl. unfold with_alerts. simpl.
  rewrite update_then_update by done.
  rewrite filter_updated by done.
  rewrite <- !list_fmap_compose. done.
Qed.

End Alerts.

(** ** [ORDER BY ... LIMIT n] *)

Section Top.
Context {A} (R : relation A) `{!RelDecision R, !Transitive R, !Total R}.

(** The first [n] of a sorted list: sorted, at most [n], taken from the
    list without repetition, and whatever is left out comes after all of
    them. *)
Lemma sorted_top (n : nat) (l : list A) :
  let top := take n (merge_sort R l) in
  StronglySorted R top /\
  (length top <= n)%nat /\
  top ⊆+ l /\
  (forall x, x ∈ l -> x ∈ top \/ (length top = n /\ forall y, y ∈ top -> R y x)).
Proof.
  intros top. subst top.
  pose proof (StronglySorted_merge_sort R l) as Hs.
  rewrite <- (take_drop n (merge_sort R l)) in Hs.
  split_and!.
  - by apply StronglySorted_app_1_l in Hs.
  - rewrite length_take. lia.
  - trans (merge_sort R l); [apply submseteq_take|].
    apply Permutation_submseteq, merge_sort_Permutation.
  - intros x Hx.
    rewrite <- (merge_sort_Permutation R l), <- (take_drop n (merge_sort R l)) in Hx.
    apply elem_of_app in Hx as [Hx | Hx]; [by left | right]. split.
    + apply length_take_le.
      destruct (decide (n <= length (merge_sort R l))%nat) as [|Hn]; [done|].
      rewrite drop_ge in Hx by lia. by apply elem_of_nil in Hx.
    + intros y Hy. by apply (StronglySorted_app_1_elem_of R _ _ y x Hs).
Qed.


End Top.

#[global] Instance ts_desc_trans : Transitive ts_desc.
Proof. unfold ts_desc. intros a b c ? ?. lia. Qed.

#[global] Instance ts_desc_total : Total ts_desc.
Proof. unfold ts_desc. intros a b. lia. Qed.

#[global] Instance day_desc_trans : Transitive day_desc.
Proof. unfold day_desc. intros a b c ? ?. lia. Qed.

#[global] Instance day_desc_total : Total day_desc.
Proof. unfold day_desc. intros a b. lia. Qed.

#[global] Instance alert_desc_trans : Transitive alert_desc.
Proof. unfold alert_desc. intros a b c ? ?. lia. Qed.

#[global] Instance alert_desc_total : Total alert_desc.
Proof. unfold alert_desc. intros a b. lia. Qed.

(** ** getConditionHistory *)

Section History.
Context `{Postgres}.

Lemma getConditionHistory_query db req :
  getConditionHistory db req =
    if history_read req
    then ({| status := 200;
             json := Rows (sensor_row <$>
                       take 500 (merge_sort ts_desc
                         (List.filter (in_range req) (sensor_data db)))) |}, db)
    else (internal_error, db).
Proof.
  unfold getConditionHistory, select_sensor_data, history_read.
  destruct (ToBoolean (prop (query req) "start")) eqn:Es;
    destruct (ToBoolean (prop (query req) "end")) eqn:Ee;
    simpl; rewrite ?(pg_param_truthy _ Es), ?(pg_param_truthy _ Ee);
    rewrite ?andb_true_r;
    (destruct (key_in _); simpl; [|done]);
    repeat (destruct (bool_decide (is_Some _)); simpl; [|done]);
    rewrite (filter_ext _ (in_range req)); try done; intros s;
    unfold in_range; rewrite Es, Ee;
    rewrite ?(pg_param_truthy _ Es), ?(pg_param_truthy _ Ee);
    destruct (sql_eq _ _); simpl; try done;
    repeat (destruct (timestamp_in _); simpl; try done);
    by repeat case_bool_decide.
Qed.

Lemma history_read_true req :
  history_read req = true <->
  key_in (pg_param (prop (params req) "id")) = true /\
  (ToBoolean (prop (query req) "start") = true ->
   is_Some (timestamp_in (prop (query req) "start"))) /\
  (ToBoolean (prop (query req) "end") = true ->
   is_Some (timestamp_in (prop (query req) "end"))).
Proof.
  unfold history_read. rewrite !andb_true_iff, !orb_true_iff, !negb_true_iff,
    !bool_decide_eq_true.
  destruct (ToBoolean (prop (query req) "start")),
    (ToBoolean (prop (query req) "end")); naive_solver.
Qed.

Lemma in_range_true req s :
  in_range req s = true <->
  sql_eq (sd_device_id s) (pg_param (prop (params req) "id")) = true /\
  (ToBoolean (prop (query req) "start") = true ->
   exists t, timestamp_in (prop (query req) "start") = Some t /\ t <= sd_ts s) /\
  (ToBoolean (prop (query req) "end") = true ->
   exists t, timestamp_in (prop (query req) "end") = Some t /\ sd_ts s <= t).
Proof.
  unfold in_range. rewrite !andb_true_iff.
  destruct (ToBoolean (prop (query req) "start")),
    (ToBoolean (prop (query req) "end"));
    repeat (destruct (timestamp_in _)); rewrite ?bool_decide_eq_true;
    naive_solver.
Qed.

(** C6: a request whose path id the engine cannot read as a key, or whose
    [start] or [end] is given and is no timestamp to the engine, is
    answered 500 and returns no reading.  Every other request is answered
    200 with readings of the store, each of the path's aquarium, each with
    [ts >= start] when [start] is given (truthy) and [ts <= end] when
    [end] is given, the bound included; every row answered holds the
    [device_id], the [ts] and the other columns of its reading; the rows
    are in descending order of [ts], none twice, at most 500, and a
    reading within the bounds that is left out is no later than any of
    them.  The store is not changed. *)
Theorem getConditionHistory_bounds db req :
  let id := prop (params req) "id" in
  let start := prop (query req) "start" in
  let end_ := prop (query req) "end" in
  (history_read req = false ->
   getConditionHistory db req = (internal_error, db)) /\
  (history_read req = true ->
   exists (rows : list SensorReading) (answer : list (gmap string JsVal)),
     getConditionHistory db req
       = ({| status := 200; json := Rows answer |}, db) /\
     Forall2 (fun r row =>
         row !! "device_id" = Some (sd_device_id r) /\
         row !! "ts" = Some (JDate (sd_ts r)) /\
         forall k, k ∉ ["device_id"; "ts"] -> row !! k = sd_others r !! k)
       rows answer /\
     (forall r, r ∈ rows ->
        r ∈ sensor_data db /\
        sql_eq (sd_device_id r) (pg_param id) = true /\
        (ToBoolean start = true ->
         exists t, timestamp_in start = Some t /\ t <= sd_ts r) /\
        (ToBoolean end_ = true ->
         exists t, timestamp_in end_ = Some t /\ sd_ts r <= t)) /\
     StronglySorted (fun r r' => sd_ts r' <= sd_ts r) rows /\
     (length rows <= 500)%nat /\
     rows ⊆+ sensor_data db /\
     (forall r, r ∈ sensor_data db -> in_range req r = true ->
        r ∈ rows \/
        (length rows = 500%nat /\ forall r', r' ∈ rows -> sd_ts r <= sd_ts r'))) /\
  (history_read req = true <->
   key_in (pg_param id) = true /\
   (ToBoolean start = true -> is_Some (timestamp_in start)) /\
   (ToBoolean end_ = true -> is_Some (timestamp_in end_))) /\
  (forall r, in_range req r = true <->
     sql_eq (sd_device_id r) (pg_param id) = true /\
     (ToBoolean start = true -> exists t, timestamp_in start = Some t /\ t <= sd_ts r) /\
     (ToBoolean end_ = true -> exists t, timestamp_in end_ = Some t /\ sd_ts r <= t)).
Proof.
  cbv zeta. rewrite getConditionHistory_query.
  split; [by intros ->|]. split; [|split; [apply history_read_true|]].
  2: { intros r. apply in_range_true. }
  intros ->.
  set (found := List.filter (in_range req) (sensor_data db)).
  destruct (sorted_top ts_desc 500 found) as (Hsorted & Hlen & Hsub & Htop).
  exists (take 500 (merge_sort ts_desc found)). eexists.
  split; [done|]. split_and!; try done.
  - apply Forall2_fmap_r, Forall_Forall2_diag, Forall_forall.
    intros r _. apply sensor_row_columns.
  - intros r Hr. apply (elem_of_submseteq _ _ _ Hr) in Hsub.
    apply elem_of_List_filter in Hsub as [Hin Hrange]. split; [done|].
    by apply in_range_true in Hrange.
  - trans found; [done|]. apply sublist_submseteq, sublist_List_filter.
  - intros r Hr Hrange. apply Htop. by apply elem_of_List_filter.
Qed.

(** X22: [getConditionHistory] does not compare its bounds: with a [start]
    the engine reads as later than the [end] it answers 200 with an empty
    array. *)
Theorem getConditionHistory_crossed_bounds db req s e :
  let start := prop (query req) "start" in
  let end_ := prop (query req) "end" in
  key_in (pg_param (prop (params req) "id")) = true ->
  ToBoolean start = true -> ToBoolean end_ = true ->
  timestamp_in start = Some s -> timestamp_in end_ = Some e ->
  e < s ->
  getConditionHistory db req = ({| status := 200; json := Rows [] |}, db).
Proof.
  intros start end_ Hk Hs He Its Ite Hlt.
  rewrite getConditionHistory_query.
  rewrite (proj2 (history_read_true req)).
  2: { fold start end_. rewrite Its, Ite. eauto. }
  rewrite filter_no_hit; [done|].
  intros r _. apply not_true_is_false. intros Hr.
  apply in_range_true in Hr as (_ & Hs' & He').
  destruct (Hs' Hs) as (t1 & E1 & ?). destruct (He' He) as (t2 & E2 & ?).
  fold start in E1. fold end_ in E2. simplify_eq. lia.
Qed.

End History.

(** ** getAquariumAlerts *)

Section AlertList.
Context `{Postgres}.

(** X13: [getAquariumAlerts] answers 500 when the engine cannot read the
    path id as a key.  Otherwise it answers 200 with alerts of the store,
    each of the path's aquarium, every row holding the columns of its
    alert, in descending order of [ts], none twice and at most 100; an
    alert of the aquarium that is left out is no later than any of them.
    The store is not changed. *)
Theorem getAquariumAlerts_latest db req :
  let id := pg_param (prop (params req) "id") in
  let of_aquarium a := sql_eq (al_device_id a) id in
  (key_in id = false -> getAquariumAlerts db req = (internal_error, db)) /\
  (key_in id = true ->
   exists (rows : list Alert) (answer : list (gmap string JsVal)),
     getAquariumAlerts db req
       = ({| status := 200; json := Rows answer |}, db) /\
     Forall2 (fun a row =>
         row !! "id" = Some (al_id a) /\
         row !! "device_id" = Some (al_device_id a) /\
         row !! "ts" = Some (JDate (al_ts a)) /\
         row !! "resolved" = Some (al_resolved a) /\
         row !! "resolved_at" = Some (timestamp_cell (al_resolved_at a)) /\
         forall k, k ∉ ["id"; "device_id"; "ts"; "resolved"; "resolved_at"] ->
                   row !! k = al_others a !! k)
       rows answer /\
     (forall a, a ∈ rows -> a ∈ alerts db /\ of_aquarium a = true) /\
     StronglySorted (fun a a' => al_ts a' <= al_ts a) rows /\
     (length rows <= 100)%nat /\
     rows ⊆+ alerts db /\
     (forall a, a ∈ alerts db -> of_aquarium a = true ->
        a ∈ rows \/
        (length rows = 100%nat /\ forall a', a' ∈ rows -> al_ts a <= al_ts a'))).
Proof.
  intros id of_aquarium. unfold getAquariumAlerts, select_alerts. fold id.
  split; [by intros ->|]. intros ->.
  set (found := List.filter of_aquarium (alerts db)).
  destruct (sorted_top alert_desc 100 found) as (Hsorted & Hlen & Hsub & Htop).
  exists (take 100 (merge_sort alert_desc found)). eexists.
  split; [done|]. split_and!; try done.
  - apply Forall2_fmap_r, Forall_Forall2_diag, Forall_forall.
    intros a _. apply alert_row_columns.
  - intros a Ha. apply (elem_of_submseteq _ _ _ Ha) in Hsub.
    by apply elem_of_List_filter in Hsub.
  - trans found; [done|]. apply sublist_submseteq, sublist_List_filter.
  - intros a Ha Hof. apply Htop. by apply elem_of_List_filter.
Qed.

End AlertList.

(** ** getDailyConsumption *)



Section Consumption.
Context `{Postgres}.







End Consumption.

(** ** triggerFeed, then getDailyConsumption *)

Section Feeding.
Context `{Postgres}.




(** ** The child resources of an aquarium the store does not know *)

(** X19: the four listings under an aquarium never answer 404: for a path
    id the engine reads as a key and that no schedule, alert, reading or
    feeding log carries (so also for an aquarium that does not exist) each
    answers 200 with an empty array, the condition history when it can
    read the bounds given; a path id the engine cannot read is answered
    500 by each.  The store is left as it was. *)
Theorem listings_of_unknown_aquarium db req :
  let id := pg_param (prop (params req) "id") in
  (key_in id = true ->
   ((forall s, s ∈ schedules db -> sql_eq (sc_device_id s) id = false) ->
    getFeedingSettings db req = ({| status := 200; json := Rows [] |}, db)) /\
   ((forall a, a ∈ alerts db -> sql_eq (al_device_id a) id = false) ->
    getAquariumAlerts db req = ({| status := 200; json := Rows [] |}, db)) /\
   ((forall r, r ∈ sensor_data db -> sql_eq (sd_device_id r) id = false) ->
    getConditionHistory db req =
      (if history_read req then {| status := 200; json := Rows [] |}
       else internal_error, db)) /\
   ((forall l, l ∈ feeding_logs db -> sql_eq (fl_device_id l) id = false) ->
    getDailyConsumption db req = ({| status := 200; json := Rows [] |}, db))) /\
  (key_in id = false ->
   getFeedingSettings db req = (internal_error, db) /\
   getAquariumAlerts db req = (internal_error, db) /\
   getConditionHistory db req = (internal_error, db) /\
   getDailyConsumption db req = (internal_error, db)).
Proof.
  intros id. split.
  - intros Hk. split_and!; intros Hno.
    + unfold getFeedingSettings, select_schedules. fold id.
      rewrite Hk, (filter_no_hit _ _ Hno).
      pose proof (schedules_order_perm []) as Hp.
      apply Permutation_nil_r in Hp. by rewrite Hp.
    + unfold getAquariumAlerts, select_alerts. fold id.
      by rewrite Hk, (filter_no_hit _ _ Hno).
    + rewrite getConditionHistory_query. destruct (history_read req); [|done].
      rewrite filter_no_hit; [done|].
      intros r Hr. unfold in_range. fold id. by rewrite (Hno r Hr).
    + unfold getDailyConsumption, select_daily_consumption. fold id.
      by rewrite Hk, (filter_no_hit _ _ Hno).
  - intros Hk. split_and!.
    + unfold getFeedingSettings, select_schedules. fold id. by rewrite Hk.
    + unfold getAquariumAlerts, select_alerts. fold id. by rewrite Hk.
    + rewrite getConditionHistory_query. unfold history_read. fold id.
      by rewrite Hk.
    + unfold getDailyConsumption, select_daily_consumption. fold id. by rewrite Hk.
Qed.

End Feeding.

(** * Further properties of the controller *)

Lemma aquarium_created_row_part a : aquarium_created_row a ⊆ aquarium_row a.
Proof.
  unfold aquarium_created_row, aquarium_row. simpl.
  repeat apply insert_mono. apply map_empty_subseteq.
Qed.

Section Aquariums.
Context `{Postgres}.

(** ** getAquarium *)

Lemma getAquarium_missing db req :
  key_in (pg_param (prop (params req) "id")) = true ->
  (forall a, a ∈ aquariums db -> names_aquarium (prop (params req) "id") a = false) ->
  getAquarium db req = (error 404 "not_found", db).
Proof.
  intros Hk Hno. rewrite getAquarium_rows, Hk. cbv zeta.
  by rewrite (filter_no_hit _ _ Hno).
Qed.

Lemma getAquarium_first db req a :
  head (List.filter (names_aquarium (prop (params req) "id")) (aquariums db)) = Some a ->
  getAquarium db req = ({| status := 200; json := Row (aquarium_row a) |}, db).
Proof.
  intros Ha. rewrite getAquarium_rows. cbv zeta.
  destruct (List.filter _ (aquariums db)) as [| b l] eqn:E; [done|].
  injection Ha as ->.
  assert (Hb : a ∈ List.filter (names_aquarium (prop (params req) "id")) (aquariums db))
    by (rewrite E; apply list_elem_of_here).
  apply elem_of_List_filter in Hb as [_ Hb]. unfold names_aquarium in Hb.
  by rewrite (sql_eq_key_in _ _ Hb).
Qed.

Lemma getAquarium_unread db req :
  key_in (pg_param (prop (params req) "id")) = false ->
  getAquarium db req = (internal_error, db).
Proof. intros Hk. by rewrite getAquarium_rows, Hk. Qed.

(** X1: [getAquarium] answers 500 when the engine cannot read the path id
    as a key.  Otherwise it answers 404 [not_found] exactly when the path
    id names no aquarium, and else 200 with every column of the first
    aquarium the id names.  The store is never changed. *)
Theorem getAquarium_found_or_404 db req :
  let id := pg_param (prop (params req) "id") in
  let named := names_aquarium (prop (params req) "id") in
  (key_in id = false -> getAquarium db req = (internal_error, db)) /\
  (key_in id = true ->
   (status (getAquarium db req).1 = 404%nat <->
    forall a, a ∈ aquariums db -> named a = false) /\
   ((forall a, a ∈ aquariums db -> named a = false) ->
    getAquarium db req = (error 404 "not_found", db))) /\
  (forall a, head (List.filter named (aquariums db)) = Some a ->
   exists row,
     getAquarium db req = ({| status := 200; json := Row row |}, db) /\
     row !! "id" = Some (aq_id a) /\ row !! "user_id" = Some (aq_user_id a) /\
     row !! "name" = Some (aq_name a) /\
     row !! "size_litres" = Some (aq_size_litres a) /\
     row !! "created_at" = Some (JDate (aq_created_at a)) /\
     row !! "feeding_volume_grams" = Some (aq_feeding_volume_grams a) /\
     row !! "feeding_period_hours" = Some (aq_feeding_period_hours a)) /\
  (getAquarium db req).2 = db.
Proof.
  intros id named. split_and!.
  - apply getAquarium_unread.
  - intros Hk. split; [split|].
    + intros Hst. apply no_hit_iff_filter_nil.
      destruct (List.filter named (aquariums db)) as [| a l] eqn:E; [done|].
      rewrite (getAquarium_first db req a) in Hst; [done|].
      fold named. by rewrite E.
    + intros Hno. by rewrite getAquarium_missing.
    + by apply getAquarium_missing.
  - intros a Ha. eexists. split; [by apply getAquarium_first|].
    apply aquarium_row_columns.
  - rewrite getAquarium_rows. destruct (key_in _); [|done]. by cbv zeta.
Qed.

(** ** createAquarium, then getAquarium and listAquariums *)

Lemma created_aquarium_Some now db req a :
  created_aquarium now db req = Some a ->
  exists u n s,
    write aquariums_user_id (prop (body req) "user_id") = Some u /\
    write aquariums_name (prop (body req) "name") = Some n /\
    write aquariums_size_litres (prop (body req) "size_litres") = Some s /\
    admits_aquarium db a = true /\
    a = new_aquarium now db u n s.
Proof.
  unfold created_aquarium. intros Ha.
  destruct (write aquariums_user_id _) as [u|]; simpl in Ha; [|done].
  destruct (write aquariums_name _) as [n|]; simpl in Ha; [|done].
  destruct (write aquariums_size_litres _) as [s|]; simpl in Ha; [|done].
  destruct (admits_aquarium db _) eqn:Ea; [|done].
  injection Ha as <-. by eexists u, n, s.
Qed.

Lemma createAquarium_created now db req a :
  ToBoolean (prop (body req) "user_id") = true ->
  ToBoolean (prop (body req) "name") = true ->
  created_aquarium now db req = Some a ->
  createAquarium now db req
  = ({| status := 201; json := Row (aquarium_created_row a) |},
     with_aquariums db (aquariums db ++ [a]) (aquariums_seq db + 1)).
Proof.
  intros Hu Hn Ha. pose proof (createAquarium_passes now db req Hu Hn) as Hc.
  by rewrite Ha in Hc.
Qed.

(** X2: an aquarium that was created is fetched back: when the engine
    accepted the creation and the path id names the generated id and no
    older aquarium, [getAquarium] answers 200 with a row that has every
    field of the created row, with the same value: the generated id, the
    creation time, and user, name and size as the columns read them. *)
Theorem createAquarium_then_getAquarium now db req get a :
  ToBoolean (prop (body req) "user_id") = true ->
  ToBoolean (prop (body req) "name") = true ->
  created_aquarium now db req = Some a ->
  sql_eq (generated_id (aquariums_seq db)) (pg_param (prop (params get) "id")) = true ->
  (forall a, a ∈ aquariums db -> names_aquarium (prop (params get) "id") a = false) ->
  exists created fetched db',
    createAquarium now db req = ({| status := 201; json := Row created |}, db') /\
    getAquarium db' get = ({| status := 200; json := Row fetched |}, db') /\
    created ⊆ fetched /\
    created !! "id" = Some (generated_id (aquariums_seq db)) /\
    created !! "created_at" = Some (JDate (default_timestamp now)) /\
    created !! "user_id" = Some (aq_user_id a) /\
    created !! "name" = Some (aq_name a) /\
    created !! "size_litres" = Some (aq_size_litres a) /\
    value_in aquariums_user_id (prop (body req) "user_id") = Some (aq_user_id a) /\
    value_in aquariums_name (prop (body req) "name") = Some (aq_name a).
Proof.
  intros Hu Hn Ha Hid Hold.
  eexists _, (aquarium_row a), _.
  split; [by apply createAquarium_created|].
  apply created_aquarium_Some in Ha as (u & n & s & Hwu & Hwn & Hws & Hadm & ->).
  rewrite write_truthy in Hwu, Hwn by done.
  split_and!; try done.
  - apply getAquarium_first. simpl.
    rewrite List.filter_app, (filter_no_hit _ _ Hold). simpl.
    unfold names_aquarium at 1. simpl. by rewrite Hid.
  - apply aquarium_created_row_part.
Qed.

Lemma listAquariums_rows db req :
  let wanted := prop (query req) "user_id" in
  listAquariums db req =
    if ToBoolean wanted
    then
      if key_in wanted
      then ({| status := 200;
               json := Rows (aquarium_created_row <$>
                         aquariums_order
                           (List.filter (fun a => sql_eq (aq_user_id a) wanted)
                              (aquariums db))) |}, db)
      else (internal_error, db)
    else ({| status := 200;
             json := Rows (aquarium_created_row <$> aquariums_order (aquariums db)) |},
          db).
Proof.
  intros wanted. unfold listAquariums, select_aquariums. fold wanted.
  destruct (ToBoolean wanted) eqn:E; simpl.
  - rewrite (pg_param_truthy _ E). by destruct (key_in wanted).
  - by rewrite filter_all.
Qed.

(** X4: a listing with a [user_id] filter the engine cannot read as a key
    is answered 500.  With one it reads, the listing holds exactly the
    aquariums of that user, each once for each time it is stored, in the
    order the engine hands them back; an empty [user_id] is no filter at
    all and every aquarium is listed.  Every row holds the five columns
    the query names, and not the two feeding columns. *)
Theorem listAquariums_filter db req :
  let wanted := prop (query req) "user_id" in
  (ToBoolean wanted = true -> key_in wanted = false ->
   listAquariums db req = (internal_error, db)) /\
  (ToBoolean wanted = false \/ key_in wanted = true ->
   exists (rows : list Aquarium) (answer : list (gmap string JsVal)),
     listAquariums db req = ({| status := 200; json := Rows answer |}, db) /\
     Forall2 (fun a row =>
         row !! "id" = Some (aq_id a) /\ row !! "user_id" = Some (aq_user_id a) /\
         row !! "name" = Some (aq_name a) /\
         row !! "size_litres" = Some (aq_size_litres a) /\
         row !! "created_at" = Some (JDate (aq_created_at a)) /\
         row !! "feeding_volume_grams" = None /\
         row !! "feeding_period_hours" = None)
       rows answer /\
     (ToBoolean wanted = true ->
      rows ≡ₚ List.filter (fun a => sql_eq (aq_user_id a) wanted) (aquariums db) /\
      forall a, a ∈ rows <-> a ∈ aquariums db /\ sql_eq (aq_user_id a) wanted = true) /\
     (ToBoolean wanted = false -> rows ≡ₚ aquariums db)).
Proof.
  intros wanted. rewrite listAquariums_rows. fold wanted. cbv zeta. split.
  - by intros -> ->.
  - intros Hw.
    assert (Hcols : forall l : list Aquarium,
              Forall2 (fun a row =>
                  row !! "id" = Some (aq_id a) /\ row !! "user_id" = Some (aq_user_id a) /\
                  row !! "name" = Some (aq_name a) /\
                  row !! "size_litres" = Some (aq_size_litres a) /\
                  row !! "created_at" = Some (JDate (aq_created_at a)) /\
                  row !! "feeding_volume_grams" = None /\
                  row !! "feeding_period_hours" = None)
                l (aquarium_created_row <$> l)).
    { intros l. apply Forall2_fmap_r, Forall_Forall2_diag, Forall_forall.
      intros a _. by split_and!. }
    destruct (ToBoolean wanted) eqn:Et.
    + destruct Hw as [|Hk]; [done|]. rewrite Hk.
      eexists _, _. split; [done|]. split; [apply Hcols|]. split; [|done].
      intros _. split; [apply aquariums_order_perm|].
      intros a. rewrite aquariums_order_perm.
      apply (elem_of_List_filter (fun a => sql_eq (aq_user_id a) wanted)).
    + eexists _, _. split; [done|]. split; [apply Hcols|]. split; [done|].
      intros _. apply aquariums_order_perm.
Qed.

(** X3: after the engine accepted a creation, a listing with no [user_id]
    filter, or with one that equals the [user_id] stored, holds the rows
    of the listing from before and the created row, in the order the
    engine hands them back; a listing with a filter that does not equal
    it holds the rows from before; a listing with a filter the engine
    cannot read is answered 500 before and after. *)
Theorem createAquarium_then_listAquariums now db req lst a :
  let wanted := prop (query lst) "user_id" in
  let db' := (createAquarium now db req).2 in
  ToBoolean (prop (body req) "user_id") = true ->
  ToBoolean (prop (body req) "name") = true ->
  created_aquarium now db req = Some a ->
  (createAquarium now db req).1
    = {| status := 201; json := Row (aquarium_created_row a) |} /\
  aquarium_created_row a !! "id" = Some (generated_id (aquariums_seq db)) /\
  aquarium_created_row a !! "user_id" = Some (aq_user_id a) /\
  aquarium_created_row a !! "name" = Some (aq_name a) /\
  value_in aquariums_user_id (prop (body req) "user_id") = Some (aq_user_id a) /\
  (ToBoolean wanted = true -> key_in wanted = false ->
   listAquariums db lst = (internal_error, db) /\
   listAquariums db' lst = (internal_error, db')) /\
  (ToBoolean wanted = false \/ key_in wanted = true ->
   exists before after,
     listAquariums db lst = ({| status := 200; json := Rows before |}, db) /\
     listAquariums db' lst = ({| status := 200; json := Rows after |}, db') /\
     (ToBoolean wanted = false \/ sql_eq (aq_user_id a) wanted = true ->
      after ≡ₚ before ++ [aquarium_created_row a] /\
      aquarium_created_row a ∈ after) /\
     (ToBoolean wanted = true -> sql_eq (aq_user_id a) wanted = false ->
      after ≡ₚ before)).
Proof.
  intros wanted db' Hu Hn Ha. subst db'.
  rewrite (createAquarium_created now db req a Hu Hn Ha). simpl.
  rewrite !listAquariums_rows. fold wanted. cbv zeta. simpl.
  split; [done|].
  assert (Hid : aq_id a = generated_id (aquariums_seq db) /\
                value_in aquariums_user_id (prop (body req) "user_id")
                = Some (aq_user_id a)).
  { apply created_aquarium_Some in Ha as (u & n & s & Hwu & _ & _ & _ & ->).
    rewrite write_truthy in Hwu by done. done. }
  destruct Hid as [Hid Hwu]. split; [by rewrite <- Hid|]. do 2 (split; [done|]).
  split; [done|]. split; [by intros -> ->|].
  intros Hw. destruct (ToBoolean wanted) eqn:Et.
  - destruct Hw as [|Hk]; [done|]. rewrite Hk.
    eexists _, _. split; [done|]. split; [done|].
    rewrite !aquariums_order_perm, List.filter_app, fmap_app. simpl.
    split.
    + intros [|Hs]; [done|]. rewrite Hs. split; [done|].
      apply elem_of_app. right. apply list_elem_of_here.
    + intros _ Hs. rewrite Hs. simpl. by rewrite app_nil_r.
  - eexists _, _. split; [done|]. split; [done|].
    rewrite !aquariums_order_perm, fmap_app. simpl. split; [|done].
    intros _. split; [done|].
    apply elem_of_app. right. apply list_elem_of_here.
Qed.

(** ** deleteAquarium *)

Lemma deleteAquarium_rows db req :
  let named := names_aquarium (prop (params req) "id") in
  deleteAquarium db req =
    if key_in (pg_param (prop (params req) "id"))
    then
      (match List.filter named (aquariums db) with
       | [] => error 404 "not_found"
       | a :: _ =>
           {| status := 200;
              json := Row (list_to_map [("status", JStr "deleted"); ("id", aq_id a)]) |}
       end,
       with_aquariums db (List.filter (fun a => negb (named a)) (aquariums db))
         (aquariums_seq db))
    else (internal_error, db).
Proof.
  intros named. unfold deleteAquarium, delete_aquarium. cbv zeta.
  destruct (key_in _); [|done]. fold (names_aquarium (prop (params req) "id")).
  fold named. destruct (List.filter named (aquariums db)) as [| a l]; [done|].
  simpl. unfold prop. by rewrite lookup_singleton_eq.
Qed.

Lemma deleteAquarium_missing db req :
  key_in (pg_param (prop (params req) "id")) = true ->
  (forall a, a ∈ aquariums db -> names_aquarium (prop (params req) "id") a = false) ->
  deleteAquarium db req = (error 404 "not_found", db).
Proof.
  intros Hk Hno. rewrite deleteAquarium_rows, Hk. cbv zeta.
  rewrite (filter_no_hit _ _ Hno), (filter_negb_no_hit _ _ Hno).
  by rewrite with_aquariums_same.
Qed.

(** X5: [deleteAquarium] answers 500 and leaves the store as it was when
    the engine cannot read the path id as a key.  Otherwise it answers 404
    [not_found] and leaves the store as it was when the path id names no
    aquarium, and else 200 with status [deleted] and the id of the first
    aquarium named; the aquariums left are those the id does not name, in
    their order. *)
Theorem deleteAquarium_removes db req :
  let id := pg_param (prop (params req) "id") in
  let named := names_aquarium (prop (params req) "id") in
  let db' := (deleteAquarium db req).2 in
  (key_in id = false -> deleteAquarium db req = (internal_error, db)) /\
  (key_in id = true ->
   ((forall a, a ∈ aquariums db -> named a = false) ->
    deleteAquarium db req = (error 404 "not_found", db)) /\
   (forall a, head (List.filter named (aquariums db)) = Some a ->
    (deleteAquarium db req).1
      = {| status := 200;
           json := Row (list_to_map [("status", JStr "deleted"); ("id", aq_id a)]) |}) /\
   (forall a, a ∈ aquariums db' <-> a ∈ aquariums db /\ named a = false) /\
   aquariums db' `sublist_of` aquariums db).
Proof.
  intros id named db'. subst db'. split.
  - intros Hk. rewrite deleteAquarium_rows. fold id. by rewrite Hk.
  - intros Hk. split_and!.
    + by apply deleteAquarium_missing.
    + intros a Ha. rewrite deleteAquarium_rows. fold id. rewrite Hk. cbv zeta.
      fold named. destruct (List.filter named (aquariums db)) as [| b l]; [done|].
      by injection Ha as ->.
    + intros a. rewrite deleteAquarium_rows. fold id. rewrite Hk. simpl.
      rewrite elem_of_List_filter. fold named. by rewrite negb_true_iff.
    + rewrite deleteAquarium_rows. fold id. rewrite Hk. simpl.
      apply sublist_List_filter.
Qed.

(** X6: once [deleteAquarium] has run for an id the engine reads as a
    key, whatever it answered, [getAquarium] for that id answers 404 and
    so does a second [deleteAquarium], which changes nothing more; for an
    id the engine cannot read all three answer 500. *)
Theorem deleteAquarium_then_404 db req get :
  let id := pg_param (prop (params req) "id") in
  let db' := (deleteAquarium db req).2 in
  prop (params get) "id" = prop (params req) "id" ->
  getAquarium db' get =
    (if key_in id then error 404 "not_found" else internal_error, db') /\
  deleteAquarium db' req =
    (if key_in id then error 404 "not_found" else internal_error, db') /\
  (key_in id = false -> deleteAquarium db req = (internal_error, db)).
Proof.
  intros id db' Hid.
  destruct (key_in id) eqn:Hk.
  - assert (Hgone : forall a, a ∈ aquariums db' ->
                      names_aquarium (prop (params req) "id") a = false).
    { intros a. subst db'. rewrite deleteAquarium_rows. fold id. rewrite Hk. simpl.
      intros [_ Ha]%elem_of_List_filter. by apply negb_true_iff in Ha. }
    split_and!; [| |done].
    + apply getAquarium_missing; by rewrite Hid.
    + by apply deleteAquarium_missing.
  - split_and!.
    + apply getAquarium_unread. by rewrite Hid.
    + rewrite (deleteAquarium_rows db'). fold id. by rewrite Hk.
    + intros _. rewrite deleteAquarium_rows. fold id. by rewrite Hk.
Qed.

(** X20: an aquarium that was created can be deleted again: when the
    engine accepted the creation and the path names the generated id,
    which no older aquarium has, [deleteAquarium] answers 200 with that id
    and the aquariums are those from before the creation. *)
Theorem createAquarium_then_deleteAquarium now db req del a :
  let db1 := (createAquarium now db req).2 in
  let db2 := (deleteAquarium db1 del).2 in
  ToBoolean (prop (body req) "user_id") = true ->
  ToBoolean (prop (body req) "name") = true ->
  created_aquarium now db req = Some a ->
  sql_eq (generated_id (aquariums_seq db)) (pg_param (prop (params del) "id")) = true ->
  (forall a, a ∈ aquariums db -> names_aquarium (prop (params del) "id") a = false) ->
  (createAquarium now db req).1
    = {| status := 201; json := Row (aquarium_created_row a) |} /\
  aquariums db1 = aquariums db ++ [a] /\
  (deleteAquarium db1 del).1
    = {| status := 200;
         json := Row (list_to_map [("status", JStr "deleted");
                                   ("id", generated_id (aquariums_seq db))]) |} /\
  aquariums db2 = aquariums db.
Proof.
  intros db1 db2 Hu Hn Ha Hid Hold. subst db2 db1.
  rewrite (createAquarium_created now db req a Hu Hn Ha). simpl.
  apply created_aquarium_Some in Ha as (u & n & s & _ & _ & _ & _ & ->).
  rewrite deleteAquarium_rows, (sql_eq_key_in _ _ Hid). cbv zeta. simpl aquariums.
  rewrite !List.filter_app, (filter_no_hit _ _ Hold), (filter_negb_no_hit _ _ Hold).
  simpl. unfold names_aquarium at 1 2. simpl. rewrite Hid. simpl.
  split_and!; try done. by rewrite app_nil_r.
Qed.

End Aquariums.

Section SettingLists.
Context `{Postgres}.

(** ** createFeedingSetting, then getFeedingSettings and deleteFeedingSetting *)

Lemma createFeedingSetting_created db req s :
  ToBoolean (prop (body req) "type") = true ->
  created_schedule db req = Some s ->
  createFeedingSetting db req
  = ({| status := 201; json := Row (schedule_row s) |},
     with_schedules db (schedules db ++ [s]) (schedules_seq db + 1)).
Proof.
  intros Ht Hs. pose proof (createFeedingSetting_passes db req Ht) as Hc.
  by rewrite Hs in Hc.
Qed.

(** X11: after the engine accepted the creation of a schedule, the listing
    of an aquarium whose id equals the [device_id] stored holds the rows of
    the listing from before and the created row, in the order the engine
    hands them back; the listing of any other aquarium holds the rows from
    before.  The created row has the path id of the creation as the
    [device_id] column reads it. *)
Theorem createFeedingSetting_then_getFeedingSettings db req lst s :
  let listed := pg_param (prop (params lst) "id") in
  let db' := (createFeedingSetting db req).2 in
  ToBoolean (prop (body req) "type") = true ->
  created_schedule db req = Some s ->
  key_in listed = true ->
  exists before after,
    getFeedingSettings db lst = ({| status := 200; json := Rows before |}, db) /\
    (createFeedingSetting db req).1
      = {| status := 201; json := Row (schedule_row s) |} /\
    getFeedingSettings db' lst = ({| status := 200; json := Rows after |}, db') /\
    (sql_eq (sc_device_id s) listed = true ->
     after ≡ₚ before ++ [schedule_row s] /\ schedule_row s ∈ after) /\
    (sql_eq (sc_device_id s) listed = false -> after ≡ₚ before) /\
    schedule_row s !! "id" = Some (generated_id (schedules_seq db)) /\
    schedule_row s !! "device_id" = Some (sc_device_id s) /\
    write schedules_device_id (prop (params req) "id") = Some (sc_device_id s).
Proof.
  intros listed db' Ht Hs Hk. subst db'.
  rewrite (createFeedingSetting_created db req s Ht Hs). simpl.
  unfold getFeedingSettings, select_schedules. fold listed. rewrite Hk. simpl.
  eexists _, _. split; [done|]. split; [done|]. split; [done|].
  rewrite !schedules_order_perm, List.filter_app, fmap_app. simpl.
  apply created_schedule_Some in Hs
    as (d & n & t & i & v & e & sd & ed & Hd & _ & _ & _ & _ & _ & _ & _ & _ & ->).
  split_and!; try done.
  - simpl. intros Heq. rewrite Heq. split; [done|].
    apply elem_of_app. right. apply list_elem_of_here.
  - simpl. intros Heq. rewrite Heq. simpl. by rewrite app_nil_r.
Qed.

(** X12: a schedule that was created can be deleted again through its
    aquarium: when the engine accepted the creation and the path names
    the generated id, which no older schedule has, and the aquarium
    stored, the delete is answered 200 and the schedules are those from
    before the creation. *)
Theorem createFeedingSetting_then_deleteFeedingSetting db req del s :
  let db1 := (createFeedingSetting db req).2 in
  let db2 := (deleteFeedingSetting db1 del).2 in
  ToBoolean (prop (body req) "type") = true ->
  created_schedule db req = Some s ->
  sql_eq (generated_id (schedules_seq db))
    (pg_param (prop (params del) "settingId")) = true ->
  sql_eq (sc_device_id s) (pg_param (prop (params del) "id")) = true ->
  names_no_schedule db (prop (params del) "settingId") ->
  (createFeedingSetting db req).1
    = {| status := 201; json := Row (schedule_row s) |} /\
  (deleteFeedingSetting db1 del).1
    = {| status := 200; json := Row {[ "status" := JStr "deleted" ]} |} /\
  schedules db2 = schedules db /\
  schedules db1 = schedules db ++ [s].
Proof.
  intros db1 db2 Ht Hs Hid Hdev Hfresh. subst db2 db1.
  rewrite (createFeedingSetting_created db req s Ht Hs). simpl.
  assert (Hsid : sc_id s = generated_id (schedules_seq db)).
  { apply created_schedule_Some in Hs
      as (d & n & t & i & v & e & sd & ed & _ & _ & _ & _ & _ & _ & _ & _ & _ & ->).
    done. }
  assert (Ho : owns_schedule
            (with_schedules db (schedules db ++ [s]) (schedules_seq db + 1))
            (prop (params del) "settingId") (prop (params del) "id")).
  { exists s. split_and!; [|by rewrite Hsid|done].
    simpl. apply elem_of_app. right. apply list_elem_of_here. }
  rewrite (deleteFeedingSetting_passes _ _ Ho). simpl.
  split_and!; try done.
  rewrite List.filter_app. simpl. rewrite Hsid, Hid. simpl.
  rewrite app_nil_r. by apply filter_negb_no_hit.
Qed.

End SettingLists.

(** * The properties on a store of one aquarium *)

Section Examples.
#[local] Existing Instance integer_literals.
#[local] Existing Instance integer_keys.

(** ** createAquarium *)

Lemma createAquarium_validation_witness :
  createAquarium 7 empty_db (without "name" tank_a)
    = (error 400 "user_id and name required", empty_db) /\
  (exists row,
     (createAquarium 7 empty_db tank_a).1 = {| status := 201; json := Row row |} /\
     row !! "id" = Some (num 1) /\
     row !! "created_at" = Some (JDate 7) /\
     row !! "user_id" = Some (num 1) /\
     row !! "size_litres" = Some (num 50) /\
     length (aquariums (createAquarium 7 empty_db tank_a).2) = 1%nat) /\
  (createAquarium 7 empty_db tank_of_user_abc).1 = internal_error /\
  aquariums (createAquarium 7 empty_db tank_of_user_abc).2 = [].
Proof.
  split_and!.
  - apply (proj1 (createAquarium_validation 7 empty_db (without "name" tank_a))).
    right; left. reflexivity.
  - destruct (proj2 (createAquarium_validation 7 empty_db tank_a) eq_refl eq_refl)
      as [Hc _].
    change (created_aquarium 7 empty_db tank_a)
      with (Some (new_aquarium 7 empty_db (num 1) (JStr "Tank A") (num 50))) in Hc.
    destruct Hc as (row & E & Hid & Hts & Hu & _ & _ & _ & Hs & _ & _ & Haq).
    exists row. split_and!; try assumption. rewrite Haq. reflexivity.
  - destruct (proj2 (createAquarium_validation 7 empty_db tank_of_user_abc)
                eq_refl eq_refl) as [Hc _].
    change (created_aquarium 7 empty_db tank_of_user_abc) with (@None Aquarium) in Hc.
    apply Hc.
  - destruct (proj2 (createAquarium_validation 7 empty_db tank_of_user_abc)
                eq_refl eq_refl) as [Hc _].
    change (created_aquarium 7 empty_db tank_of_user_abc) with (@None Aquarium) in Hc.
    apply Hc.
Defined.

(** C7, as stated, fails: [{ user_id: 0, name: "Tank A" }] has both fields
    present and is answered 400, with nothing inserted. *)
Lemma createAquarium_present_but_rejected :
  body tank_of_user_0 !! "user_id" = Some (num 0) /\
  body tank_of_user_0 !! "name" = Some (JStr "Tank A") /\
  createAquarium 7 empty_db tank_of_user_0
    = (error 400 "user_id and name required", empty_db) /\
  status (createAquarium 7 empty_db tank_of_user_0).1 <> 201%nat.
Proof. repeat split; try reflexivity. vm_compute. discriminate. Qed.

Lemma createAquarium_falsy_as_absent_witness :
  createAquarium 7 empty_db tank_of_user_0
    = (error 400 "user_id and name required", empty_db) /\
  createAquarium 7 empty_db tank_of_user_0
    = createAquarium 7 empty_db (without "user_id" tank_of_user_0).
Proof.
  split.
  - apply (proj1 (createAquarium_falsy_as_absent 7 empty_db tank_of_user_0)).
    left. reflexivity.
  - apply (proj1 (proj2 (createAquarium_falsy_as_absent 7 empty_db tank_of_user_0))).
    left. reflexivity.
Defined.

(** ** createFeedingSetting *)

Lemma createFeedingSetting_falsy_to_null_witness :
  ToBoolean (prop (body every_zero_hours) "type") = true /\
  (exists row,
     (createFeedingSetting one_tank every_zero_hours).1
       = {| status := 201; json := Row row |} /\
     row !! "interval_hours" = Some JNull /\
     row !! "enabled" = Some (JBool false)) /\
  (createFeedingSetting one_tank maybe_enabled).1 = internal_error /\
  schedules (createFeedingSetting one_tank maybe_enabled).2 = schedules one_tank.
Proof.
  split; [reflexivity|]. split_and!.
  - destruct (createFeedingSetting_falsy_to_null one_tank every_zero_hours eq_refl)
      as [Hc _].
    destruct (created_schedule one_tank every_zero_hours) as [s|] eqn:Es;
      [|discriminate Es].
    destruct Hc as (row & E & _ & _ & Hi & _ & He & _ & _ & _ & _ & _ & _ & _
                    & Hi0 & _ & He0 & _).
    exists row. split_and!; [exact E | |].
    + rewrite Hi, Hi0; reflexivity.
    + rewrite He, He0; reflexivity.
  - destruct (createFeedingSetting_falsy_to_null one_tank maybe_enabled eq_refl)
      as [Hc _].
    change (created_schedule one_tank maybe_enabled) with (@None Schedule) in Hc.
    apply Hc.
  - destruct (createFeedingSetting_falsy_to_null one_tank maybe_enabled eq_refl)
      as [Hc _].
    change (created_schedule one_tank maybe_enabled) with (@None Schedule) in Hc.
    apply Hc.
Defined.

Lemma createFeedingSetting_type_witness :
  createFeedingSetting one_tank (request "3" [("interval_hours", num 12)])
    = (error 400 "type required (interval|daily_times)", one_tank) /\
  (exists s,
     created_schedule one_tank every_zero_hours = Some s /\
     (createFeedingSetting one_tank every_zero_hours).1
       = {| status := 201; json := Row (schedule_row s) |} /\
     sc_type s = JStr "interval" /\ sc_device_id s = num 3 /\ sc_id s = num 2) /\
  status (createFeedingSetting one_tank maybe_enabled).1 = 500%nat.
Proof.
  destruct (createFeedingSetting_type one_tank (request "3" [("interval_hours", num 12)]))
    as (Hreq & _).
  destruct (createFeedingSetting_type one_tank every_zero_hours) as (_ & Hacc).
  destruct (createFeedingSetting_type one_tank maybe_enabled) as (_ & Hrej).
  split_and!.
  - apply Hreq. reflexivity.
  - destruct (Hacc eq_refl) as (_ & _ & _ & Hs).
    eexists. split; [reflexivity|].
    destruct (Hs _ eq_refl) as (E & _). split; [exact E|]. by split_and!.
  - destruct (Hrej eq_refl) as (_ & H500 & _). apply H500. reflexivity.
Defined.

(** ** triggerFeed *)

Lemma triggerFeed_log_witness :
  (exists row,
     (triggerFeed 7 one_tank feed_of_0_grams).1
       = {| status := 201; json := Feeding (Row row) |} /\
     row !! "volume_grams" = Some JNull /\
     row !! "actor" = Some (JStr "user") /\
     row !! "device_id" = Some (num 3) /\
     row !! "mode" = Some (JStr "MANUAL")) /\
  (triggerFeed 7 one_tank (request "abc" [("volume_grams", num 2)])).1
    = internal_error /\
  feeding_logs (triggerFeed 7 one_tank (request "abc" [("volume_grams", num 2)])).2
    = [].
Proof.
  split_and!.
  - destruct (triggerFeed_log 7 one_tank feed_of_0_grams) as [Hc _].
    destruct (fed 7 one_tank feed_of_0_grams) as [l|] eqn:El; [|discriminate El].
    destruct Hc as (row & E & _ & _ & _ & Hm & Hd & Hv & Ha & _ & Hdev & Hact & Hnull & _).
    exists row. split_and!; [exact E | | | | exact Hm].
    + rewrite Hv, Hnull; [reflexivity|]. right; right; left. reflexivity.
    + rewrite Ha, <- Hact. reflexivity.
    + rewrite Hd, <- Hdev. reflexivity.
  - destruct (triggerFeed_log 7 one_tank (request "abc" [("volume_grams", num 2)]))
      as [Hc _].
    change (fed 7 one_tank (request "abc" [("volume_grams", num 2)]))
      with (@None FeedingLog) in Hc.
    apply Hc.
  - destruct (triggerFeed_log 7 one_tank (request "abc" [("volume_grams", num 2)]))
      as [Hc _].
    change (fed 7 one_tank (request "abc" [("volume_grams", num 2)]))
      with (@None FeedingLog) in Hc.
    apply Hc.
Defined.

(** C4, as stated, fails: [{ volume_grams: -5, actor: "" }] is logged with
    a volume of -5, not NULL, and with actor ['user'] although the body has
    an actor. *)
Lemma triggerFeed_negative_volume_kept :
  body feed_of_minus_5_grams !! "volume_grams" = Some (num (-5)) /\
  body feed_of_minus_5_grams !! "actor" = Some (JStr "") /\
  exists row db',
    triggerFeed 7 one_tank feed_of_minus_5_grams
      = ({| status := 201; json := Feeding (Row row) |}, db') /\
    row !! "volume_grams" = Some (num (-5)) /\
    row !! "volume_grams" <> Some JNull /\
    row !! "actor" = Some (JStr "user").
Proof.
  split; [reflexivity|]. split; [reflexivity|].
  eexists _, _. split; [reflexivity|].
  split; [reflexivity|]. split; [|reflexivity].
  vm_compute. discriminate.
Qed.

(** ** updateAquarium *)

Lemma updateAquarium_partial_witness :
  (exists row,
     (updateAquarium one_tank rename_tank_3).1 = {| status := 200; json := Row row |} /\
     row !! "id" = Some (num 3) /\
     row !! "name" = Some (JStr "Tank B") /\
     row !! "size_litres" = Some (num 60) /\
     row !! "feeding_volume_grams" = Some (num 2)) /\
  updateAquarium one_tank (request "4" [("name", JStr "Tank B")])
    = (error 404 "not_found", one_tank) /\
  updateAquarium one_tank rename_tank_abc = (internal_error, one_tank) /\
  updateAquarium one_tank (request "3" [("size_litres", JStr "big")])
    = (internal_error, one_tank).
Proof.
  destruct (updateAquarium_partial one_tank rename_tank_3)
    as (_ & Hread & Hkept & Htaken & _).
  destruct (Hread eq_refl) as (_ & _ & Hrow).
  destruct (Hrow tank_3 eq_refl)
    as (a' & row & E & (Hn & Hs & Hv & _) & Hid & _ & _ & Rn & Rs & Rv & _).
  destruct (updateAquarium_partial one_tank (request "4" [("name", JStr "Tank B")]))
    as (_ & Hread4 & _).
  destruct (Hread4 eq_refl) as (_ & Hno & _).
  split_and!.
  - exists row. split_and!; [exact E | exact Hid | | |].
    + rewrite Rn. symmetry.
      apply (Htaken aquariums_name "name" (aq_name tank_3) (aq_name a') (JStr "Tank B"));
        [reflexivity | discriminate | discriminate | exact Hn].
    + rewrite Rs. symmetry.
      apply (Htaken aquariums_size_litres "size_litres" (aq_size_litres tank_3)
               (aq_size_litres a') (JStr "60"));
        [reflexivity | discriminate | discriminate | exact Hs].
    + rewrite Rv. f_equal.
      apply (Hkept aquariums_feeding_volume_grams "feeding_volume_grams"
               (aq_feeding_volume_grams tank_3) (aq_feeding_volume_grams a'));
        [left; reflexivity | exact Hv].
  - apply Hno. intros a Ha. apply list_elem_of_singleton in Ha. by subst a.
  - apply (proj1 (updateAquarium_partial one_tank rename_tank_abc)). reflexivity.
  - apply (proj1 (updateAquarium_partial one_tank
                    (request "3" [("size_litres", JStr "big")]))). reflexivity.
Defined.

(** C2, as stated, fails: the path id [abc] is the id of no aquarium, and
    the update is answered 500 [internal_error], not 404. *)
Lemma updateAquarium_unreadable_id :
  prop (params rename_tank_abc) "id" = JStr "abc" /\
  (forall a, a ∈ aquariums one_tank ->
             sql_eq (aq_id a) (pg_param (prop (params rename_tank_abc) "id")) = false) /\
  updateAquarium one_tank rename_tank_abc = (internal_error, one_tank) /\
  status (updateAquarium one_tank rename_tank_abc).1 <> 404%nat.
Proof.
  split_and!; try reflexivity.
  - intros a Ha. apply list_elem_of_singleton in Ha. by subst a.
  - vm_compute. discriminate.
Qed.

Lemma updateAquarium_nothing_sent_witness :
  updateAquarium one_tank (request "3" [("user_id", num 9)])
    = getAquarium one_tank (request "3" [("user_id", num 9)]) /\
  (updateAquarium one_tank (request "3" [("user_id", num 9)])).2 = one_tank.
Proof.
  apply (updateAquarium_nothing_sent one_tank (request "3" [("user_id", num 9)])).
  intros k Hk. left.
  repeat (apply elem_of_cons in Hk as [-> | Hk]; [reflexivity|]).
  by apply elem_of_nil in Hk.
Defined.

(** ** updateFeedingSetting, deleteFeedingSetting *)

Lemma schedule_1_not_of_tank_4 :
  names_schedule_of_another one_tank (num 1) (JStr "4").
Proof.
  split.
  - exists schedule_1. split; [apply list_elem_of_here | reflexivity].
  - intros s Hs _. apply list_elem_of_singleton in Hs. by subst s.
Defined.

Lemma no_schedule_abc : names_no_schedule one_tank (JStr "abc").
Proof. intros s Hs. apply list_elem_of_singleton in Hs. by subst s. Defined.

Lemma schedule_1_of_tank_3 : owns_schedule one_tank (num 1) (JStr "3").
Proof.
  exists schedule_1. split; [apply list_elem_of_here | split; reflexivity].
Defined.

Lemma schedule_not_of_aquarium_witness :
  updateFeedingSetting one_tank disable_1_in_tank_4
    = (error 404 "schedule_not_found", one_tank) /\
  updateFeedingSetting one_tank (request "3" [])
    = (error 400 "settingId required in body", one_tank) /\
  deleteFeedingSetting one_tank (setting_request "4" "1")
    = (error 404 "schedule_not_found", one_tank) /\
  deleteFeedingSetting one_tank (setting_request "3" "abc")
    = (internal_error, one_tank).
Proof.
  destruct (schedule_not_of_aquarium one_tank disable_1_in_tank_4
              (setting_request "4" "1")) as (Hupd & _ & Hdel).
  destruct (schedule_not_of_aquarium one_tank (request "3" [])
              (setting_request "3" "abc")) as (_ & Hreq & Habc).
  split_and!.
  - apply Hupd; [reflexivity|]. right. apply schedule_1_not_of_tank_4.
  - apply Hreq. reflexivity.
  - apply Hdel. right. apply schedule_1_not_of_tank_4.
  - apply Habc. left. apply no_schedule_abc.
Defined.

(** C1, as stated, fails: a [settingId] of 0 names no schedule, and the
    update is answered 400 [settingId required in body], not 404. *)
Lemma updateFeedingSetting_setting_0 :
  body disable_0_in_tank_3 !! "settingId" = Some (num 0) /\
  names_no_schedule one_tank (num 0) /\
  updateFeedingSetting one_tank disable_0_in_tank_3
    = (error 400 "settingId required in body", one_tank) /\
  status (updateFeedingSetting one_tank disable_0_in_tank_3).1 <> 404%nat.
Proof.
  split; [reflexivity|]. split; [|split; [reflexivity|]].
  - intros s Hs. apply list_elem_of_singleton in Hs. by subst s.
  - vm_compute. discriminate.
Qed.

(** C1, as stated, fails also where the engine rejects an id: the
    [settingId] [abc] names no schedule, and the delete is answered 500
    [internal_error], not 404. *)
Lemma deleteFeedingSetting_setting_abc :
  names_no_schedule one_tank (prop (params (setting_request "3" "abc")) "settingId") /\
  deleteFeedingSetting one_tank (setting_request "3" "abc")
    = (internal_error, one_tank) /\
  status (deleteFeedingSetting one_tank (setting_request "3" "abc")).1 <> 404%nat.
Proof.
  split; [apply no_schedule_abc|]. split; [reflexivity|].
  vm_compute. discriminate.
Qed.

Lemma updateFeedingSetting_merges_witness :
  (exists row,
     (updateFeedingSetting one_tank disable_1_in_tank_3).1
       = {| status := 200; json := Row row |} /\
     row !! "id" = Some (num 1) /\
     row !! "enabled" = Some (JBool false) /\
     row !! "name" = Some (JStr "morning")) /\
  updateFeedingSetting one_tank
    (request "3" [("settingId", num 1); ("enabled", JStr "maybe")])
  = (internal_error, one_tank).
Proof.
  destruct (updateFeedingSetting_merges one_tank disable_1_in_tank_3
              eq_refl schedule_1_of_tank_3)
    as (_ & Hread & Hkept & Htaken & _).
  destruct (Hread eq_refl)
    as (_ & s & s' & row & Hs & E & (Hn & _ & _ & _ & He & _) & Rid & _ & Rn & _ & _
        & _ & Re & _).
  injection Hs as <-.
  split.
  - exists row. split_and!; [exact E | exact Rid | |].
    + rewrite Re. symmetry.
      apply (Htaken schedules_enabled "enabled" (sc_enabled schedule_1)
               (sc_enabled s') (JBool false));
        [reflexivity | discriminate | discriminate | exact He].
    + rewrite Rn. f_equal.
      apply (Hkept schedules_name "name" (sc_name schedule_1) (sc_name s'));
        [left; reflexivity | exact Hn].
  - apply (updateFeedingSetting_merges one_tank
             (request "3" [("settingId", num 1); ("enabled", JStr "maybe")])
             eq_refl schedule_1_of_tank_3).
    reflexivity.
Defined.

Lemma updateFeedingSetting_keeps_owner_witness :
  owns_schedule (updateFeedingSetting one_tank disable_1_in_tank_3).2 (num 1) (JStr "3").
Proof.
  destruct (updateFeedingSetting_keeps_owner one_tank disable_1_in_tank_3)
    as (_ & Hown & _).
  apply Hown, schedule_1_of_tank_3.
Defined.

Lemma deleteFeedingSetting_removes_witness :
  (deleteFeedingSetting one_tank (setting_request "3" "1")).1
    = {| status := 200; json := Row {[ "status" := JStr "deleted" ]} |} /\
  (length (schedules (deleteFeedingSetting one_tank (setting_request "3" "1")).2)
   < length (schedules one_tank))%nat.
Proof.
  destruct (deleteFeedingSetting_removes one_tank (setting_request "3" "1"))
    as (E & _ & _ & Hlen & _).
  - exists schedule_1. split; [apply list_elem_of_here | split; reflexivity].
  - split; [exact E | exact Hlen].
Defined.

Lemma deleteFeedingSetting_then_404_witness :
  let db' := (deleteFeedingSetting one_tank (setting_request "3" "1")).2 in
  schedules db' = [] /\
  deleteFeedingSetting db' (setting_request "3" "1")
    = (error 404 "schedule_not_found", db') /\
  updateFeedingSetting db' (request "3" [("settingId", JStr "1")])
    = (error 404 "schedule_not_found", db').
Proof.
  split; [reflexivity|].
  destruct (deleteFeedingSetting_then_404 one_tank (setting_request "3" "1")
              (request "3" [("settingId", JStr "1")]) eq_refl eq_refl eq_refl)
    as (_ & Hd & Hu).
  split; [exact Hd | exact Hu].
Defined.

(** ** updateAlertStatus *)

Lemma alert_2_of_tank_3 : owns_alert one_tank (num 2) (JStr "3").
Proof.
  exists alert_2. split; [|split; reflexivity].
  apply list_elem_of_further, list_elem_of_here.
Defined.

Lemma alert_1_of_tank_3 : owns_alert one_tank (num 1) (JStr "3").
Proof.
  exists alert_1. split; [|split; reflexivity]. apply list_elem_of_here.
Defined.

Lemma updateAlertStatus_resolved_at_witness :
  exists a',
    (updateAlertStatus 9000 one_tank reopen_alert_2).1
      = {| status := 200; json := Row (alert_row a') |} /\
    al_id a' = num 2 /\ al_resolved a' = JBool false /\ al_resolved_at a' = None.
Proof.
  destruct (updateAlertStatus_resolved_at 9000 one_tank reopen_alert_2
              eq_refl alert_2_of_tank_3)
    as (_ & _ & _ & (a & a' & Ha & E & Hid & Hres & Hat) & _).
  exists a'. split; [exact E|].
  injection Ha as <-. by split_and!.
Defined.

Lemma updateAlertStatus_not_true_witness :
  resolved_flag (JStr "True") = false /\
  status (updateAlertStatus 9000 one_tank resolve_alert_1_capitalised).1 = 200%nat.
Proof.
  destruct (updateAlertStatus_not_true 9000 one_tank resolve_alert_1_capitalised
              eq_refl alert_1_of_tank_3) as (Hnot & _ & _).
  destruct Hnot as (Hflag & Hst & _); [discriminate | discriminate |].
  split; [exact Hflag | exact Hst].
Defined.

Lemma alert_1_not_of_tank_4 : ~ owns_alert one_tank (num 1) (JStr "4").
Proof.
  intros (a & Ha & _ & Hdev).
  apply elem_of_cons in Ha as [-> | Ha]; [discriminate Hdev|].
  apply list_elem_of_singleton in Ha. subst a. discriminate Hdev.
Defined.

Lemma alert_abc_not_of_tank_3 : ~ owns_alert one_tank (JStr "abc") (JStr "3").
Proof.
  intros (a & Ha & Hid & _).
  apply elem_of_cons in Ha as [-> | Ha]; [discriminate Hid|].
  apply list_elem_of_singleton in Ha. subst a. discriminate Hid.
Defined.

Lemma updateAlertStatus_rejects_witness :
  updateAlertStatus 9000 one_tank (request "3" [("resolved", JBool true)])
    = (error 400 "alertId required", one_tank) /\
  updateAlertStatus 9000 one_tank resolve_alert_1_in_tank_4
    = (error 404 "alert_not_found", one_tank) /\
  updateAlertStatus 9000 one_tank
    (request "3" [("alertId", JStr "abc"); ("resolved", JBool true)])
  = (internal_error, one_tank).
Proof.
  destruct (updateAlertStatus_rejects 9000 one_tank
              (request "3" [("resolved", JBool true)])) as (Hreq & _).
  destruct (updateAlertStatus_rejects 9000 one_tank resolve_alert_1_in_tank_4)
    as (_ & Hown & _).
  destruct (updateAlertStatus_rejects 9000 one_tank
              (request "3" [("alertId", JStr "abc"); ("resolved", JBool true)]))
    as (_ & Habc & _).
  split_and!.
  - apply Hreq; reflexivity.
  - apply Hown; [reflexivity|]. apply alert_1_not_of_tank_4.
  - apply Habc; [reflexivity|]. apply alert_abc_not_of_tank_3.
Defined.

Lemma updateAlertStatus_last_wins_witness :
  updateAlertStatus 9500
    (updateAlertStatus 9000 one_tank resolve_alert_1).2 resolve_alert_1_capitalised
  = updateAlertStatus 9500 one_tank resolve_alert_1_capitalised.
Proof.
  apply (updateAlertStatus_last_wins 9000 9500 one_tank resolve_alert_1
           resolve_alert_1_capitalised); try reflexivity.
  exists alert_1. split; [apply list_elem_of_here | split; reflexivity].
Defined.

(** ** getConditionHistory, getDailyConsumption, getAquariumAlerts *)

Lemma getConditionHistory_bounds_witness :
  (exists (rows : list SensorReading) (answer : list (gmap string JsVal)),
     getConditionHistory one_tank_log (history_request "3" "1970-01-02" "1970-01-03")
       = ({| status := 200; json := Rows answer |}, one_tank_log) /\
     length answer = length rows /\
     (length rows <= 500)%nat /\
     forall r, r ∈ rows -> 86400 <= sd_ts r <= 172800) /\
  getConditionHistory one_tank_log (history_request "3" "1970-01-02" "1970-01-03")
    = ({| status := 200;
          json := Rows [sensor_row (reading 3 100000); sensor_row (reading 3 90000)] |},
       one_tank_log) /\
  sensor_row (reading 3 100000) !! "ts" = Some (JDate 100000) /\
  sensor_row (reading 3 100000) !! "temperature" = Some (num 25) /\
  getConditionHistory one_tank_log (history_request "3" "150" "300")
    = (internal_error, one_tank_log).
Proof.
  destruct (getConditionHistory_bounds one_tank_log
              (history_request "3" "1970-01-02" "1970-01-03")) as (_ & Hread & _).
  destruct (Hread eq_refl) as (rows & answer & E & Hcols & Hin & _ & Hlen & _).
  split_and!; try reflexivity.
  - exists rows, answer. split; [exact E|].
    split; [symmetry; by eapply Forall2_length|]. split; [exact Hlen|].
    intros r Hr. destruct (Hin r Hr) as (_ & _ & Hs & He).
    destruct (Hs eq_refl) as (t1 & E1 & ?). destruct (He eq_refl) as (t2 & E2 & ?).
    injection E1 as <-. injection E2 as <-. split; assumption.
Defined.

Lemma getConditionHistory_crossed_bounds_witness :
  getConditionHistory one_tank_log (history_request "3" "1970-01-03" "1970-01-02")
    = ({| status := 200; json := Rows [] |}, one_tank_log).
Proof.
  apply (getConditionHistory_crossed_bounds one_tank_log
           (history_request "3" "1970-01-03" "1970-01-02") 172800 86400);
    reflexivity.
Defined.


Lemma getAquariumAlerts_latest_witness :
  (exists (rows : list Alert) (answer : list (gmap string JsVal)),
     getAquariumAlerts one_tank (request "3" [])
       = ({| status := 200; json := Rows answer |}, one_tank) /\
     length answer = length rows /\ (length rows <= 100)%nat) /\
  getAquariumAlerts one_tank (request "3" [])
    = ({| status := 200; json := Rows [alert_row alert_2; alert_row alert_1] |},
       one_tank) /\
  alert_row alert_2 !! "resolved_at" = Some (JDate 2600) /\
  alert_row alert_2 !! "message" = Some (JStr "ph low") /\
  getAquariumAlerts one_tank (request "abc" []) = (internal_error, one_tank).
Proof.
  destruct (getAquariumAlerts_latest one_tank (request "3" [])) as (_ & Hread).
  destruct (Hread eq_refl) as (rows & answer & E & Hcols & _ & _ & Hlen & _).
  split_and!; try reflexivity.
  - exists rows, answer. split; [exact E|].
    split; [symmetry; by eapply Forall2_length | exact Hlen].
Defined.


Lemma listings_of_unknown_aquarium_witness :
  getFeedingSettings one_tank (request "9" [])
    = ({| status := 200; json := Rows [] |}, one_tank) /\
  getDailyConsumption one_tank_log (request "9" [])
    = ({| status := 200; json := Rows [] |}, one_tank_log) /\
  getFeedingSettings one_tank (request "abc" []) = (internal_error, one_tank).
Proof.
  destruct (listings_of_unknown_aquarium one_tank (request "9" [])) as (Hs & _).
  destruct (Hs eq_refl) as (Hset & _).
  destruct (listings_of_unknown_aquarium one_tank_log (request "9" [])) as (Hl & _).
  destruct (Hl eq_refl) as (_ & _ & _ & Hlog).
  destruct (listings_of_unknown_aquarium one_tank (request "abc" [])) as (_ & Habc).
  split_and!.
  - apply Hset. intros s Hs'. apply list_elem_of_singleton in Hs'. by subst s.
  - apply Hlog. intros l Hl'.
    repeat (apply elem_of_cons in Hl' as [-> | Hl']; [reflexivity|]).
    by apply elem_of_nil in Hl'.
  - apply Habc. reflexivity.
Defined.

(** ** getAquarium, listAquariums, deleteAquarium *)

Lemma tank_3_first_named :
  head (List.filter (names_aquarium (JStr "3")) (aquariums one_tank)) = Some tank_3.
Proof. reflexivity. Defined.

Lemma no_tank_9 a : a ∈ aquariums one_tank -> names_aquarium (JStr "9") a = false.
Proof. intros Ha. apply list_elem_of_singleton in Ha. by subst a. Defined.

Lemma getAquarium_found_or_404_witness :
  (exists row,
     getAquarium one_tank (request "3" [])
       = ({| status := 200; json := Row row |}, one_tank) /\
     row !! "id" = Some (num 3) /\ row !! "name" = Some (JStr "Tank A")) /\
  getAquarium one_tank (request "9" []) = (error 404 "not_found", one_tank) /\
  getAquarium one_tank (request "abc" []) = (internal_error, one_tank) /\
  getAquarium one_tank (request "99999999999" []) = (internal_error, one_tank).
Proof.
  destruct (getAquarium_found_or_404 one_tank (request "3" [])) as (_ & _ & Hrow & _).
  destruct (Hrow tank_3 tank_3_first_named) as (row & E & Hid & _ & Hn & _).
  destruct (getAquarium_found_or_404 one_tank (request "9" [])) as (_ & Hno & _).
  destruct (Hno eq_refl) as (_ & H404).
  split_and!.
  - exists row. by split_and!.
  - apply H404, no_tank_9.
  - apply (proj1 (getAquarium_found_or_404 one_tank (request "abc" []))). reflexivity.
  - apply (proj1 (getAquarium_found_or_404 one_tank (request "99999999999" []))).
    reflexivity.
Defined.

Lemma createAquarium_then_getAquarium_witness :
  exists created fetched db',
    createAquarium 7 empty_db tank_a = ({| status := 201; json := Row created |}, db') /\
    getAquarium db' (request "1" []) = ({| status := 200; json := Row fetched |}, db') /\
    created ⊆ fetched /\
    created !! "id" = Some (num 1) /\ created !! "user_id" = Some (num 1).
Proof.
  destruct (createAquarium_then_getAquarium 7 empty_db tank_a (request "1" [])
              (new_aquarium 7 empty_db (num 1) (JStr "Tank A") (num 50)))
    as (created & fetched & db' & Hc & Hg & Hsub & Hid & _ & Hu & _); try reflexivity.
  - intros a Ha. by apply elem_of_nil in Ha.
  - by exists created, fetched, db'.
Defined.

Lemma createAquarium_then_listAquariums_witness :
  exists after,
    listAquariums (createAquarium 7 one_tank tank_a).2 (list_request "1")
      = ({| status := 200; json := Rows after |}, (createAquarium 7 one_tank tank_a).2) /\
    aquarium_created_row (new_aquarium 7 one_tank (num 1) (JStr "Tank A") (num 50))
      ∈ after /\
    length after = 2%nat.
Proof.
  destruct (createAquarium_then_listAquariums 7 one_tank tank_a (list_request "1")
              (new_aquarium 7 one_tank (num 1) (JStr "Tank A") (num 50)))
    as (_ & _ & _ & _ & _ & _ & Hlist); [reflexivity..|].
  destruct Hlist as (before & after & Hb & Ha & Hin & _); [by right|].
  exists after. split; [exact Ha|].
  destruct Hin as [Hperm Hmem]; [by right|]. split; [exact Hmem|].
  rewrite Hperm, length_app. injection Hb as <-. reflexivity.
Defined.

Lemma listAquariums_filter_witness :
  (exists (rows : list Aquarium) (answer : list (gmap string JsVal)),
     listAquariums one_tank (list_request "1")
       = ({| status := 200; json := Rows answer |}, one_tank) /\
     rows ≡ₚ [tank_3] /\ length answer = length rows) /\
  listAquariums one_tank (list_request "1")
    = ({| status := 200; json := Rows [aquarium_created_row tank_3] |}, one_tank) /\
  listAquariums one_tank (list_request "2")
    = ({| status := 200; json := Rows [] |}, one_tank) /\
  listAquariums one_tank (list_request "abc") = (internal_error, one_tank).
Proof.
  destruct (listAquariums_filter one_tank (list_request "1")) as (_ & Hread).
  destruct Hread as (rows & answer & E & Hcols & Hin & _); [by right|].
  split_and!; try reflexivity.
  - exists rows, answer. split; [exact E|]. split.
    + by destruct (Hin eq_refl) as [Hp _].
    + symmetry. by eapply Forall2_length.
Defined.

Lemma deleteAquarium_removes_witness :
  (deleteAquarium one_tank (request "3" [])).1
    = {| status := 200;
         json := Row (list_to_map [("status", JStr "deleted"); ("id", num 3)]) |} /\
  deleteAquarium one_tank (request "9" []) = (error 404 "not_found", one_tank) /\
  deleteAquarium one_tank (request "abc" []) = (internal_error, one_tank).
Proof.
  destruct (deleteAquarium_removes one_tank (request "3" [])) as (_ & H3).
  destruct (H3 eq_refl) as (_ & Hrow & _).
  destruct (deleteAquarium_removes one_tank (request "9" [])) as (_ & H9).
  destruct (H9 eq_refl) as (Hno & _).
  split_and!.
  - apply (Hrow tank_3), tank_3_first_named.
  - apply Hno, no_tank_9.
  - apply (proj1 (deleteAquarium_removes one_tank (request "abc" []))). reflexivity.
Defined.

Lemma deleteAquarium_then_404_witness :
  let db' := (deleteAquarium one_tank (request "3" [])).2 in
  aquariums db' = [] /\
  getAquarium db' (request "3" []) = (error 404 "not_found", db') /\
  deleteAquarium db' (request "3" []) = (error 404 "not_found", db').
Proof.
  split; [reflexivity|].
  destruct (deleteAquarium_then_404 one_tank (request "3" []) (request "3" []) eq_refl)
    as (Hg & Hd & _).
  split; [exact Hg | exact Hd].
Defined.

Lemma createAquarium_then_deleteAquarium_witness :
  let db1 := (createAquarium 7 one_tank tank_a).2 in
  length (aquariums db1) = 2%nat /\
  (deleteAquarium db1 (request "4" [])).1
    = {| status := 200;
         json := Row (list_to_map [("status", JStr "deleted"); ("id", num 4)]) |} /\
  aquariums (deleteAquarium db1 (request "4" [])).2 = aquariums one_tank.
Proof.
  split; [reflexivity|].
  destruct (createAquarium_then_deleteAquarium 7 one_tank tank_a (request "4" [])
              (new_aquarium 7 one_tank (num 1) (JStr "Tank A") (num 50)))
    as (_ & _ & E & Hs); try reflexivity.
  - intros a Ha. apply list_elem_of_singleton in Ha. by subst a.
  - split; [exact E | exact Hs].
Defined.

(** ** createFeedingSetting, then getFeedingSettings and deleteFeedingSetting *)

Lemma createFeedingSetting_then_getFeedingSettings_witness :
  exists s after,
    created_schedule one_tank every_zero_hours = Some s /\
    getFeedingSettings (createFeedingSetting one_tank every_zero_hours).2 (request "3" [])
      = ({| status := 200; json := Rows after |},
         (createFeedingSetting one_tank every_zero_hours).2) /\
    schedule_row s ∈ after /\ length after = 2%nat /\
    schedule_row s !! "device_id" = Some (num 3).
Proof.
  destruct (created_schedule one_tank every_zero_hours) as [s|] eqn:Es;
    [|discriminate Es].
  destruct (createFeedingSetting_then_getFeedingSettings one_tank every_zero_hours
              (request "3" []) s eq_refl Es eq_refl)
    as (before & after & Hb & _ & Ha & Hin & _ & _ & Hdev & _).
  exists s, after. split; [reflexivity|]. split; [exact Ha|].
  injection Es as <-.
  destruct (Hin eq_refl) as [Hperm Hmem]. split; [exact Hmem|]. split.
  - rewrite Hperm, length_app. injection Hb as <-. reflexivity.
  - exact Hdev.
Defined.

Lemma createFeedingSetting_then_deleteFeedingSetting_witness :
  let db1 := (createFeedingSetting one_tank every_zero_hours).2 in
  length (schedules db1) = 2%nat /\
  (deleteFeedingSetting db1 (setting_request "3" "2")).1
    = {| status := 200; json := Row {[ "status" := JStr "deleted" ]} |} /\
  schedules (deleteFeedingSetting db1 (setting_request "3" "2")).2
    = schedules one_tank.
Proof.
  split; [reflexivity|].
  destruct (created_schedule one_tank every_zero_hours) as [s|] eqn:Es;
    [|discriminate Es].
  destruct (createFeedingSetting_then_deleteFeedingSetting one_tank every_zero_hours
              (setting_request "3" "2") s eq_refl Es)
    as (_ & E & Hs & _); try (injection Es as <-; reflexivity).
  - intros x Hx. apply list_elem_of_singleton in Hx. by subst x.
  - split; [exact E | exact Hs].
Defined.

End Examples.
